(** * The rule validation scripts of the ClickHouse agent-skills build package

    A shallow embedding of the TypeScript validation scripts
    ([validate-sql.ts], [check-links.ts], [check-external-links.ts]) and of
    the compiler contract, followed by the properties established about
    them.

    JavaScript strings are sequences of UTF-16 code units; they are modelled
    as lists of [N].  Everything a script asks of the outside world (file
    system, subprocesses, network, clock, console) is an explicit request of
    the [io] type below, answered by an arbitrary handler, so that a
    statement proved for every handler holds whatever the outside world
    does. *)

From Stdlib Require Import ZArith NArith List Bool Lia String Ascii.
From stdpp Require Import base list sorting.

Set Default Proof Using "Type".
Open Scope list_scope.

(* ===================================================================== *)
(** * JavaScript strings                                                  *)
(* ===================================================================== *)

Module JS.

(** A string is the list of its code units. *)
Definition jsstring : Type := list N.

(** [str "abc"] is the JavaScript literal ['abc'] (ASCII literals only). *)
Definition str (s : string) : jsstring :=
  map N_of_ascii (list_ascii_of_string s).

Definition chr (s : string) : N :=
  match s with
  | String a _ => N_of_ascii a
  | EmptyString => 0%N
  end.

Definition between (lo hi c : N) : bool := ((lo <=? c) && (c <=? hi))%N.

(** [\s]: WhiteSpace and LineTerminator code units. *)
Definition isSpace (c : N) : bool :=
  between 9 13 c || (c =? 32)%N || (c =? 160)%N || (c =? 0x1680)%N
  || between 0x2000 0x200A c || (c =? 0x2028)%N || (c =? 0x2029)%N
  || (c =? 0x202F)%N || (c =? 0x205F)%N || (c =? 0x3000)%N || (c =? 0xFEFF)%N.

(** [\w]: the word characters used by [\b] (no [u] flag). *)
Definition isWordChar (c : N) : bool :=
  between 97 122 c || between 65 90 c || between 48 57 c || (c =? 95)%N.

(** Canonicalize of the [i] flag without the [u] flag.  A code unit of 128
    or more never canonicalizes to an ASCII code unit, and every pattern
    character compared below is ASCII, so only the ASCII letters matter. *)
Definition canonicalize (c : N) : N :=
  if between 97 122 c then (c - 32)%N else c.

Definition chr_eq (icase : bool) (c x : N) : bool :=
  if icase then (canonicalize c =? canonicalize x)%N else (c =? x)%N.

Fixpoint list_eqb (a b : jsstring) : bool :=
  match a, b with
  | [], [] => true
  | x :: a', y :: b' => (x =? y)%N && list_eqb a' b'
  | _, _ => false
  end.

(** [String.prototype.startsWith] *)
Fixpoint startsWith (s p : jsstring) {struct p} : bool :=
  match p with
  | [] => true
  | x :: p' =>
      match s with
      | y :: s' => (x =? y)%N && startsWith s' p'
      | [] => false
      end
  end.

(** [String.prototype.endsWith] *)
Definition endsWith (s p : jsstring) : bool :=
  startsWith (rev s) (rev p).

(** [String.prototype.includes] *)
Fixpoint includes (s p : jsstring) : bool :=
  startsWith s p ||
  match s with
  | [] => false
  | _ :: t => includes t p
  end.

(** [Array.prototype.includes] on an array of strings. *)
Definition arrayIncludes (l : list jsstring) (x : jsstring) : bool :=
  existsb (list_eqb x) l.

Fixpoint trimStart (s : jsstring) : jsstring :=
  match s with
  | c :: t => if isSpace c then trimStart t else s
  | [] => []
  end.

(** [String.prototype.trim] *)
Definition trim (s : jsstring) : jsstring :=
  rev (trimStart (rev (trimStart s))).

(** A string is truthy when it is not empty. *)
Definition truthy (s : jsstring) : bool :=
  match s with [] => false | _ => true end.

(** Decimal rendering of an integer in a template literal. *)
Fixpoint digits (fuel : nat) (n : N) (acc : jsstring) : jsstring :=
  match fuel with
  | O => acc
  | S f =>
      let acc' := (48 + n mod 10)%N :: acc in
      if (n / 10 =? 0)%N then acc' else digits f (n / 10)%N acc'
  end.

Definition ofZ (z : Z) : jsstring :=
  let n := Z.abs_N z in
  (if (z <? 0)%Z then [45%N] else []) ++ digits (S (N.to_nat (N.log2 n))) n [].

(* --------------------------------------------------------------------- *)
(** ** Regular expressions

    The fragment of the pattern language the scripts use: literal
    characters, character classes, [*] and [*?] over a class, [\b], capture
    groups and concatenation.  Matching follows the continuation semantics
    of the language definition: a matcher takes the current state and the
    continuation for the rest of the pattern, and backtracks through the
    alternatives of a repetition in priority order. *)

Inductive regex : Type :=
| Chr (c : N)
| Cls (p : N -> bool)
| Star (greedy : bool) (p : N -> bool)
| WordB
| Grp (r : regex)
| Seq (r1 r2 : regex).

(** [p+] and [p+?] *)
Definition Plus (greedy : bool) (p : N -> bool) : regex :=
  Seq (Cls p) (Star greedy p).

(** A literal word, character by character. *)
Fixpoint Lit (s : jsstring) (rest : regex) : regex :=
  match s with
  | [] => rest
  | c :: t => Seq (Chr c) (Lit t rest)
  end.

Record mstate : Type := MState {
  prev : option N;          (* the code unit before the current position *)
  input : jsstring;         (* what is left of the subject *)
  groups : list jsstring;   (* captures, in the order the groups closed *)
  consumed : nat            (* code units matched so far *)
}.

Definition cont : Type := mstate -> option mstate.

Definition isWordOpt (o : option N) : bool :=
  match o with Some c => isWordChar c | None => false end.

Definition step (x : N) (t : jsstring) (st : mstate) : mstate :=
  MState (Some x) t (groups st) (S (consumed st)).

Definition capture (st0 st1 : mstate) : mstate :=
  MState (prev st1) (input st1)
         (groups st1 ++ [firstn (consumed st1 - consumed st0) (input st0)])
         (consumed st1).

Fixpoint rep (greedy : bool) (p : N -> bool) (k : cont)
    (pv : option N) (g : list jsstring) (n : nat) (s : jsstring) {struct s}
    : option mstate :=
  match s with
  | c :: t =>
      if p c then
        if greedy then
          match rep greedy p k (Some c) g (S n) t with
          | Some r => Some r
          | None => k (MState pv s g n)
          end
        else
          match k (MState pv s g n) with
          | Some r => Some r
          | None => rep greedy p k (Some c) g (S n) t
          end
      else k (MState pv s g n)
  | [] => k (MState pv s g n)
  end.

Fixpoint matcher (icase : bool) (r : regex) (k : cont) (st : mstate)
    : option mstate :=
  match r with
  | Chr c =>
      match input st with
      | x :: t => if chr_eq icase c x then k (step x t st) else None
      | [] => None
      end
  | Cls p =>
      match input st with
      | x :: t => if p x then k (step x t st) else None
      | [] => None
      end
  | Star greedy p => rep greedy p k (prev st) (groups st) (consumed st) (input st)
  | WordB =>
      if xorb (isWordOpt (prev st)) (isWordOpt (head (input st)))
      then k st else None
  | Grp r' => matcher icase r' (fun st' => k (capture st st')) st
  | Seq r1 r2 => matcher icase r1 (fun st' => matcher icase r2 k st') st
  end.

(** One match attempt anchored at the current position. *)
Definition matchHere (icase : bool) (r : regex) (pv : option N) (s : jsstring)
    : option mstate :=
  matcher icase r Some (MState pv s [] 0).

(** The leftmost match at or after the current position. *)
Fixpoint search (icase : bool) (r : regex) (pv : option N) (s : jsstring)
    : option mstate :=
  match matchHere icase r pv s with
  | Some st => Some st
  | None =>
      match s with
      | c :: t => search icase r (Some c) t
      | [] => None
      end
  end.

(** [RegExp.prototype.test] of a pattern without the [g] flag. *)
Definition test (icase : bool) (r : regex) (s : jsstring) : bool :=
  match search icase r None s with Some _ => true | None => false end.

(** [String.prototype.replace] with a [g] pattern and a constant
    replacement.  [skip] counts the code units of the last match still to be
    dropped; an empty match is followed by one copied code unit. *)
Fixpoint replaceGo (icase : bool) (r : regex) (by_ : jsstring)
    (skip : nat) (pv : option N) (s : jsstring) {struct s} : jsstring :=
  match skip with
  | S m =>
      match s with
      | c :: t => replaceGo icase r by_ m (Some c) t
      | [] => []
      end
  | O =>
      match matchHere icase r pv s with
      | Some st =>
          by_ ++
          match s with
          | c :: t =>
              match consumed st with
              | O => c :: replaceGo icase r by_ 0 (Some c) t
              | S m => replaceGo icase r by_ m (Some c) t
              end
          | [] => []
          end
      | None =>
          match s with
          | c :: t => c :: replaceGo icase r by_ 0 (Some c) t
          | [] => []
          end
      end
  end.

Definition replaceAll (icase : bool) (r : regex) (by_ s : jsstring) : jsstring :=
  replaceGo icase r by_ 0 None s.

(** The loop [while ((match = re.exec(content)) !== null)] of a [g]
    pattern: the capture groups of the successive matches.  The patterns it
    is used with consume at least one code unit per match. *)
Fixpoint execLoop (icase : bool) (r : regex)
    (skip : nat) (pv : option N) (s : jsstring) {struct s} : list (list jsstring) :=
  match skip with
  | S m =>
      match s with
      | c :: t => execLoop icase r m (Some c) t
      | [] => []
      end
  | O =>
      match matchHere icase r pv s with
      | Some st =>
          match s, consumed st with
          | c :: t, S m => groups st :: execLoop icase r m (Some c) t
          | _, _ => []
          end
      | None =>
          match s with
          | c :: t => execLoop icase r 0 (Some c) t
          | [] => []
          end
      end
  end.

End JS.

Import JS.

(* ===================================================================== *)
(** * The outside world                                                   *)
(* ===================================================================== *)

Module IO.

(** A thrown or rejected JavaScript value, as far as the scripts look at
    it: [instanceof Error], [.name], [.code], [.message] (empty when
    absent) and [String(error)]. *)
Record JsError : Type := MkError {
  err_isError : bool;
  err_name : jsstring;
  err_code : jsstring;
  err_message : jsstring;
  err_text : jsstring
}.

(** The [Response] of [fetch]. *)
Record Response : Type := MkResponse {
  status : Z;
  statusText : jsstring
}.

(** [Response.ok]: the status is in the range 200-299. *)
Definition ok (r : Response) : bool :=
  ((200 <=? status r) && (status r <=? 299))%Z.

(** The parsed rule, as the SQL validator reads it (the parser itself is
    an import of the script). *)
Record Example : Type := MkExample {
  label : jsstring;
  language : option jsstring;
  code : jsstring
}.

Record Rule : Type := MkRule {
  title : jsstring;
  examples : list Example
}.

Inductive settled (A : Type) : Type :=
| Resolved (a : A)
| Rejected (e : JsError).
Arguments Resolved {A} a.
Arguments Rejected {A} e.

Inductive method : Type := HEAD | GET.
Inductive level : Type := LogLevel | WarnLevel | ErrorLevel.
Inductive jsval : Type := VStr (s : jsstring) | VErr (e : JsError).

(** Everything the scripts ask of their environment. *)
Inductive request : Type :=
| Stat (path : jsstring)
| Mkdir (path : jsstring)
| Chmod (path : jsstring) (mode : N)
| ExecAsync (command : jsstring)
| WriteFile (path data : jsstring)
| Readdir (path : jsstring)
| ReadFile (path : jsstring)
| ParseRuleFile (path : jsstring)
| DateNow
| Platform
| Tmpdir
| Console (l : level) (args : list jsval)
| Fetch (url : jsstring) (m : method) (abortAfter : Z)
| Sleep (ms : Z).

Definition answer (r : request) : Type :=
  match r with
  | Stat _ | Mkdir _ | Chmod _ _ | WriteFile _ _ => settled unit
  | ExecAsync _ => settled (jsstring * jsstring)     (* stdout, stderr *)
  | Readdir _ => settled (list jsstring)
  | ReadFile _ => settled jsstring
  | ParseRuleFile _ => settled Rule
  | DateNow => Z
  | Platform | Tmpdir => jsstring
  | Console _ _ => unit
  | Fetch _ _ _ => settled Response
  | Sleep _ => unit
  end.

(** A script: it returns, throws, ends the process with [process.exit], or
    asks the environment something and goes on with the answer. *)
Inductive io (A : Type) : Type :=
| Ret (a : A)
| Throw (e : JsError)
| Exit (code : Z)
| Vis (r : request) (k : answer r -> io A).
Arguments Ret {A} a.
Arguments Throw {A} e.
Arguments Exit {A} code.
Arguments Vis {A} r k.

Fixpoint bind {A B : Type} (m : io A) (f : A -> io B) : io B :=
  match m with
  | Ret a => f a
  | Throw e => Throw e
  | Exit c => Exit c
  | Vis r k => Vis r (fun x => bind (k x) f)
  end.

(** [try { m } catch (e) { h e }] *)
Fixpoint tryCatch {A : Type} (m : io A) (h : JsError -> io A) : io A :=
  match m with
  | Ret a => Ret a
  | Throw e => h e
  | Exit c => Exit c
  | Vis r k => Vis r (fun x => tryCatch (k x) h)
  end.

(** [try { m } finally { f }]; [process.exit] runs no [finally] block. *)
Fixpoint finally {A : Type} (m : io A) (f : io unit) : io A :=
  match m with
  | Ret a => bind f (fun _ => Ret a)
  | Throw e => bind f (fun _ => Throw e)
  | Exit c => Exit c
  | Vis r k => Vis r (fun x => finally (k x) f)
  end.

(** A plain request. *)
Definition ask (r : request) : io (answer r) := Vis r Ret.

(** [await] of a promise that may reject. *)
Definition settle {A : Type} (s : settled A) : io A :=
  match s with
  | Resolved a => Ret a
  | Rejected e => Throw e
  end.

Module Notations.
Notation "'let*' x ':=' m 'in' k" := (bind m (fun x => k))
  (at level 10, x pattern, m at level 100, k at level 200).
Notation "m '>>' k" := (bind m (fun _ => k))
  (at level 100, k at level 200, right associativity).
End Notations.
Import Notations.

Definition console (l : level) (args : list jsval) : io unit :=
  ask (Console l args).

(** ** Running a script against an environment *)

Definition handler (W : Type) : Type := forall r : request, W -> answer r * W.

Inductive outcome (A : Type) : Type :=
| Returned (a : A)
| Thrown (e : JsError)
| Exited (code : Z).
Arguments Returned {A} a.
Arguments Thrown {A} e.
Arguments Exited {A} code.

Definition event : Type := { r : request & answer r }.

Fixpoint run {W A : Type} (h : handler W) (m : io A) (w : W)
    : outcome A * list event * W :=
  match m with
  | Ret a => (Returned a, [], w)
  | Throw e => (Thrown e, [], w)
  | Exit c => (Exited c, [], w)
  | Vis r k =>
      let a := h r w in
      let rest := run h (k (fst a)) (snd a) in
      (fst (fst rest), existT r (fst a) :: snd (fst rest), snd rest)
  end.

Definition result_of {W A : Type} (h : handler W) (m : io A) (w : W) : outcome A :=
  fst (fst (run h m w)).

Definition trace_of {W A : Type} (h : handler W) (m : io A) (w : W) : list event :=
  snd (fst (run h m w)).

Definition requestOf (e : event) : request := projT1 e.

(** [path.join] of two segments: the segments separated by one [/].  The
    normalization that [path.join] applies to the result (an empty segment
    dropped, repeated separators merged, [.] and [..] segments resolved, a
    leading [./] removed) is not modelled.  The two agree when the first
    segment is a normalized path, neither empty nor ending with [/], and
    the second is a plain name other than [.] and [..]; on other arguments
    the paths of the model differ from those of the code by that
    normalization only. *)
Definition join (a b : jsstring) : jsstring := a ++ str "/" ++ b.

Definition dq : jsstring := [34%N].

End IO.

Import IO IO.Notations.

(* ===================================================================== *)
(** * validate-sql.ts, with the deny-list and the restricted engine mode  *)
(* ===================================================================== *)

Module ValidateSql.

Section WithConfig.

(** [config.js] *)
Variables RULES_DIR BUILD_DIR : jsstring.

Definition CLICKHOUSE_VERSION : jsstring := str "24.1.8.22".
Definition CLICKHOUSE_BINARY_NAME : jsstring := str "clickhouse".
Definition CLICKHOUSE_DIR : jsstring := join BUILD_DIR (str "bin").
Definition CLICKHOUSE_BINARY : jsstring := join CLICKHOUSE_DIR CLICKHOUSE_BINARY_NAME.

Record SQLValidationError : Type := MkSQLError {
  file : jsstring;
  ruleTitle : jsstring;
  exampleLabel : jsstring;
  error : jsstring;
  sql : jsstring
}.

Inductive platform : Type := macos | linux | unsupported.

Definition getPlatform : io platform :=
  let* p := ask Platform in
  if list_eqb p (str "darwin") then Ret macos
  else if list_eqb p (str "linux") then Ret linux
  else Ret unsupported.

Definition releaseUrl : jsstring :=
  str "https://github.com/ClickHouse/ClickHouse/releases/download/v"
  ++ CLICKHOUSE_VERSION.

Definition getDownloadUrl : io (option jsstring) :=
  let* p := getPlatform in
  match p with
  | macos => Ret (Some (releaseUrl ++ str "/clickhouse-macos"))
  | linux => Ret (Some (releaseUrl ++ str "/clickhouse"))
  | unsupported => Ret None
  end.

Definition crossMark : jsstring := [0x2717%N].
Definition checkMark : jsstring := [0x2713%N].
Definition warnMark : jsstring := [0x26A0%N].

Definition curlCommand (url : jsstring) : jsstring :=
  str "curl -L -o " ++ dq ++ CLICKHOUSE_BINARY ++ dq ++ str " " ++ dq ++ url ++ dq.

(** The inner [try] of [ensureClickHouse]: create the directory, download
    with curl, make the file executable (mode 0o755). *)
Definition download (url : jsstring) : io bool :=
  tryCatch
    (let* _ := bind (ask (Mkdir CLICKHOUSE_DIR)) settle in
     let* _ := bind (ask (ExecAsync (curlCommand url))) settle in
     let* _ := bind (ask (Chmod CLICKHOUSE_BINARY 493)) settle in
     console LogLevel [VStr (checkMark ++ str " ClickHouse binary downloaded")] >>
     Ret true)
    (fun e =>
       console ErrorLevel
         [VStr (crossMark ++ str " Failed to download ClickHouse binary:"); VErr e] >>
       Ret false).

Definition ensureClickHouse : io bool :=
  let* found := ask (Stat CLICKHOUSE_BINARY) in
  match found with
  | Resolved _ =>
      console LogLevel [VStr (checkMark ++ str " ClickHouse binary found")] >>
      Ret true
  | Rejected _ =>
      console LogLevel [VStr (str "Downloading ClickHouse binary...")] >>
      let* url := getDownloadUrl in
      match url with
      | None =>
          console ErrorLevel
            [VStr (crossMark ++
                   str " Unsupported platform. SQL validation requires macOS or Linux.")] >>
          Ret false
      | Some url => download url
      end
  end.

(** The comment stripping and whitespace normalization of
    [containsDangerousPatterns]:
    [/\/\*[\s\S]*?\*\//g], [/--[^\n]*/g] and [/\s+/g], each replaced by one
    space. *)
Definition anyChar (c : N) : bool := isSpace c || negb (isSpace c).
Definition notNewline (c : N) : bool := negb (c =? 10)%N.

Definition blockComment : regex :=
  Seq (Chr (chr "/")) (Seq (Chr (chr "*"))
    (Seq (Star false anyChar) (Seq (Chr (chr "*")) (Chr (chr "/"))))).

Definition lineComment : regex :=
  Seq (Chr (chr "-")) (Seq (Chr (chr "-")) (Star true notNewline)).

Definition whitespaceRun : regex := Plus true isSpace.

Definition stripComments (sql : jsstring) : jsstring :=
  replaceAll false whitespaceRun (str " ")
    (replaceAll false lineComment (str " ")
      (replaceAll false blockComment (str " ") sql)).

(** [/\bname\s*\(/i] *)
Definition callPattern (name : string) : regex :=
  Seq WordB (Lit (str name) (Seq (Star true isSpace) (Chr (chr "(")))).

Definition dangerous : list (regex * jsstring) :=
  [ (callPattern "file", str "file() table function (file system access)");
    (callPattern "url", str "url() table function (HTTP access)");
    (callPattern "s3", str "s3() table function (cloud storage access)");
    (callPattern "mysql", str "mysql() table function (database access)");
    (callPattern "postgresql", str "postgresql() table function (database access)");
    (callPattern "mongodb", str "mongodb() table function (database access)");
    (callPattern "hdfs", str "hdfs() table function (HDFS access)");
    (callPattern "odbc", str "odbc() table function (ODBC access)");
    (callPattern "jdbc", str "jdbc() table function (JDBC access)");
    (callPattern "executable", str "executable() table function (command execution)");
    (callPattern "remote", str "remote() table function (remote server access)");
    (callPattern "cluster", str "cluster() table function (cluster access)");
    (callPattern "input", str "input() table function (stdin access)");
    (callPattern "sleep", str "sleep() function (timing attack vector)");
    (callPattern "throwIf", str "throwIf() function (error-based exfiltration)") ].

Definition securityPrefix : jsstring := str "Security: SQL contains dangerous pattern: ".

Fixpoint firstDangerous (l : list (regex * jsstring)) (sqlNoComments : jsstring)
    : option jsstring :=
  match l with
  | [] => None
  | (pattern, description) :: rest =>
      if test true pattern sqlNoComments
      then Some (securityPrefix ++ description)
      else firstDangerous rest sqlNoComments
  end.

Definition containsDangerousPatterns (sql : jsstring) : option jsstring :=
  firstDangerous dangerous (stripComments sql).

(** [if (x)] on a [string | null]. *)
Definition truthyOpt (o : option jsstring) : bool :=
  match o with Some s => truthy s | None => false end.

(** The flags of the restricted engine mode, as they appear on the command
    line. *)
Definition restrictedFlags : jsstring :=
  str "--readonly=2 --allow_introspection_functions=0 --allow_ddl=0 " ++
  str "--max_execution_time=10 --max_memory_usage=100000000 --max_rows_to_read=1000000 " ++
  str "--user_files_path=" ++ dq ++ str "/dev/null" ++ dq ++
  str " --format_schema_path=" ++ dq ++ str "/dev/null" ++ dq ++ str " ".

Definition engineCommand (tmpFile : jsstring) : jsstring :=
  dq ++ CLICKHOUSE_BINARY ++ dq ++ str " local --query-file " ++ dq ++ tmpFile ++ dq ++
  str " --output-format Null " ++
  restrictedFlags ++
  str "2>&1 || true".

Definition rmCommand (tmpFile : jsstring) : jsstring :=
  str "rm -f " ++ dq ++ tmpFile ++ dq.

Definition tmpFileName (tmp : jsstring) (now : Z) : jsstring :=
  join tmp (str "clickhouse-validate-" ++ ofZ now ++ str ".sql").

(** What the script makes of the engine's answer. *)
Definition readStderr (out : jsstring * jsstring) : option jsstring :=
  let stderr := snd out in
  if truthy stderr && (includes stderr (str "Exception") || includes stderr (str "Error"))
  then Some (trim stderr)
  else None.

Definition errorText (e : JsError) : jsstring :=
  if err_isError e then err_message e else err_text e.

Definition cleanup (tmpFile : jsstring) : io unit :=
  tryCatch
    (let* _ := bind (ask (ExecAsync (rmCommand tmpFile))) settle in Ret tt)
    (fun _ => Ret tt).

Definition validateSQL (sql : jsstring) : io (option jsstring) :=
  let dangerousPattern := containsDangerousPatterns sql in
  if truthyOpt dangerousPattern then Ret dangerousPattern
  else
    let* tmp := ask Tmpdir in
    let* now := ask DateNow in
    let tmpFile := tmpFileName tmp now in
    let* _ := bind (ask (WriteFile tmpFile sql)) settle in
    finally
      (tryCatch
         (let* out := bind (ask (ExecAsync (engineCommand tmpFile))) settle in
          Ret (readStderr out))
         (fun e => Ret (Some (errorText e))))
      (cleanup tmpFile).

(** The mutable state of the main loop. *)
Record counters : Type := MkCounters {
  allErrors : list SQLValidationError;
  totalSQLExamples : nat
}.

(** [example.code && example.code.trim() &&
     (example.language === 'sql' || !example.language)] *)
Definition isSqlExample (ex : Example) : bool :=
  truthy (code ex) && truthy (trim (code ex)) &&
  match language ex with
  | Some l => list_eqb l (str "sql") || negb (truthy l)
  | None => true
  end.

Definition snippetOf (c : jsstring) : jsstring :=
  firstn 100 c ++ (if (100 <? length c)%nat then str "..." else []).

(** A block whose exception is inspected by the caller. *)
Definition attempt {A : Type} (m : io A) : io (settled A) :=
  tryCatch (let* a := m in Ret (Resolved a)) (fun e => Ret (Rejected e)).

Section MainLoop.

(** The two copies of the script differ only in [validateSQL]. *)
Variable validate : jsstring -> io (option jsstring).

(** The loop over the examples of one rule: the counters when it ended,
    and the exception that ended it early, if any. *)
Fixpoint forExamples (f ttl : jsstring) (exs : list Example) (a : counters)
    : io (counters * option JsError) :=
  match exs with
  | [] => Ret (a, None)
  | ex :: rest =>
      if isSqlExample ex then
        let a1 := MkCounters (allErrors a) (S (totalSQLExamples a)) in
        let* r := attempt (validate (code ex)) in
        match r with
        | Rejected e => Ret (a1, Some e)
        | Resolved err =>
            let a2 :=
              match err with
              | Some msg =>
                  if truthy msg
                  then MkCounters
                         (allErrors a1 ++
                          [MkSQLError f ttl (label ex) msg (snippetOf (code ex))])
                         (totalSQLExamples a1)
                  else a1
              | None => a1
              end in
            forExamples f ttl rest a2
        end
      else forExamples f ttl rest a
  end.

Definition processingError (f : jsstring) (e : JsError) : io unit :=
  console ErrorLevel [VStr (str "Error processing " ++ f ++ str ":"); VErr e].

Fixpoint forFiles (ruleFiles : list jsstring) (a : counters) : io counters :=
  match ruleFiles with
  | [] => Ret a
  | f :: rest =>
      let* parsed := ask (ParseRuleFile (join RULES_DIR f)) in
      match parsed with
      | Rejected e => processingError f e >> forFiles rest a
      | Resolved rule =>
          let* r := forExamples f (title rule) (examples rule) a in
          match snd r with
          | Some e => processingError f e >> forFiles rest (fst r)
          | None => forFiles rest (fst r)
          end
      end
  end.

Fixpoint reportErrors (errs : list SQLValidationError) : io unit :=
  match errs with
  | [] => Ret tt
  | e :: rest =>
      console ErrorLevel [VStr (str "  " ++ file e ++ str " (" ++ ruleTitle e ++ str ")")] >>
      console ErrorLevel [VStr (str "    Example: " ++ exampleLabel e)] >>
      console ErrorLevel [VStr (str "    SQL: " ++ sql e)] >>
      console ErrorLevel [VStr (str "    Error: " ++ error e)] >>
      console ErrorLevel [VStr []] >>
      reportErrors rest
  end.

Definition isRuleFile (f : jsstring) : bool :=
  endsWith f (str ".md") && negb (startsWith f (str "_"))
  && negb (list_eqb f (str "README.md")).

Definition skipWarning : jsstring :=
  warnMark ++ str " Skipping SQL validation (ClickHouse binary not available)".

Definition validateSQLInRulesWith : io unit :=
  tryCatch
    (console LogLevel [VStr (str "Validating SQL syntax in rule files...")] >>
     console LogLevel [VStr (str "Rules directory: " ++ RULES_DIR)] >>
     let* hasClickHouse := ensureClickHouse in
     (if negb hasClickHouse
      then console WarnLevel [VStr skipWarning] >> Exit 0
      else Ret tt) >>
     let* files := bind (ask (Readdir RULES_DIR)) settle in
     let ruleFiles := List.filter isRuleFile files in
     let* a := forFiles ruleFiles (MkCounters [] 0) in
     if (0 <? length (allErrors a))%nat
     then
       console ErrorLevel
         [VStr ([10%N] ++ crossMark ++ str " SQL validation failed:" ++ [10%N])] >>
       reportErrors (allErrors a) >>
       Exit 1
     else
       console LogLevel
         [VStr (checkMark ++ str " All " ++ ofZ (Z.of_nat (totalSQLExamples a))
                ++ str " SQL examples are valid")])
    (fun e => console ErrorLevel [VStr (str "SQL validation failed:"); VErr e] >> Exit 1).

End MainLoop.

Definition validateSQLInRules : io unit := validateSQLInRulesWith validateSQL.

End WithConfig.

End ValidateSql.

(* ===================================================================== *)
(** * packages/clickhouse-best-practices-build/src/validate-sql.ts

    The copy of the script kept under [packages/]: the same file without
    [containsDangerousPatterns] and with a different engine command. *)
(* ===================================================================== *)

Module ValidateSqlPackaged.

Section WithConfig.

Variables RULES_DIR BUILD_DIR : jsstring.

Definition CLICKHOUSE_BINARY : jsstring := ValidateSql.CLICKHOUSE_BINARY BUILD_DIR.

Definition engineCommand (tmpFile : jsstring) : jsstring :=
  dq ++ CLICKHOUSE_BINARY ++ dq ++ str " local --query " ++ dq ++
  str "$(cat " ++ dq ++ tmpFile ++ dq ++ str ")" ++ dq ++
  str " --output-format Null 2>&1 || true".

Definition validateSQL (sql : jsstring) : io (option jsstring) :=
  let* tmp := ask Tmpdir in
  let* now := ask DateNow in
  let tmpFile := ValidateSql.tmpFileName tmp now in
  let* _ := bind (ask (WriteFile tmpFile sql)) settle in
  finally
    (tryCatch
       (let* out := bind (ask (ExecAsync (engineCommand tmpFile))) settle in
        Ret (ValidateSql.readStderr out))
       (fun e => Ret (Some (ValidateSql.errorText e))))
    (ValidateSql.cleanup tmpFile).

Definition validateSQLInRules : io unit :=
  ValidateSql.validateSQLInRulesWith RULES_DIR BUILD_DIR validateSQL.

End WithConfig.

End ValidateSqlPackaged.

(* ===================================================================== *)
(** * check-links.ts: internal links                                      *)
(* ===================================================================== *)

Module CheckLinks.

Record LinkError : Type := MkLinkError {
  file : jsstring;
  link : jsstring;
  message : jsstring
}.

Definition notCloseBracket (c : N) : bool := negb (c =? chr "]")%N.
Definition notCloseParen (c : N) : bool := negb (c =? chr ")")%N.
Definition isDigit (c : N) : bool := between 48 57 c.

(** [/\[([^\]]+)\]\(([^)]+)\)/g] *)
Definition linkRegex : regex :=
  Seq (Chr (chr "["))
    (Seq (Grp (Plus true notCloseBracket))
      (Seq (Chr (chr "]"))
        (Seq (Chr (chr "("))
          (Seq (Grp (Plus true notCloseParen))
            (Chr (chr ")")))))).

(** [extractLinks]: [match[2]] of every match. *)
Definition extractLinks (content : jsstring) : list jsstring :=
  map (fun g => nth 1 g []) (execLoop false linkRegex 0 None content).

Definition isInternalLink (l : jsstring) : bool :=
  negb (startsWith l (str "http://")) && negb (startsWith l (str "https://")).

Definition isSlash (c : N) : bool := (c =? chr "/")%N.

Fixpoint dropSlashes (s : jsstring) : jsstring :=
  match s with
  | c :: t => if isSlash c then dropSlashes t else s
  | [] => []
  end.

Fixpoint untilSlash (s : jsstring) : jsstring :=
  match s with
  | c :: t => if isSlash c then [] else c :: untilSlash t
  | [] => []
  end.

(** [path.basename] (POSIX): the last component, trailing separators
    ignored. *)
Definition basename (path : jsstring) : jsstring :=
  rev (untilSlash (dropSlashes (rev path))).

(** [/^#(\w+)/] and [/^\d+-\d+/] *)
Definition anchorRegex : regex :=
  Seq (Chr (chr "#")) (Grp (Plus true isWordChar)).
Definition sectionRegex : regex :=
  Seq (Plus true isDigit) (Seq (Chr (chr "-")) (Plus true isDigit)).

Definition isMatch (r : regex) (s : jsstring) : bool :=
  match matchHere false r None s with Some _ => true | None => false end.

(** The body of the loop over the links of one file: the errors pushed
    for one link. *)
Definition checkLink (ruleFiles : list jsstring) (f l : jsstring) : list LinkError :=
  if isInternalLink l then
    if endsWith l (str ".md") then
      let referencedFile := basename l in
      if negb (arrayIncludes ruleFiles referencedFile)
      then [MkLinkError f l (str "Referenced file does not exist: " ++ referencedFile)]
      else []
    else if startsWith l (str "#") then
      match matchHere false anchorRegex None l with
      | Some m =>
          let prefix := nth 0 (groups m) [] in
          let hasMatchingFile := existsb (fun x => startsWith x prefix) ruleFiles in
          if negb hasMatchingFile && negb (isMatch sectionRegex l)
          then []   (* the check is skipped: too strict for section anchors *)
          else []
      | None => []
      end
    else []
  else [].

(** The errors pushed while one file is processed. *)
Definition scanFile (ruleFiles : list jsstring) (f content : jsstring) : list LinkError :=
  flat_map (checkLink ruleFiles f) (extractLinks content).

Section WithConfig.

Variable RULES_DIR : jsstring.

Fixpoint forFiles (ruleFiles todo : list jsstring) (allErrors : list LinkError)
    : io (list LinkError) :=
  match todo with
  | [] => Ret allErrors
  | f :: rest =>
      let* content := bind (ask (ReadFile (join RULES_DIR f))) settle in
      forFiles ruleFiles rest (allErrors ++ scanFile ruleFiles f content)
  end.

Fixpoint reportErrors (errs : list LinkError) : io unit :=
  match errs with
  | [] => Ret tt
  | e :: rest =>
      console ErrorLevel [VStr (str "  " ++ file e)] >>
      console ErrorLevel [VStr (str "    Link: " ++ link e)] >>
      console ErrorLevel [VStr (str "    " ++ message e)] >>
      console ErrorLevel [VStr []] >>
      reportErrors rest
  end.

Definition checkLinks : io unit :=
  tryCatch
    (console LogLevel [VStr (str "Checking internal links in rule files...")] >>
     console LogLevel [VStr (str "Rules directory: " ++ RULES_DIR)] >>
     let* files := bind (ask (Readdir RULES_DIR)) settle in
     let ruleFiles := List.filter (fun f => endsWith f (str ".md")) files in
     let* allErrors := forFiles ruleFiles ruleFiles [] in
     if (0 <? length allErrors)%nat
     then
       console ErrorLevel
         [VStr ([10%N] ++ ValidateSql.crossMark ++ str " Link checking failed:" ++ [10%N])] >>
       reportErrors allErrors >>
       Exit 1
     else
       console LogLevel [VStr (ValidateSql.checkMark ++ str " All internal links are valid")])
    (fun e => console ErrorLevel [VStr (str "Link checking failed:"); VErr e] >> Exit 1).

End WithConfig.

End CheckLinks.

(* ===================================================================== *)
(** * check-external-links.ts: probing one URL                            *)
(* ===================================================================== *)

Module CheckExternalLinks.

Record Source : Type := MkSource {
  skill : jsstring;
  file : jsstring
}.

Record LinkCheckResult : Type := MkResult {
  url : jsstring;
  success : bool;
  statusCode : option Z;
  error : option jsstring;
  source : Source;
  retriesUsed : Z
}.

Definition TIMEOUT_MS : Z := 10000.
Definition MAX_RETRIES : Z := 2.
Definition CONCURRENCY : Z := 5.
Definition RETRY_DELAYS : list Z := [100; 200; 400]%Z.

Definition sleep (ms : Z) : io unit := ask (Sleep ms).

(** The variables of [validateUrl] that outlive one loop iteration:
    [lastError], [lastStatusCode] and [retriesUsed] (here [used]). *)
Record locals : Type := MkLocals {
  lastError : jsstring;
  lastStatusCode : option Z;
  used : Z
}.

(** [RETRY_DELAYS[Math.min(attempt - 1, RETRY_DELAYS.length - 1)]] *)
Definition delayFor (attempt : Z) : Z :=
  nth (Z.to_nat (Z.min (attempt - 1) (Z.of_nat (length RETRY_DELAYS) - 1)))
      RETRY_DELAYS 0%Z.

(** The [catch] clause of one attempt. *)
Definition classify (e : JsError) : jsstring :=
  if list_eqb (err_name e) (str "AbortError") then str "Request timeout"
  else if list_eqb (err_code e) (str "ENOTFOUND") then str "DNS lookup failed"
  else if list_eqb (err_code e) (str "ECONNREFUSED") then str "Connection refused"
  else if truthy (err_message e) then err_message e
  else str "Unknown error".

Definition succeeded (u : jsstring) (src : Source) (r : Response) (st : locals)
    : LinkCheckResult :=
  MkResult u true (Some (status r)) None src (used st).

Definition fetchWith (u : jsstring) (m : method) (timeout : Z) : io Response :=
  bind (ask (Fetch u m timeout)) settle.

(** The [try] block of one attempt: either the function returns a result,
    or the loop goes on with the updated variables. *)
Definition tryProbe (u : jsstring) (src : Source) (timeout : Z) (st : locals)
    : io (LinkCheckResult + locals) :=
  let* response := fetchWith u HEAD timeout in
  let* r :=
    (if negb (ok response) then
       let* response2 := fetchWith u GET timeout in
       if ok response2
       then Ret (inl (succeeded u src response2 st))
       else Ret (inr (response2,
                      MkLocals (lastError st) (Some (status response2)) (used st)))
     else Ret (inl (succeeded u src response st))) in
  match r with
  | inl res => Ret (inl res)
  | inr (resp, st1) =>
      if ((200 <=? status resp) && (status resp <? 300))%Z
      then Ret (inl (succeeded u src resp st1))
      else Ret (inr (MkLocals (ofZ (status resp) ++ str " " ++ statusText resp)
                              (Some (status resp)) (used st1)))
  end.

(** One attempt, with its [catch]. *)
Definition probe (u : jsstring) (src : Source) (timeout : Z) (st : locals)
    : io (LinkCheckResult + locals) :=
  tryCatch (tryProbe u src timeout st)
    (fun e => Ret (inr (MkLocals (classify e) (lastStatusCode st) (used st)))).

(** The wait before a retry. *)
Definition backoff (attempt : Z) (st : locals) : io locals :=
  if (0 <? attempt)%Z
  then sleep (delayFor attempt) >>
       Ret (MkLocals (lastError st) (lastStatusCode st) (used st + 1))
  else Ret st.

Definition exhausted (u : jsstring) (src : Source) (st : locals) : LinkCheckResult :=
  MkResult u false (lastStatusCode st) (Some (lastError st)) src (used st).

(** The loop [for (attempt = 0; attempt <= maxRetries; attempt++)], with
    [n] the number of iterations still to run.  The retry count is taken to
    be an integer: the loop then runs [maxRetries + 1] times, and not at
    all when [maxRetries] is negative. *)
Fixpoint attempts (u : jsstring) (src : Source) (timeout : Z)
    (n : nat) (attempt : Z) (st : locals) : io LinkCheckResult :=
  match n with
  | O => Ret (exhausted u src st)
  | S n' =>
      let* st1 := backoff attempt st in
      let* r := probe u src timeout st1 in
      match r with
      | inl res => Ret res
      | inr st2 => attempts u src timeout n' (attempt + 1)%Z st2
      end
  end.

Definition validateUrl (u : jsstring) (src : Source) (timeout maxRetries : Z)
    : io LinkCheckResult :=
  attempts u src timeout (Z.to_nat (maxRetries + 1)) 0%Z (MkLocals [] None 0).

End CheckExternalLinks.

(* ===================================================================== *)
(** * check-external-links.ts: collecting the links                       *)
(* ===================================================================== *)

Module CollectLinks.

Record LinkInfo : Type := MkLinkInfo {
  url : jsstring;
  source : CheckExternalLinks.Source
}.

(** [extractMarkdownLinks]: the pattern and the loop of [extractLinks] in
    [check-links.ts], [match[2]] of every match. *)
Definition linkRegex : regex := CheckLinks.linkRegex.

Definition extractMarkdownLinks (content : jsstring) : list jsstring :=
  map (fun g => nth 1 g []) (execLoop false linkRegex 0 None content).

(** A value returned by [JSON.parse], as far as [extractJsonUrls] looks at
    it; the fields of an object come in the order [Object.values]
    enumerates them. *)
#[local] Unset Elimination Schemes.
Inductive json : Type :=
| JNull
| JBoolean (b : bool)
| JNumber
| JString (s : jsstring)
| JArray (items : list json)
| JObject (fields : list (jsstring * json)).
#[local] Set Elimination Schemes.

(** [extractJsonUrls(obj, urls)]: the array [urls] after the call.  The
    recursive calls push to the one array they are handed. *)
Fixpoint extractJsonUrls (obj : json) (urls : list jsstring) {struct obj}
    : list jsstring :=
  match obj with
  | JString s =>
      if startsWith s (str "http://") || startsWith s (str "https://")
      then urls ++ [s]
      else urls
  | JArray items =>
      (fix each (l : list json) (urls : list jsstring) {struct l} : list jsstring :=
         match l with
         | [] => urls
         | item :: rest => each rest (extractJsonUrls item urls)
         end) items urls
  | JObject fields =>
      (fix each (l : list (jsstring * json)) (urls : list jsstring) {struct l}
           : list jsstring :=
         match l with
         | [] => urls
         | (_, value) :: rest => each rest (extractJsonUrls value urls)
         end) fields urls
  | JNull | JBoolean _ | JNumber => urls
  end.

Definition isExternalUrl (u : jsstring) : bool :=
  startsWith u (str "http://") || startsWith u (str "https://").

(** An entry of [readdir(dir, { withFileTypes: true })]: a file, a
    directory with what listing it gives ([None] when the listing is
    refused), or something else (a link, a socket). *)
#[local] Unset Elimination Schemes.
Inductive dirent : Type :=
| FileEntry (name : jsstring)
| DirEntry (name : jsstring) (listing : option (list dirent))
| OtherEntry (name : jsstring).
#[local] Set Elimination Schemes.

Definition name (e : dirent) : jsstring :=
  match e with
  | FileEntry n | DirEntry n _ | OtherEntry n => n
  end.

(** The body of the loop of [walk] for one entry of [currentDir]: the
    array [files] afterwards, or [None] when a listing is refused and the
    walk ends with that rejection. *)
Fixpoint visit (extensions : list jsstring) (currentDir : jsstring) (entry : dirent)
    (files : list jsstring) {struct entry} : option (list jsstring) :=
  let fullPath := join currentDir (name entry) in
  match entry with
  | DirEntry _ None => None
  | DirEntry _ (Some entries) =>
      (fix each (l : list dirent) (files : list jsstring) {struct l}
           : option (list jsstring) :=
         match l with
         | [] => Some files
         | e :: rest =>
             match visit extensions fullPath e files with
             | Some files' => each rest files'
             | None => None
             end
         end) entries files
  | FileEntry n =>
      if startsWith n (str "_") then Some files
      else if existsb (endsWith n) extensions then Some (files ++ [fullPath])
      else Some files
  | OtherEntry _ => Some files
  end.

(** [walk(currentDir)], given the listing of [currentDir]. *)
Fixpoint walk (extensions : list jsstring) (currentDir : jsstring)
    (entries : list dirent) (files : list jsstring) : option (list jsstring) :=
  match entries with
  | [] => Some files
  | e :: rest =>
      match visit extensions currentDir e files with
      | Some files' => walk extensions currentDir rest files'
      | None => None
      end
  end.

(** [findFiles(dir, extensions)] on a directory whose listing is [root]. *)
Definition findFiles (dir : jsstring) (extensions : list jsstring)
    (root : option (list dirent)) : option (list jsstring) :=
  match root with
  | Some entries => walk extensions dir entries []
  | None => None
  end.

(** The [Map] of [checkExternalLinks], its entries in insertion order. *)
Definition linkMap : Type := list (jsstring * LinkInfo).

Definition has (m : linkMap) (k : jsstring) : bool :=
  existsb (fun e => list_eqb (fst e) k) m.

Fixpoint set (m : linkMap) (k : jsstring) (v : LinkInfo) : linkMap :=
  match m with
  | [] => [(k, v)]
  | (k', v') :: rest =>
      if list_eqb k' k then (k', v) :: rest else (k', v') :: set rest k v
  end.

Definition values (m : linkMap) : list LinkInfo := map snd m.

(** [for (const url of urls) if (!linkMap.has(url)) linkMap.set(url, ...)] *)
Fixpoint addUrls (relativePath : jsstring) (urls : list jsstring) (m : linkMap)
    : linkMap :=
  match urls with
  | [] => m
  | u :: rest =>
      addUrls relativePath rest
        (if negb (has m u)
         then set m u (MkLinkInfo u (CheckExternalLinks.MkSource
                                       (str "clickhouse-best-practices") relativePath))
         else m)
  end.

Section WithConfig.

(** [config.js], [path.relative] and [JSON.parse] ([None] when it
    throws). *)
Variable SKILL_DIR : jsstring.
Variable relative : jsstring -> jsstring -> jsstring.
Variable parseJson : jsstring -> option json.

(** The loop of [checkExternalLinks] over the files found. *)
Fixpoint collect (files : list jsstring) (m : linkMap) : io linkMap :=
  match files with
  | [] => Ret m
  | filePath :: rest =>
      let* content := bind (ask (ReadFile filePath)) settle in
      let relativePath := relative SKILL_DIR filePath in
      if endsWith filePath (str ".md") then
        collect rest
          (addUrls relativePath
             (List.filter isExternalUrl (extractMarkdownLinks content)) m)
      else if endsWith filePath (str ".json") then
        match parseJson content with
        | Some jsonData =>
            collect rest
              (addUrls relativePath
                 (List.filter isExternalUrl (extractJsonUrls jsonData [])) m)
        | None =>
            console WarnLevel
              [VStr (str "Warning: Could not parse JSON file " ++ relativePath)] >>
            collect rest m
        end
      else collect rest (addUrls relativePath [] m)
  end.

End WithConfig.

(** The cells of a row of [printSummaryTable]. *)
Definition padEnd (s : jsstring) (n : nat) : jsstring :=
  s ++ repeat 32%N (n - length s).

Definition truncatedUrl (r : CheckExternalLinks.LinkCheckResult) : jsstring :=
  let u := CheckExternalLinks.url r in
  if (56 <? length u)%nat then firstn 53 u ++ str "..." else u.

(** A status code in a template literal. *)
Definition showStatus (c : option Z) : jsstring :=
  match c with
  | Some z => ofZ z
  | None => str "undefined"
  end.

Definition statusText (r : CheckExternalLinks.LinkCheckResult) : jsstring :=
  let c := CheckExternalLinks.statusCode r in
  if CheckExternalLinks.success r
  then showStatus c ++ str " " ++ ValidateSql.checkMark
  else
    match c with
    | Some z =>
        if (z =? 0)%Z then str "ERR " ++ ValidateSql.crossMark
        else showStatus c ++ str " " ++ ValidateSql.crossMark
    | None => str "ERR " ++ ValidateSql.crossMark
    end.

Definition sourceFile (r : CheckExternalLinks.LinkCheckResult) : jsstring :=
  let f := CheckExternalLinks.file (CheckExternalLinks.source r) in
  if (12 <? length f)%nat then str "..." ++ skipn (length f - 9) f else f.

Definition bar : jsstring := [0x2502%N].

Definition row (r : CheckExternalLinks.LinkCheckResult) : jsstring :=
  bar ++ str " " ++ padEnd (truncatedUrl r) 56 ++ str " " ++ bar ++ str " "
  ++ padEnd (statusText r) 6 ++ str " " ++ bar ++ str " "
  ++ padEnd (sourceFile r) 7 ++ str " " ++ bar.

(** The header line of the table. *)
Definition headerRow : jsstring :=
  bar ++ str " URL                                                      " ++ bar
  ++ str " Status " ++ bar ++ str " Source  " ++ bar.

End CollectLinks.

(* ===================================================================== *)
(** * The compiler                                                        *)
(* ===================================================================== *)

Module Build.

(** Lexicographic order on code units, the order of the rule filenames. *)
Fixpoint str_leb (a b : jsstring) : bool :=
  match a, b with
  | [], _ => true
  | _ :: _, [] => false
  | x :: a', y :: b' =>
      if (x <? y)%N then true
      else if (x =? y)%N then str_leb a' b'
      else false
  end.

Record Rule : Type := MkRule {
  id : jsstring;                 (* derived from the filename, unique *)
  title : jsstring;
  impact : jsstring;
  explanation : jsstring;
  examples : list IO.Example;
  reference : option jsstring
}.

Record Section_ : Type := MkSection {
  name : jsstring;
  prefix : jsstring;
  sectionImpact : jsstring;
  description : jsstring;
  rank : Z
}.

Record Version : Type := MkVersion {
  major : N;
  minor : N;
  patch : N
}.

Record Metadata : Type := MkMetadata {
  version : Version;
  organization : jsstring;
  abstract : jsstring
}.

(** What a build reads: the rule files and the section definitions in the
    order the directory and the metadata file list them, and the metadata
    that holds the version. *)
Record Store : Type := MkStore {
  rules : list Rule;
  sections : list Section_;
  metadata : Metadata
}.

Definition rule_le (a b : Rule) : Prop := str_leb (id a) (id b) = true.
Definition section_le (a b : Section_) : Prop := (rank a <= rank b)%Z.

#[export] Instance rule_le_dec (a b : Rule) : Decision (rule_le a b).
Proof. unfold rule_le. apply _. Defined.

#[export] Instance section_le_dec (a b : Section_) : Decision (section_le a b).
Proof. unfold section_le. apply _. Defined.

(** The compiler ([build.ts]) is not among the sources; it is modelled on
    its contract.  The text produced for each element of the document is
    left to four rendering functions. *)
Section Compiler.

Variable renderHeader : Metadata -> jsstring.
Variable renderSection : Section_ -> jsstring.
Variable renderTocEntry : jsstring -> Rule -> jsstring.
Variable renderRule : jsstring -> Rule -> jsstring.

Definition belongsTo (s : Section_) (r : Rule) : bool := startsWith (id r) (prefix s).

Definition isOrphan (ss : list Section_) (r : Rule) : bool :=
  negb (existsb (fun s => belongsTo s r) ss).

(** [sectionRank.ruleIndex] *)
Definition number (s : Section_) (index : nat) : jsstring :=
  ofZ (rank s) ++ str "." ++ ofZ (Z.of_nat index).

Fixpoint numbered (render : jsstring -> Rule -> jsstring)
    (s : Section_) (index : nat) (rs : list Rule) : jsstring :=
  match rs with
  | [] => []
  | r :: rest => render (number s index) r ++ numbered render s (S index) rest
  end.

Definition sectionRules (sorted : list Rule) (s : Section_) : list Rule :=
  List.filter (belongsTo s) sorted.

(** Modelled from the spec: the compiler of [build.ts], which is not among
    the sources.  Rules are grouped into sections by filename prefix, a
    rule matching no declared prefix being an error; sections are ordered
    by rank and rules by filename within a section; every rule is numbered
    [sectionRank.ruleIndex]; the document is the title block, the table of
    contents and the numbered sections with their rules. *)
Definition compile (ss : list Section_) (rs : list Rule) (m : Metadata)
    : option jsstring :=
  if existsb (isOrphan ss) rs then None
  else
    let orderedSections := merge_sort section_le ss in
    let orderedRules := merge_sort rule_le rs in
    Some (renderHeader m
          ++ flat_map (fun s => numbered renderTocEntry s 1 (sectionRules orderedRules s))
               orderedSections
          ++ flat_map (fun s => renderSection s
                                ++ numbered renderRule s 1 (sectionRules orderedRules s))
               orderedSections).

(** Modelled from the spec: the patch-level bump of the upgrade mode. *)
Definition bump (v : Version) : Version :=
  MkVersion (major v) (minor v) (patch v + 1).

(** Modelled from the spec: one build invocation of [build.ts], which is
    not among the sources.  It yields the document (or the orphan-rule
    error) and the store it leaves behind; the version is read from the
    metadata, and only the upgrade mode increments it and writes it
    back. *)
Definition build (upgrade : bool) (st : Store) : option jsstring * Store :=
  let m := metadata st in
  let m' := if upgrade then MkMetadata (bump (version m)) (organization m) (abstract m)
            else m in
  (compile (sections st) (rules st) m', MkStore (rules st) (sections st) m').

End Compiler.

End Build.

(* ===================================================================== *)
(** * Reading traces                                                      *)
(* ===================================================================== *)

Module Trace.

Definition requests (tr : list event) : list request := map requestOf tr.

(** The network exchanges of a trace: method and answer. *)
Definition fetchView (e : event) : option (method * settled Response) :=
  match e with
  | existT r a =>
      match r as r0 return answer r0 -> option (method * settled Response) with
      | Fetch _ m _ => fun x => Some (m, x)
      | _ => fun _ => None
      end a
  end.

Definition fetches (tr : list event) : list (method * settled Response) :=
  omap fetchView tr.

(** The waits of a trace, in milliseconds. *)
Definition sleepView (e : event) : option Z :=
  match requestOf e with
  | Sleep ms => Some ms
  | _ => None
  end.

Definition sleeps (tr : list event) : list Z := omap sleepView tr.

Definition total (l : list Z) : Z := fold_right Z.add 0%Z l.


(** ** Sample environments *)

Definition timeoutError : JsError :=
  MkError true (str "AbortError") [] (str "This operation was aborted") (str "AbortError").

Definition missingError : JsError :=
  MkError true (str "Error") (str "ENOENT") (str "no such file or directory")
    (str "Error: ENOENT").

(** An environment that answers every request with success and gives
    [fetch] the successive answers of a script (a timeout once the script
    is over). *)
Definition scripted : handler (list (settled Response)) :=
  fun r =>
    match r as r0 return list (settled Response) -> answer r0 * list (settled Response) with
    | Stat _ | Mkdir _ | Chmod _ _ | WriteFile _ _ => fun w => (Resolved tt, w)
    | ExecAsync _ => fun w => (Resolved ([], []), w)
    | Readdir _ => fun w => (Resolved [], w)
    | ReadFile _ => fun w => (Resolved [], w)
    | ParseRuleFile _ => fun w => (Resolved (IO.MkRule [] []), w)
    | DateNow => fun w => (0%Z, w)
    | Platform => fun w => (str "linux", w)
    | Tmpdir => fun w => (str "/tmp", w)
    | Console _ _ => fun w => (tt, w)
    | Fetch _ _ _ => fun w =>
        match w with
        | a :: rest => (a, rest)
        | [] => (Rejected timeoutError, [])
        end
    | Sleep _ => fun w => (tt, w)
    end.

(** An environment without the engine binary, on a platform [p], where
    subprocesses (the download) succeed or not. *)
Definition bare (p : jsstring) (download : bool) : handler unit :=
  fun r =>
    match r as r0 return unit -> answer r0 * unit with
    | Stat _ => fun w => (Rejected missingError, w)
    | Mkdir _ | Chmod _ _ | WriteFile _ _ => fun w => (Resolved tt, w)
    | ExecAsync _ => fun w =>
        (if download then Resolved ([], []) else Rejected missingError, w)
    | Readdir _ => fun w => (Resolved [], w)
    | ReadFile _ => fun w => (Resolved [], w)
    | ParseRuleFile _ => fun w => (Resolved (IO.MkRule [] []), w)
    | DateNow => fun w => (0%Z, w)
    | Platform => fun w => (p, w)
    | Tmpdir => fun w => (str "/tmp", w)
    | Console _ _ => fun w => (tt, w)
    | Fetch _ _ _ => fun w => (Rejected timeoutError, w)
    | Sleep _ => fun w => (tt, w)
    end.

(** A rules directory holding the given files (name and content). *)
Definition contentOf (files : list (jsstring * jsstring)) (path : jsstring)
    : settled jsstring :=
  match List.find (fun f => list_eqb (fst f) (CheckLinks.basename path)) files with
  | Some f => Resolved (snd f)
  | None => Rejected missingError
  end.

Definition disk (files : list (jsstring * jsstring)) : handler unit :=
  fun r =>
    match r as r0 return unit -> answer r0 * unit with
    | Stat _ | Mkdir _ | Chmod _ _ | WriteFile _ _ => fun w => (Resolved tt, w)
    | ExecAsync _ => fun w => (Resolved ([], []), w)
    | Readdir _ => fun w => (Resolved (map fst files), w)
    | ReadFile p => fun w => (contentOf files p, w)
    | ParseRuleFile _ => fun w => (Resolved (IO.MkRule [] []), w)
    | DateNow => fun w => (0%Z, w)
    | Platform => fun w => (str "linux", w)
    | Tmpdir => fun w => (str "/tmp", w)
    | Console _ _ => fun w => (tt, w)
    | Fetch _ _ _ => fun w => (Rejected timeoutError, w)
    | Sleep _ => fun w => (tt, w)
    end.

(** ** Composition of runs *)

Section Composition.

Context {W : Type} (h : handler W).

Definition andThen {A B : Type} (f : A -> io B) (r : outcome A * list event * W)
    : outcome B * list event * W :=
  match fst (fst r) with
  | Returned a =>
      let r2 := run h (f a) (snd r) in
      (fst (fst r2), snd (fst r) ++ snd (fst r2), snd r2)
  | Thrown e => (Thrown e, snd (fst r), snd r)
  | Exited c => (Exited c, snd (fst r), snd r)
  end.

Definition orElse {A : Type} (f : JsError -> io A) (r : outcome A * list event * W)
    : outcome A * list event * W :=
  match fst (fst r) with
  | Thrown e =>
      let r2 := run h (f e) (snd r) in
      (fst (fst r2), snd (fst r) ++ snd (fst r2), snd r2)
  | _ => r
  end.

End Composition.

End Trace.

Import Trace.

(* ===================================================================== *)
(** * The vocabulary of the properties                                    *)
(* ===================================================================== *)

(** ** Dangerous calls in a snippet *)

Definition denyListed : list string :=
  [ "file"; "url"; "s3"; "mysql"; "postgresql"; "mongodb"; "hdfs"; "odbc";
    "jdbc"; "executable"; "remote"; "cluster"; "input"; "sleep"; "throwIf" ]%string.

(** [c], followed by [nxt], opens a comment. *)
Definition opens (c : N) (nxt : option N) : bool :=
  match nxt with
  | Some d => ((c =? chr "/") && (d =? chr "*"))%N || ((c =? chr "-") && (d =? chr "-"))%N
  | None => false
  end.

(** Text made of characters satisfying [plain] that open no comment, of
    block comments, and of line comments ended by a newline whose text
    satisfies [lineOk]. *)
Inductive Commented (plain : N -> bool) (lineOk : jsstring -> bool) : jsstring -> Prop :=
| Commented_nil : Commented plain lineOk []
| Commented_char c t :
    plain c = true -> opens c (head t) = false ->
    Commented plain lineOk t -> Commented plain lineOk (c :: t)
| Commented_block body t :
    includes body (str "*/") = false ->
    Commented plain lineOk t ->
    Commented plain lineOk (str "/*" ++ body ++ str "*/" ++ t)
| Commented_line body t :
    forallb ValidateSql.notNewline body = true -> lineOk body = true ->
    Commented plain lineOk t ->
    Commented plain lineOk (str "--" ++ body ++ 10%N :: t).

(** What may stand between the name of a function and its parenthesis:
    whitespace, block comments, line comments. *)
Definition Gap : jsstring -> Prop := Commented isSpace (fun _ => true).

Definition noBlockOpening (body : jsstring) : bool := negb (includes body (str "/*")).

(** The same, when no line comment holds the opening of a block comment. *)
Definition CleanGap : jsstring -> Prop := Commented isSpace noBlockOpening.

(** Any text whose comments are complete and whose line comments hold no
    opening of a block comment. *)
Definition CleanText : jsstring -> Prop := Commented (fun _ => true) noBlockOpening.

(** [w] is [name] in some mix of upper and lower case. *)
Definition sameWord (name w : jsstring) : Prop :=
  map canonicalize w = map canonicalize name.

(** The text [before] does not end in a word character. *)
Definition atWordStart (before : jsstring) : Prop :=
  isWordOpt (last before) = false.

(** The snippet calls a deny-listed function: its name, in any mix of
    cases and starting at a word boundary, then a gap, then the
    parenthesis. *)
Definition containsDangerousCall (sql : jsstring) : Prop :=
  exists name before w g after,
    In name denyListed /\ sameWord (str name) w /\ atWordStart before /\ Gap g /\
    sql = before ++ w ++ g ++ str "(" ++ after.

(** A [file] call with a line comment between the name and the
    parenthesis, the comment holding the opening of a block comment that a
    second line comment closes. *)
Definition bypass : jsstring :=
  str "SELECT * FROM file--/*" ++ [10%N] ++ str "('/etc/passwd')--*/".

(** A [file] call after a string literal that holds the opening of a block
    comment. *)
Definition bypassLiteral : jsstring :=
  str "SELECT '/*' FROM file('/etc/passwd') WHERE x = '*/'".

Definition scenarioB : jsstring := str "SELECT * FROM file('/etc/passwd', 'CSV')".

(** The next character of [t], or [nxt] at its end. *)
Definition nextOf (t : jsstring) (nxt : option N) : option N :=
  match t with
  | c :: _ => Some c
  | [] => nxt
  end.

(** [Clean plain nxt t t1 t2]: [t], followed by [nxt], is commented text
    without a block opening in its line comments; [t1] is [t] with every
    block comment turned into one space, and [t2] is [t1] with every line
    comment turned into one space. *)
Inductive Clean (plain : N -> bool) (nxt : option N)
    : jsstring -> jsstring -> jsstring -> Prop :=
| Clean_nil : Clean plain nxt [] [] []
| Clean_char c t t1 t2 :
    plain c = true -> opens c (nextOf t nxt) = false ->
    Clean plain nxt t t1 t2 ->
    Clean plain nxt (c :: t) (c :: t1) (c :: t2)
| Clean_block body t t1 t2 :
    includes body (str "*/") = false ->
    Clean plain nxt t t1 t2 ->
    Clean plain nxt (str "/*" ++ body ++ str "*/" ++ t) (32%N :: t1) (32%N :: t2)
| Clean_line body t t1 t2 :
    forallb ValidateSql.notNewline body = true ->
    includes body (str "/*") = false ->
    Clean plain nxt t t1 t2 ->
    Clean plain nxt (str "--" ++ body ++ 10%N :: t)
                    (str "--" ++ body ++ 10%N :: t1) (32%N :: 10%N :: t2).

(** The end of a block comment, [\*\/], as a continuation. *)
Definition closeBlock : cont :=
  matcher false (Seq (Chr (chr "*")) (Chr (chr "/"))) Some.

(** Whitespace normalization as a scan: a run of whitespace becomes one
    space. *)
Fixpoint collapse (inRun : bool) (s : jsstring) : jsstring :=
  match s with
  | [] => []
  | c :: t =>
      if isSpace c
      then (if inRun then collapse true t else 32%N :: collapse true t)
      else c :: collapse false t
  end.

(** The length of the whitespace a string starts with. *)
Fixpoint spanLen (s : jsstring) : nat :=
  match s with
  | c :: t => if isSpace c then S (spanLen t) else 0
  | [] => 0
  end.

(** The character before the position reached after reading [s] from a
    position preceded by [pv]. *)
Definition lastOr (pv : option N) (s : jsstring) : option N :=
  fold_left (fun _ c => Some c) s pv.

(** ** The engine command *)

(** The flags the engine must always be started with. *)
Definition requiredFlags : list jsstring :=
  [ str "--readonly=2";
    str "--allow_ddl=0";
    str "--allow_introspection_functions=0";
    str "--max_execution_time=10";
    str "--max_memory_usage=100000000";
    str "--max_rows_to_read=1000000";
    str "--user_files_path=" ++ dq ++ str "/dev/null" ++ dq;
    str "--format_schema_path=" ++ dq ++ str "/dev/null" ++ dq ].

Definition fullyRestricted (cmd : jsstring) : bool :=
  forallb (includes cmd) requiredFlags.

(** ** Environments without an engine binary *)





(** ** Attempts on a URL *)

(** The possible courses of one attempt: the exchanges with the server and
    what the attempt yields, a result or the variables the loop goes on
    with. *)
Inductive probeShape (u : jsstring) (src : CheckExternalLinks.Source)
    (st : CheckExternalLinks.locals)
    : list (method * settled Response)
      -> CheckExternalLinks.LinkCheckResult + CheckExternalLinks.locals -> Prop :=
| Shape_head_ok r :
    ok r = true ->
    probeShape u src st [(HEAD, Resolved r)]
      (inl (CheckExternalLinks.succeeded u src r st))
| Shape_head_thrown e :
    probeShape u src st [(HEAD, Rejected e)]
      (inr (CheckExternalLinks.MkLocals (CheckExternalLinks.classify e)
              (CheckExternalLinks.lastStatusCode st) (CheckExternalLinks.used st)))
| Shape_get_ok r0 r :
    ok r0 = false -> ok r = true ->
    probeShape u src st [(HEAD, Resolved r0); (GET, Resolved r)]
      (inl (CheckExternalLinks.succeeded u src r st))
| Shape_get_thrown r0 e :
    ok r0 = false ->
    probeShape u src st [(HEAD, Resolved r0); (GET, Rejected e)]
      (inr (CheckExternalLinks.MkLocals (CheckExternalLinks.classify e)
              (CheckExternalLinks.lastStatusCode st) (CheckExternalLinks.used st)))
| Shape_get_failed r0 r :
    ok r0 = false -> ok r = false ->
    probeShape u src st [(HEAD, Resolved r0); (GET, Resolved r)]
      (inr (CheckExternalLinks.MkLocals (ofZ (status r) ++ str " " ++ statusText r)
              (Some (status r)) (CheckExternalLinks.used st))).

(** What every returned result satisfies. *)
Definition wellFormed (maxRetries : Z) (res : CheckExternalLinks.LinkCheckResult) : Prop :=
  (CheckExternalLinks.retriesUsed res <= maxRetries)%Z /\
  (CheckExternalLinks.success res = true ->
   exists c, CheckExternalLinks.statusCode res = Some c /\ (200 <= c <= 299)%Z /\
             CheckExternalLinks.error res = None).

(** The attempt numbers [a], [a+1], ..., [a+n-1]. *)
Fixpoint attemptsFrom (a : Z) (n : nat) : list Z :=
  match n with
  | O => []
  | S n' => a :: attemptsFrom (a + 1) n'
  end.

(** The waits of a run in which every attempt is made: one before each
    attempt but the first. *)
Definition waits (a : Z) (n : nat) : list Z :=
  map CheckExternalLinks.delayFor (List.filter (fun i => (0 <? i)%Z) (attemptsFrom a n)).

(** No exchange of the trace got a successful response: every attempt
    failed. *)
Definition noSuccess (tr : list event) : Prop :=
  forall m r, In (m, Resolved r) (fetches tr) -> ok r = false.



Definition docsUrl : jsstring := str "https://clickhouse.com/docs".

Definition skillSource : CheckExternalLinks.Source :=
  CheckExternalLinks.MkSource (str "clickhouse-best-practices") (str "SKILL.md").

(** ** Links *)

(** "Ends in a file extension": a dot followed by letters or digits up to
    the end of the link. *)
Definition isAlnum (c : N) : bool :=
  between 97 122 c || between 65 90 c || between 48 57 c.

Fixpoint afterAlnum (s : jsstring) : jsstring :=
  match s with
  | c :: t => if isAlnum c then afterAlnum t else s
  | [] => []
  end.

Definition endsInExtension (l : jsstring) : bool :=
  match rev l with
  | c :: t => isAlnum c &&
              match afterAlnum t with
              | d :: _ => (d =? chr ".")%N
              | [] => false
              end
  | [] => false
  end.

(** ** A small rule set, listed in two different orders *)

Module Sample.

Import Build.

Definition header (m : Metadata) : jsstring :=
  str "v" ++ ofZ (Z.of_N (major (version m))) ++ str "."
  ++ ofZ (Z.of_N (minor (version m))) ++ str "."
  ++ ofZ (Z.of_N (patch (version m))) ++ str ";".

Definition sectionHeading (s : Section_) : jsstring :=
  str "[" ++ ofZ (rank s) ++ str " " ++ name s ++ str "]".

Definition tocEntry (num : jsstring) (r : Rule) : jsstring :=
  str "(" ++ num ++ str " " ++ id r ++ str ")".

Definition ruleBody (num : jsstring) (r : Rule) : jsstring :=
  str "<" ++ num ++ str " " ++ title r ++ str ">".

Definition rule (i t : string) : Rule :=
  MkRule (str i) (str t) (str "HIGH") (str "why") [] None.

Definition store : Store :=
  MkStore
    [ rule "schema-pk-plan" "Plan"; rule "query-join-filter" "Filter";
      rule "schema-json-when" "JSON" ]
    [ MkSection (str "Query") (str "query") (str "HIGH") [] 2;
      MkSection (str "Schema") (str "schema") (str "CRITICAL") [] 1 ]
    (MkMetadata (MkVersion 0 2 0) (str "ClickHouse Inc") (str "abstract")).

Definition relisted : Store :=
  MkStore (rev (rules store)) (rev (sections store)) (metadata store).

Definition build (upgrade : bool) (st : Store) : option jsstring * Store :=
  Build.build header sectionHeading tocEntry ruleBody upgrade st.

End Sample.

(** ** More views of a trace *)

(** The rule files handed to the parser. *)
Definition parseView (e : event) : option jsstring :=
  match requestOf e with
  | ParseRuleFile p => Some p
  | _ => None
  end.

Definition parses (tr : list event) : list jsstring := omap parseView tr.

(** The files read, with what the reading gave. *)
Definition readView (e : event) : option (jsstring * settled jsstring) :=
  match e with
  | existT r a =>
      match r as r0 return answer r0 -> option (jsstring * settled jsstring) with
      | ReadFile p => fun x => Some (p, x)
      | _ => fun _ => None
      end a
  end.

Definition reads (tr : list event) : list (jsstring * settled jsstring) :=
  omap readView tr.

Definition isHead (x : method * settled Response) : bool :=
  match fst x with HEAD => true | GET => false end.

(** The number of HEAD requests among the exchanges. *)
Definition heads (fs : list (method * settled Response)) : nat :=
  length (List.filter isHead fs).

(** The status of the last GET response among the exchanges, [init] when
    there is none. *)
Definition lastGetStatus (init : option Z) (fs : list (method * settled Response))
    : option Z :=
  fold_left (fun acc x =>
               match x with
               | (GET, Resolved r) => Some (status r)
               | _ => acc
               end) fs init.

(** What an attempt that ends with the exchange [x] leaves in
    [lastError]. *)
Definition failureText (x : method * settled Response) : jsstring :=
  match snd x with
  | Rejected e => CheckExternalLinks.classify e
  | Resolved r => ofZ (status r) ++ str " " ++ statusText r
  end.

(** ** The subprocesses of the SQL validator *)

(** The two release files the engine is downloaded from. *)
Definition pinnedUrls : list jsstring :=
  [ str "https://github.com/ClickHouse/ClickHouse/releases/download/v24.1.8.22/clickhouse-macos";
    str "https://github.com/ClickHouse/ClickHouse/releases/download/v24.1.8.22/clickhouse" ].

(** The subprocesses of the SQL validator: the download of the engine from
    a pinned release, the engine on a temporary file with every required
    flag, the removal of a temporary file. *)
Definition allowedCommand (BUILD_DIR cmd : jsstring) : Prop :=
  (exists u, In u pinnedUrls /\ cmd = ValidateSql.curlCommand BUILD_DIR u) \/
  (exists f, cmd = ValidateSql.engineCommand BUILD_DIR f /\ fullyRestricted cmd = true) \/
  (exists f, cmd = ValidateSql.rmCommand f).

(** ** What a script may do *)

(** Every request the script can make satisfies [P], every status it can
    end the process with satisfies [Q], every exception it can let through
    satisfies [T], and every value it can return satisfies [R]. *)
Inductive Confined {A : Type} (P : request -> Prop) (Q : Z -> Prop)
    (T : JsError -> Prop) (R : A -> Prop) : io A -> Prop :=
| Confined_Ret a : R a -> Confined P Q T R (Ret a)
| Confined_Throw e : T e -> Confined P Q T R (Throw e)
| Confined_Exit c : Q c -> Confined P Q T R (Exit c)
| Confined_Vis r k :
    P r -> (forall x, Confined P Q T R (k x)) -> Confined P Q T R (Vis r k).

Definition anyError (e : JsError) : Prop := True.
Definition noError (e : JsError) : Prop := False.
Definition noExit (c : Z) : Prop := False.
Definition zeroOrOne (c : Z) : Prop := c = 0%Z \/ c = 1%Z.
Definition isOne (c : Z) : Prop := c = 1%Z.
Definition anyValue {A : Type} (a : A) : Prop := True.

(** What the SQL validator may ask of its environment: the engine binary
    and its directory, the rules directory and its rule files, a temporary
    file to write, the allowed subprocesses; no reading of other files and
    no network. *)
Definition validatorRequest (RULES_DIR BUILD_DIR : jsstring) (r : request) : Prop :=
  match r with
  | Stat p | Chmod p _ => p = ValidateSql.CLICKHOUSE_BINARY BUILD_DIR
  | Mkdir p => p = ValidateSql.CLICKHOUSE_DIR BUILD_DIR
  | ExecAsync c => allowedCommand BUILD_DIR c
  | WriteFile p _ => exists tmp now, p = ValidateSql.tmpFileName tmp now
  | Readdir p => p = RULES_DIR
  | ParseRuleFile p => exists f, ValidateSql.isRuleFile f = true /\ p = join RULES_DIR f
  | ReadFile _ | Fetch _ _ _ | Sleep _ => False
  | DateNow | Platform | Tmpdir | Console _ _ => True
  end.

(** What the SQL validator asks apart from the validation of the snippets:
    the acquisition of the engine, the listing of the rules directory, the
    parsing of its rule files, the console. *)
Definition skeletonRequest (RULES_DIR BUILD_DIR : jsstring) (r : request) : Prop :=
  match r with
  | Stat p | Chmod p _ => p = ValidateSql.CLICKHOUSE_BINARY BUILD_DIR
  | Mkdir p => p = ValidateSql.CLICKHOUSE_DIR BUILD_DIR
  | ExecAsync c => exists u, In u pinnedUrls /\ c = ValidateSql.curlCommand BUILD_DIR u
  | Readdir p => p = RULES_DIR
  | ParseRuleFile p => exists f, ValidateSql.isRuleFile f = true /\ p = join RULES_DIR f
  | Platform | Console _ _ => True
  | _ => False
  end.

(** What the internal link checker may ask: the listing of the rules
    directory, the content of its [.md] files, the console. *)
Definition linkCheckerRequest (RULES_DIR : jsstring) (r : request) : Prop :=
  match r with
  | Readdir p => p = RULES_DIR
  | ReadFile p => exists f, endsWith f (str ".md") = true /\ p = join RULES_DIR f
  | Console _ _ => True
  | _ => False
  end.

(** What the check of one URL may ask: a HEAD or GET request to that URL
    with the given timeout, a wait of one of the configured delays. *)
Definition probeRequest (u : jsstring) (timeout : Z) (r : request) : Prop :=
  match r with
  | Fetch u' _ t => u' = u /\ t = timeout
  | Sleep d => In d CheckExternalLinks.RETRY_DELAYS
  | _ => False
  end.

(** ** Files, links and JSON values *)

(** The strings of a JSON value, in document order; the keys of an object
    are not among them. *)
Fixpoint strings (obj : CollectLinks.json) : list jsstring :=
  match obj with
  | CollectLinks.JString s => [s]
  | CollectLinks.JArray items => flat_map strings items
  | CollectLinks.JObject fields => flat_map (fun f => strings (snd f)) fields
  | _ => []
  end.

(** [p] is the path of a file found under the directory [dir] listed as
    [entries]: a file whose name does not start with an underscore and ends
    in one of the extensions, in [dir] or in a directory below it. *)
Inductive Found (extensions : list jsstring)
    : jsstring -> list CollectLinks.dirent -> jsstring -> Prop :=
| Found_here dir entries n :
    In (CollectLinks.FileEntry n) entries ->
    startsWith n (str "_") = false ->
    existsb (endsWith n) extensions = true ->
    Found extensions dir entries (join dir n)
| Found_below dir entries n sub p :
    In (CollectLinks.DirEntry n (Some sub)) entries ->
    Found extensions (join dir n) sub p ->
    Found extensions dir entries p.

(** A directory whose every listing is granted. *)
Fixpoint readable (e : CollectLinks.dirent) : bool :=
  match e with
  | CollectLinks.DirEntry _ None => false
  | CollectLinks.DirEntry _ (Some sub) => forallb readable sub
  | _ => true
  end.

(** A markdown link: [[text](target)]. *)
Definition mdLink (text target : jsstring) : jsstring :=
  str "[" ++ text ++ str "](" ++ target ++ str ")".

Definition notOpenBracket (c : N) : bool := negb (c =? chr "[")%N.

(** A file name: not empty, no separator. *)
Definition isFileName (n : jsstring) : bool :=
  truthy n && forallb (fun c => negb (CheckLinks.isSlash c)) n.

Definition isMd (f : jsstring) : bool := endsWith f (str ".md").

(** The errors of the rule files of a directory, file after file. *)
Definition violationsOf (files : list (jsstring * jsstring)) : list CheckLinks.LinkError :=
  flat_map (fun p => CheckLinks.scanFile (List.filter isMd (map fst files)) (fst p) (snd p))
    (List.filter (fun e => isMd (fst e)) files).

(** The violation the internal link checker looks for: a rule file holding
    an internal link that ends in [.md] and whose last component is not a
    rule file. *)
Definition brokenLink (files : list (jsstring * jsstring)) : Prop :=
  let ruleFiles := List.filter (fun f => endsWith f (str ".md")) (map fst files) in
  exists f content l,
    In (f, content) files /\ endsWith f (str ".md") = true /\
    In l (CheckLinks.extractLinks content) /\
    CheckLinks.isInternalLink l = true /\ endsWith l (str ".md") = true /\
    ~ In (CheckLinks.basename l) ruleFiles.

(** ** What the loops record *)

(** The requests of one snippet validation never involve the parser. *)
Definition notParse (r : request) : Prop := forall p, r <> ParseRuleFile p.

(** What the loops over the rule files add to the report: errors of the
    files at hand, each with a message and a snippet of at most 103 code
    units, and no more of them than examples counted. *)
Definition added (files : list jsstring) (a a' : ValidateSql.counters) : Prop :=
  exists new,
    ValidateSql.allErrors a' = ValidateSql.allErrors a ++ new /\
    (ValidateSql.totalSQLExamples a + length new <= ValidateSql.totalSQLExamples a')%nat /\
    Forall (fun e => In (ValidateSql.file e) files /\
                     (length (ValidateSql.sql e) <= 103)%nat /\
                     ValidateSql.error e <> [])
           new.

(** The result is about the URL and the source that were given. *)
Definition resultFor (u : jsstring) (src : CheckExternalLinks.Source)
    (res : CheckExternalLinks.LinkCheckResult) : Prop :=
  CheckExternalLinks.url res = u /\ CheckExternalLinks.source res = src.

(** An entry of the link map made for one of the files scanned: keyed by
    its URL, which is external, and attributed to the skill and to the
    path of that file relative to the skill directory. *)
Definition recordedFrom (SKILL_DIR : jsstring) (relative : jsstring -> jsstring -> jsstring)
    (files : list jsstring) (e : jsstring * CollectLinks.LinkInfo) : Prop :=
  CollectLinks.url (snd e) = fst e /\
  CollectLinks.isExternalUrl (fst e) = true /\
  exists f, In f files /\
    CollectLinks.source (snd e)
    = CheckExternalLinks.MkSource (str "clickhouse-best-practices") (relative SKILL_DIR f).

(** ** More sample environments *)

(** An environment with the engine binary and a rules directory listing
    [files], none of which can be parsed. *)
Definition unparsable (files : list jsstring) : handler unit :=
  fun r =>
    match r as r0 return unit -> answer r0 * unit with
    | Stat _ | Mkdir _ | Chmod _ _ | WriteFile _ _ => fun w => (Resolved tt, w)
    | ExecAsync _ => fun w => (Resolved ([], []), w)
    | Readdir _ => fun w => (Resolved files, w)
    | ReadFile _ => fun w => (Rejected missingError, w)
    | ParseRuleFile _ => fun w => (Rejected missingError, w)
    | DateNow => fun w => (0%Z, w)
    | Platform => fun w => (str "linux", w)
    | Tmpdir => fun w => (str "/tmp", w)
    | Console _ _ => fun w => (tt, w)
    | Fetch _ _ _ => fun w => (Rejected timeoutError, w)
    | Sleep _ => fun w => (tt, w)
    end.

(** An environment with the engine binary and a rules directory listing
    [files], each of which is parsed to [rule]. *)
Definition parsed (files : list jsstring) (rule : IO.Rule) : handler unit :=
  fun r =>
    match r as r0 return unit -> answer r0 * unit with
    | Stat _ | Mkdir _ | Chmod _ _ | WriteFile _ _ => fun w => (Resolved tt, w)
    | ExecAsync _ => fun w => (Resolved ([], []), w)
    | Readdir _ => fun w => (Resolved files, w)
    | ReadFile _ => fun w => (Rejected missingError, w)
    | ParseRuleFile _ => fun w => (Resolved rule, w)
    | DateNow => fun w => (0%Z, w)
    | Platform => fun w => (str "linux", w)
    | Tmpdir => fun w => (str "/tmp", w)
    | Console _ _ => fun w => (tt, w)
    | Fetch _ _ _ => fun w => (Rejected timeoutError, w)
    | Sleep _ => fun w => (tt, w)
    end.

(** A rule with one SQL example, the [file] call of [scenarioB]. *)
Definition fileRule : IO.Rule :=
  IO.MkRule (str "Reading files")
    [IO.MkExample (str "Incorrect") (Some (str "sql")) scenarioB].

(** ** Induction on nested values *)

Section JsonInduction.

Variable P : CollectLinks.json -> Prop.
Hypothesis Hnull : P CollectLinks.JNull.
Hypothesis Hbool : forall b, P (CollectLinks.JBoolean b).
Hypothesis Hnum : P CollectLinks.JNumber.
Hypothesis Hstr : forall s, P (CollectLinks.JString s).
Hypothesis Harr : forall items, Forall P items -> P (CollectLinks.JArray items).
Hypothesis Hobj : forall fields, Forall (fun f => P (snd f)) fields -> P (CollectLinks.JObject fields).

Fixpoint json_induction (j : CollectLinks.json) : P j :=
  match j with
  | CollectLinks.JNull => Hnull
  | CollectLinks.JBoolean b => Hbool b
  | CollectLinks.JNumber => Hnum
  | CollectLinks.JString s => Hstr s
  | CollectLinks.JArray items =>
      Harr items
        ((fix all (l : list CollectLinks.json) : Forall P l :=
            match l with
            | [] => @List.Forall_nil _ P
            | x :: r => @List.Forall_cons _ P x r (json_induction x) (all r)
            end) items)
  | CollectLinks.JObject fields =>
      Hobj fields
        ((fix all (l : list (jsstring * CollectLinks.json)) : Forall (fun f => P (snd f)) l :=
            match l with
            | [] => @List.Forall_nil _ (fun f => P (snd f))
            | x :: r =>
                @List.Forall_cons _ (fun f => P (snd f)) x r (json_induction (snd x)) (all r)
            end) fields)
  end.

End JsonInduction.

Section DirentInduction.

Variable P : CollectLinks.dirent -> Prop.
Hypothesis Hfile : forall n, P (CollectLinks.FileEntry n).
Hypothesis Hother : forall n, P (CollectLinks.OtherEntry n).
Hypothesis Hrefused : forall n, P (CollectLinks.DirEntry n None).
Hypothesis Hdir : forall n sub, Forall P sub -> P (CollectLinks.DirEntry n (Some sub)).

Fixpoint dirent_induction (e : CollectLinks.dirent) : P e :=
  match e with
  | CollectLinks.FileEntry n => Hfile n
  | CollectLinks.OtherEntry n => Hother n
  | CollectLinks.DirEntry n None => Hrefused n
  | CollectLinks.DirEntry n (Some sub) =>
      Hdir n sub
        ((fix all (l : list CollectLinks.dirent) : Forall P l :=
            match l with
            | [] => @List.Forall_nil _ P
            | x :: r => @List.Forall_cons _ P x r (dirent_induction x) (all r)
            end) sub)
  end.

End DirentInduction.

(* ===================================================================== *)
(** * Properties                                                          *)
(* ===================================================================== *)

(** ** Running composed scripts *)

Section RunLemmas.

Context {W : Type} (h : handler W).

Lemma run_bind {A B : Type} (m : io A) (f : A -> io B) (w : W) :
  run h (bind m f) w = andThen h f (run h m w).
Proof.
  revert w. induction m as [a|e|c|r k IH]; intros w; cbn [bind run].
  - unfold andThen. cbn. destruct (run h (f a) w) as [[o tr] w2]. reflexivity.
  - reflexivity.
  - reflexivity.
  - rewrite IH. unfold andThen. cbn [fst snd].
    destruct (fst (fst (run h (k (fst (h r w))) (snd (h r w))))); reflexivity.
Qed.

Lemma run_tryCatch {A : Type} (m : io A) (f : JsError -> io A) (w : W) :
  run h (tryCatch m f) w = orElse h f (run h m w).
Proof.
  revert w. induction m as [a|e|c|r k IH]; intros w; cbn [tryCatch run].
  - reflexivity.
  - unfold orElse. cbn. destruct (run h (f e) w) as [[o tr] w2]. reflexivity.
  - reflexivity.
  - rewrite IH. unfold orElse. cbn [fst snd].
    destruct (run h (k (fst (h r w))) (snd (h r w))) as [[o tr] w2].
    destruct o; reflexivity.
Qed.

Lemma run_ask (r : request) (w : W) :
  run h (ask r) w = (Returned (fst (h r w)), [existT r (fst (h r w))], snd (h r w)).
Proof. reflexivity. Qed.

Lemma trace_bind {A B : Type} (m : io A) (f : A -> io B) (w : W) :
  trace_of h (bind m f) w =
  trace_of h m w ++
  match result_of h m w with
  | Returned a => trace_of h (f a) (snd (run h m w))
  | _ => []
  end.
Proof.
  unfold trace_of, result_of. rewrite run_bind. unfold andThen.
  destruct (run h m w) as [[o tr] w1]. cbn [fst snd].
  destruct o; cbn [fst snd]; [reflexivity| |]; symmetry; apply app_nil_r.
Qed.

Lemma result_bind {A B : Type} (m : io A) (f : A -> io B) (w : W) :
  result_of h (bind m f) w =
  match result_of h m w with
  | Returned a => result_of h (f a) (snd (run h m w))
  | Thrown e => Thrown e
  | Exited c => Exited c
  end.
Proof.
  unfold result_of. rewrite run_bind. unfold andThen.
  destruct (run h m w) as [[o tr] w1]. cbn [fst snd].
  destruct o; reflexivity.
Qed.

End RunLemmas.

(* ===================================================================== *)
(** ** The SQL deny-list                                                  *)
(* ===================================================================== *)

Ltac chars :=
  change (chr "/") with 47%N in *; change (chr "*") with 42%N in *;
  change (chr "-") with 45%N in *; change (chr "(") with 40%N in *;
  change (str "/*") with [47%N; 42%N] in *; change (str "*/") with [42%N; 47%N] in *;
  change (str "--") with [45%N; 45%N] in *; change (str "(") with [40%N] in *;
  change (str " ") with [32%N] in *.

Section DenyList.

Import ValidateSql.

Lemma anyChar_true c : anyChar c = true.
Proof. unfold anyChar. destruct (isSpace c); reflexivity. Qed.

(** *** Matching a comment at the current position *)

Lemma block_no_match pv s :
  startsWith s (str "/*") = false -> matchHere false blockComment pv s = None.
Proof.
  unfold matchHere, blockComment. chars.
  destruct s as [|c [|d t]]; cbn [startsWith matcher input chr_eq step].
  - reflexivity.
  - intros _. destruct (47 =? c)%N; reflexivity.
  - destruct (47 =? c)%N; [|reflexivity]. cbn [andb].
    destruct (42 =? d)%N; [discriminate|reflexivity].
Qed.

Lemma closeBlock_spec pv s g n :
  closeBlock (MState pv s g n) =
  if startsWith s (str "*/")
  then Some (MState (Some (chr "/")) (skipn 2 s) g (S (S n)))
  else None.
Proof.
  unfold closeBlock. chars.
  destruct s as [|c [|d t]]; cbn [startsWith matcher input chr_eq step skipn].
  - reflexivity.
  - destruct (42 =? c)%N eqn:E; reflexivity.
  - destruct (42 =? c)%N eqn:E; cbn [andb]; [|reflexivity].
    destruct (47 =? d)%N eqn:E'; cbn [andb]; [|reflexivity].
    apply N.eqb_eq in E'. subst d. reflexivity.
Qed.

Lemma lazy_to_close body : forall pv g n Y,
  includes body (str "*/") = false ->
  rep false anyChar closeBlock pv g n (body ++ str "*/" ++ Y)
  = Some (MState (Some (chr "/")) Y g (n + length body + 2)).
Proof.
  induction body as [|b body IH]; intros pv g n Y Hno.
  - cbn [app length]. change (str "*/" ++ Y) with (42%N :: 47%N :: Y).
    cbn [rep]. rewrite anyChar_true, closeBlock_spec. chars.
    cbn [startsWith N.eqb Pos.eqb andb skipn]. do 2 f_equal. lia.
  - cbn [app length]. cbn [rep]. rewrite anyChar_true, closeBlock_spec.
    cbn [includes] in Hno. apply orb_false_iff in Hno as [Hs Hno].
    assert (Hs' : startsWith (b :: body ++ str "*/" ++ Y) (str "*/") = false).
    { chars. destruct body as [|d body]; cbn [startsWith app] in *.
      - destruct (42 =? b)%N; reflexivity.
      - destruct (42 =? b)%N; [|reflexivity].
        cbn [andb] in *. destruct (47 =? d)%N; [discriminate|reflexivity]. }
    rewrite Hs'. rewrite IH by exact Hno. do 2 f_equal. lia.
Qed.

Lemma block_match pv body Y :
  includes body (str "*/") = false ->
  matchHere false blockComment pv (str "/*" ++ body ++ str "*/" ++ Y)
  = Some (MState (Some (chr "/")) Y [] (S (S (length body + 2)))).
Proof.
  intros Hno. unfold matchHere, blockComment.
  change (str "/*" ++ body ++ str "*/" ++ Y) with (47%N :: 42%N :: (body ++ str "*/" ++ Y)).
  change (chr "/") with 47%N. change (chr "*") with 42%N.
  cbn [matcher input chr_eq step groups consumed prev N.eqb Pos.eqb].
  change (Seq (Chr 42) (Chr 47)) with (Seq (Chr (chr "*")) (Chr (chr "/"))).
  change (fun st' : mstate => matcher false (Seq (Chr (chr "*")) (Chr (chr "/"))) Some st')
    with closeBlock.
  rewrite lazy_to_close by exact Hno. do 2 f_equal.
Qed.

Lemma line_no_match pv s :
  startsWith s (str "--") = false -> matchHere false lineComment pv s = None.
Proof.
  unfold matchHere, lineComment. chars.
  destruct s as [|c [|d t]]; cbn [startsWith matcher input chr_eq step].
  - reflexivity.
  - intros _. destruct (45 =? c)%N; reflexivity.
  - destruct (45 =? c)%N; [|reflexivity]. cbn [andb].
    destruct (45 =? d)%N; [discriminate|reflexivity].
Qed.

Lemma greedy_to_newline body : forall pv g n Y,
  forallb notNewline body = true ->
  exists pv',
    rep true notNewline Some pv g n (body ++ 10%N :: Y)
    = Some (MState pv' (10%N :: Y) g (n + length body)).
Proof.
  induction body as [|b body IH]; intros pv g n Y Hall.
  - exists pv. cbn. do 2 f_equal. lia.
  - cbn in Hall. apply andb_true_iff in Hall as [Hb Hall].
    destruct (IH (Some b) g (S n) Y Hall) as [pv' E].
    exists pv'. cbn [app rep length]. rewrite Hb, E. do 2 f_equal. lia.
Qed.

Lemma line_match pv body Y :
  forallb notNewline body = true ->
  exists pv',
    matchHere false lineComment pv (str "--" ++ body ++ 10%N :: Y)
    = Some (MState pv' (10%N :: Y) [] (S (S (length body)))).
Proof.
  intros Hall. unfold matchHere, lineComment.
  change (str "--" ++ body ++ 10%N :: Y) with (45%N :: 45%N :: (body ++ 10%N :: Y)).
  change (chr "-") with 45%N.
  cbn [matcher input chr_eq step groups consumed prev N.eqb Pos.eqb].
  destruct (greedy_to_newline body (Some 45%N) [] 2 Y Hall) as [pv' E].
  exists pv'. rewrite E. reflexivity.
Qed.

(** *** Replacing along a string *)

Lemma replace_skip icase r by_ X : forall pv Y,
  exists pv', replaceGo icase r by_ (length X) pv (X ++ Y) = replaceGo icase r by_ 0 pv' Y.
Proof.
  induction X as [|c X IH]; intros pv Y.
  - exists pv. reflexivity.
  - destruct (IH (Some c) Y) as [pv' E]. exists pv'. cbn [length app replaceGo]. exact E.
Qed.

Lemma replace_match icase r by_ pv c X Y st :
  matchHere icase r pv (c :: X ++ Y) = Some st ->
  consumed st = S (length X) ->
  exists pv',
    replaceGo icase r by_ 0 pv (c :: X ++ Y) = by_ ++ replaceGo icase r by_ 0 pv' Y.
Proof.
  intros Hm Hc. destruct (replace_skip icase r by_ X (Some c) Y) as [pv' E].
  exists pv'. cbn [replaceGo]. rewrite Hm, Hc, E. reflexivity.
Qed.

Lemma replace_nomatch icase r by_ pv c s :
  matchHere icase r pv (c :: s) = None ->
  replaceGo icase r by_ 0 pv (c :: s) = c :: replaceGo icase r by_ 0 (Some c) s.
Proof. intros Hm. cbn [replaceGo]. rewrite Hm. reflexivity. Qed.

Lemma startsWith2 (c d a b : N) (t : jsstring) :
  startsWith (c :: d :: t) [a; b] = ((a =? c) && (b =? d))%N.
Proof. cbn. rewrite andb_true_r. reflexivity. Qed.

Lemma startsWith1 (c a b : N) : startsWith [c] [a; b] = false.
Proof. cbn. rewrite andb_false_r. reflexivity. Qed.

(** No match of a two-character opening at [c], given what follows. *)
Lemma no_opening (a b c : N) (s : jsstring) :
  (c = a -> head s <> Some b) -> startsWith (c :: s) [a; b] = false.
Proof.
  intros H. destruct s as [|d t].
  - apply startsWith1.
  - rewrite startsWith2. destruct (N.eqb_spec a c) as [->|]; [|reflexivity].
    destruct (N.eqb_spec b d) as [->|]; [|reflexivity].
    exfalso. apply (H eq_refl). reflexivity.
Qed.

Lemma opens_slash c nxt : opens c nxt = false -> c = 47%N -> nxt <> Some 42%N.
Proof. intros H -> ->. discriminate. Qed.

Lemma opens_dash c nxt : opens c nxt = false -> c = 45%N -> nxt <> Some 45%N.
Proof. intros H -> ->. discriminate. Qed.

Lemma head_app_nextOf (t Y : jsstring) : head (t ++ Y) = nextOf t (head Y).
Proof. destruct t; reflexivity. Qed.

(** A run of characters without a block opening is copied by the first
    pass. *)
Lemma block_plain_run X : forall pv R,
  includes X (str "/*") = false -> last X <> Some 47%N ->
  exists pv',
    replaceGo false blockComment [32%N] 0 pv (X ++ R)
    = X ++ replaceGo false blockComment [32%N] 0 pv' R.
Proof.
  induction X as [|c X IH]; intros pv R Hinc Hlast.
  - exists pv. reflexivity.
  - cbn [includes] in Hinc. apply orb_false_iff in Hinc as [Hs Hinc].
    assert (Hlast' : last X <> Some 47%N).
    { intros E. apply Hlast. destruct X; [discriminate|exact E]. }
    destruct (IH (Some c) R Hinc Hlast') as [pv' E].
    exists pv'. cbn [app]. rewrite replace_nomatch.
    + rewrite E. reflexivity.
    + apply block_no_match. chars. destruct X as [|d X].
      * apply no_opening. intros ->. exfalso. apply Hlast. reflexivity.
      * cbn [app]. rewrite startsWith2. rewrite startsWith2 in Hs. exact Hs.
Qed.

Lemma includes_line body :
  includes body (str "/*") = false ->
  includes (45%N :: 45%N :: body ++ [10%N]) (str "/*") = false.
Proof.
  intros H. chars.
  assert (Hb : includes (body ++ [10%N]) [47%N; 42%N] = false).
  { induction body as [|b body IH]; [reflexivity|].
    cbn [includes] in H. apply orb_false_iff in H as [Hs H].
    cbn [app includes]. rewrite (IH H), orb_false_r.
    destruct body as [|d body]; cbn [app].
    - rewrite startsWith2. destruct (47 =? b)%N; reflexivity.
    - rewrite startsWith2. rewrite startsWith2 in Hs. exact Hs. }
  cbn [includes]. rewrite Hb.
  destruct body as [|d body]; reflexivity.
Qed.

Lemma replace_match_at icase r by_ pv s X Y st :
  s = X ++ Y -> X <> [] ->
  matchHere icase r pv s = Some st -> consumed st = length X ->
  exists pv',
    replaceGo icase r by_ 0 pv s = by_ ++ replaceGo icase r by_ 0 pv' Y.
Proof.
  intros -> HX Hm Hc. destruct X as [|c X]; [congruence|].
  apply (replace_match icase r by_ pv c X Y st Hm Hc).
Qed.

Lemma pass_block plain nxt P P1 P2 :
  Clean plain nxt P P1 P2 ->
  forall Y pv, (head Y = Some 42%N -> nxt = Some 42%N) ->
  exists pv',
    replaceGo false blockComment [32%N] 0 pv (P ++ Y)
    = P1 ++ replaceGo false blockComment [32%N] 0 pv' Y.
Proof.
  induction 1 as [|c t t1 t2 Hplain Hopen Hclean IH
                  |body t t1 t2 Hbody Hclean IH
                  |body t t1 t2 Hnl Hbody Hclean IH]; intros Y pv HY.
  - exists pv. reflexivity.
  - destruct (IH Y (Some c) HY) as [pv' E]. exists pv'.
    cbn [app]. rewrite replace_nomatch; [rewrite E; reflexivity|].
    apply block_no_match. chars. apply no_opening. intros ->.
    rewrite head_app_nextOf. intros E'.
    apply (opens_slash _ _ Hopen eq_refl).
    destruct t; [cbn in *; auto|exact E'].
  - destruct (replace_match_at false blockComment [32%N] pv
                ((str "/*" ++ body ++ str "*/" ++ t) ++ Y)
                (str "/*" ++ body ++ str "*/") (t ++ Y)
                (MState (Some (chr "/")) (t ++ Y) [] (S (S (length body + 2)))))
      as [pv1 E1].
    + rewrite <- !app_assoc. reflexivity.
    + discriminate.
    + rewrite <- !app_assoc. apply block_match. exact Hbody.
    + cbn [consumed]. rewrite !length_app. cbn. lia.
    + destruct (IH Y pv1 HY) as [pv' E]. exists pv'.
      rewrite E1, E. reflexivity.
  - destruct (block_plain_run (45%N :: 45%N :: body ++ [10%N]) pv (t ++ Y)
                (includes_line body Hbody)) as [pv1 E1].
    { rewrite !last_cons, last_snoc. discriminate. }
    destruct (IH Y pv1 HY) as [pv' E]. exists pv'.
    change (str "--" ++ body ++ 10%N :: t) with (45%N :: 45%N :: body ++ 10%N :: t).
    change (str "--" ++ body ++ 10%N :: t1) with (45%N :: 45%N :: body ++ 10%N :: t1).
    replace ((45%N :: 45%N :: body ++ 10%N :: t) ++ Y)
      with ((45%N :: 45%N :: body ++ [10%N]) ++ t ++ Y)
      by (cbn [app]; rewrite <- !app_assoc; reflexivity).
    rewrite E1, E. cbn [app]. rewrite <- !app_assoc. reflexivity.
Qed.

(** The second pass, on the output of the first. *)
Lemma clean_next_dash plain nxt t t1 t2 Y :
  Clean plain nxt t t1 t2 ->
  (head Y = Some 45%N -> nxt = Some 45%N) ->
  head (t1 ++ Y) = Some 45%N -> nextOf t nxt = Some 45%N.
Proof.
  intros Hc HY. destruct Hc; cbn; auto; discriminate.
Qed.

Lemma pass_line plain nxt P P1 P2 :
  Clean plain nxt P P1 P2 ->
  forall Y pv, (head Y = Some 45%N -> nxt = Some 45%N) ->
  exists pv',
    replaceGo false lineComment [32%N] 0 pv (P1 ++ Y)
    = P2 ++ replaceGo false lineComment [32%N] 0 pv' Y.
Proof.
  induction 1 as [|c t t1 t2 Hplain Hopen Hclean IH
                  |body t t1 t2 Hbody Hclean IH
                  |body t t1 t2 Hnl Hbody Hclean IH]; intros Y pv HY.
  - exists pv. reflexivity.
  - destruct (IH Y (Some c) HY) as [pv' E]. exists pv'.
    cbn [app]. rewrite replace_nomatch; [rewrite E; reflexivity|].
    apply line_no_match. chars. apply no_opening. intros -> E'.
    apply (opens_dash _ _ Hopen eq_refl).
    apply (clean_next_dash plain nxt t t1 t2 Y Hclean HY E').
  - destruct (IH Y (Some 32%N) HY) as [pv' E]. exists pv'.
    cbn [app]. rewrite replace_nomatch; [rewrite E; reflexivity|].
    apply line_no_match. reflexivity.
  - destruct (line_match pv body (t1 ++ Y) Hnl) as [pv0 Hm].
    destruct (replace_match_at false lineComment [32%N] pv
                ((str "--" ++ body ++ 10%N :: t1) ++ Y)
                (str "--" ++ body) (10%N :: t1 ++ Y)
                (MState pv0 (10%N :: t1 ++ Y) [] (S (S (length body))))) as [pv1 E1];
      [| |rewrite <- !app_assoc; exact Hm| |].
    + rewrite <- !app_assoc. reflexivity.
    + discriminate.
    + cbn [consumed]. rewrite length_app. reflexivity.
    + destruct (IH Y (Some 10%N) HY) as [pv' E]. exists pv'.
      rewrite E1. rewrite replace_nomatch; [rewrite E; reflexivity|].
      apply line_no_match. reflexivity.
Qed.

Lemma greedy_spaces s : forall pv g n,
  exists pv' rest,
    rep true isSpace Some pv g n s = Some (MState pv' rest g (n + spanLen s)).
Proof.
  induction s as [|c s IH]; intros pv g n.
  - exists pv, []. cbn. do 2 f_equal. lia.
  - cbn [rep spanLen]. destruct (isSpace c).
    + destruct (IH (Some c) g (S n)) as (pv' & rest & E).
      exists pv', rest. rewrite E. do 2 f_equal. lia.
    + exists pv, (c :: s). do 2 f_equal. lia.
Qed.

Lemma ws_match pv c t :
  isSpace c = true ->
  exists st, matchHere false whitespaceRun pv (c :: t) = Some st /\
             consumed st = S (spanLen t).
Proof.
  intros Hc. unfold matchHere, whitespaceRun, Plus.
  cbn [matcher input step groups consumed prev]. rewrite Hc.
  cbn [matcher input step groups consumed prev].
  destruct (greedy_spaces t (Some c) [] 1) as (pv' & rest & E).
  eexists. split; [exact E|reflexivity].
Qed.

Lemma ws_no_match pv s :
  (forall c t, s = c :: t -> isSpace c = false) ->
  matchHere false whitespaceRun pv s = None.
Proof.
  intros H. unfold matchHere, whitespaceRun, Plus.
  destruct s as [|c t]; [reflexivity|].
  cbn [matcher input]. rewrite (H c t eq_refl). reflexivity.
Qed.

Lemma ws_replace s : forall pv,
  replaceGo false whitespaceRun [32%N] 0 pv s = collapse false s /\
  replaceGo false whitespaceRun [32%N] (spanLen s) pv s = collapse true s.
Proof.
  induction s as [|c t IH]; intros pv.
  - split; reflexivity.
  - cbn [spanLen collapse]. destruct (isSpace c) eqn:Hc.
    + destruct (IH (Some c)) as [_ IH2]. split.
      * destruct (ws_match pv c t Hc) as (st & Hm & Hn).
        cbn [replaceGo]. rewrite Hm, Hn, IH2. reflexivity.
      * cbn [replaceGo]. exact IH2.
    + destruct (IH (Some c)) as [IH1 _].
      assert (E : replaceGo false whitespaceRun [32%N] 0 pv (c :: t) = c :: collapse false t).
      { rewrite replace_nomatch; [rewrite IH1; reflexivity|].
        apply ws_no_match. intros ? ? [= <- <-]. exact Hc. }
      split; exact E.
Qed.

Lemma collapse_app X : forall b r R,
  isSpace r = false ->
  collapse b (X ++ r :: R) = collapse b X ++ r :: collapse false R.
Proof.
  induction X as [|c X IH]; intros b r R Hr.
  - cbn. rewrite Hr. reflexivity.
  - cbn [app collapse]. destruct (isSpace c); [destruct b|];
      cbn [app]; rewrite IH by exact Hr; reflexivity.
Qed.

Lemma collapse_word w : forall b,
  forallb (fun c => negb (isSpace c)) w = true -> w <> [] ->
  forall R, collapse b (w ++ R) = w ++ collapse false R.
Proof.
  induction w as [|c w IH]; intros b Hall Hne R; [congruence|].
  cbn in Hall. apply andb_true_iff in Hall as [Hc Hall].
  apply negb_true_iff in Hc. cbn [app collapse]. rewrite Hc. f_equal.
  destruct w as [|d w]; [reflexivity|].
  apply IH; [exact Hall|discriminate].
Qed.

Lemma collapse_spaces g : forall b,
  forallb isSpace g = true ->
  exists s, forallb isSpace s = true /\ collapse b g = s.
Proof.
  induction g as [|c g IH]; intros b Hall.
  - exists []. split; reflexivity.
  - cbn in Hall. apply andb_true_iff in Hall as [Hc Hall].
    cbn [collapse]. rewrite Hc.
    destruct (IH true Hall) as (s & Hs & E). rewrite E.
    destruct b; [exists s; auto|exists (32%N :: s); split; [exact Hs|reflexivity]].
Qed.

(** *** The character before the call *)

Lemma lastOr_app pv X Y : lastOr pv (X ++ Y) = lastOr (lastOr pv X) Y.
Proof. unfold lastOr. apply fold_left_app. Qed.

Lemma lastOr_last pv X :
  lastOr pv X = match last X with Some c => Some c | None => pv end.
Proof.
  revert pv. induction X as [|c X IH]; intros pv; [reflexivity|].
  change (lastOr pv (c :: X)) with (lastOr (Some c) X). rewrite IH, last_cons.
  destruct (last X); reflexivity.
Qed.

Lemma space_not_word c : isSpace c = true -> isWordChar c = false.
Proof.
  intros H. unfold isWordChar, between.
  destruct (N.leb_spec 97 c), (N.leb_spec c 122), (N.leb_spec 65 c), (N.leb_spec c 90),
    (N.leb_spec 48 c), (N.leb_spec c 57), (N.eqb_spec c 95); cbn; try reflexivity;
    exfalso; revert H; unfold isSpace, between;
    repeat match goal with
    | |- context [(?a <=? ?b)%N] => destruct (N.leb_spec a b); try lia
    | |- context [(?a =? ?b)%N] => destruct (N.eqb_spec a b); try lia
    end; cbn; discriminate.
Qed.

Lemma collapse_lastOr T : forall b pv pv',
  isWordOpt pv' = isWordOpt pv -> (b = true -> isWordOpt pv = false) ->
  isWordOpt (lastOr pv' (collapse b T)) = isWordOpt (lastOr pv T).
Proof.
  induction T as [|c T IH]; intros b pv pv' Hpv Hb; [exact Hpv|].
  change (lastOr pv (c :: T)) with (lastOr (Some c) T).
  cbn [collapse]. destruct (isSpace c) eqn:Hc.
  - pose proof (space_not_word c Hc) as Hw. destruct b.
    + apply IH; [|intros _; exact Hw].
      cbn. rewrite Hw, Hpv. apply Hb. reflexivity.
    + change (lastOr pv' (32%N :: collapse true T))
        with (lastOr (Some 32%N) (collapse true T)).
      apply IH; [|intros _; exact Hw]. cbn. rewrite Hw. reflexivity.
  - change (lastOr pv' (c :: collapse false T)) with (lastOr (Some c) (collapse false T)).
    apply IH; [reflexivity|discriminate].
Qed.

Lemma clean_lastOr plain nxt P P1 P2 :
  Clean plain nxt P P1 P2 ->
  forall pv pv', isWordOpt pv' = isWordOpt pv ->
  isWordOpt (lastOr pv' P2) = isWordOpt (lastOr pv P).
Proof.
  induction 1 as [|c t t1 t2 Hplain Hopen Hclean IH
                  |body t t1 t2 Hbody Hclean IH
                  |body t t1 t2 Hnl Hbody Hclean IH]; intros pv pv' Hpv.
  - exact Hpv.
  - change (lastOr pv' (c :: t2)) with (lastOr (Some c) t2).
    change (lastOr pv (c :: t)) with (lastOr (Some c) t). apply IH. reflexivity.
  - change (lastOr pv' (32%N :: t2)) with (lastOr (Some 32%N) t2).
    rewrite !app_assoc, lastOr_app. apply IH.
    rewrite lastOr_last, last_app. reflexivity.
  - change (lastOr pv' (32%N :: 10%N :: t2)) with (lastOr (Some 10%N) t2).
    replace (str "--" ++ body ++ 10%N :: t) with ((str "--" ++ body ++ [10%N]) ++ t)
      by (rewrite <- !app_assoc; reflexivity).
    rewrite lastOr_app. apply IH.
    rewrite lastOr_last, !last_app. reflexivity.
Qed.

(** *** Finding the call *)

Lemma search_app icase r B : forall pv rest st,
  matchHere icase r (lastOr pv B) rest = Some st ->
  exists st', search icase r pv (B ++ rest) = Some st'.
Proof.
  induction B as [|c B IH]; intros pv rest st Hm.
  - cbn in Hm. destruct rest; cbn [app search]; rewrite Hm; eauto.
  - cbn [app search]. destruct (matchHere icase r pv (c :: B ++ rest)); [eauto|].
    apply (IH (Some c) rest st). exact Hm.
Qed.

Lemma lit_match nm : forall w rest R k pv g n,
  map canonicalize w = map canonicalize nm ->
  matcher true (Lit nm R) k (MState pv (w ++ rest) g n)
  = matcher true R k (MState (lastOr pv w) rest g (n + length w)).
Proof.
  induction nm as [|x nm IH]; intros w rest R k pv g n Hw.
  - destruct w; [|discriminate]. cbn. do 2 f_equal. lia.
  - destruct w as [|c w]; [discriminate|]. injection Hw as Hc Hw.
    cbn [Lit matcher app input chr_eq]. rewrite Hc, N.eqb_refl.
    unfold step. cbn [groups consumed].
    rewrite (IH w rest R k (Some c) g (S n) Hw).
    change (lastOr pv (c :: w)) with (lastOr (Some c) w).
    do 2 f_equal. cbn [length]. lia.
Qed.

Lemma spaces_then_paren s : forall pv g n A,
  forallb isSpace s = true ->
  exists st,
    rep true isSpace (matcher true (Chr (chr "(")) Some) pv g n (s ++ 40%N :: A) = Some st.
Proof.
  induction s as [|c s IH]; intros pv g n A Hall.
  - cbn. eauto.
  - cbn in Hall. apply andb_true_iff in Hall as [Hc Hall].
    destruct (IH (Some c) g (S n) A Hall) as [st E].
    cbn [app rep]. rewrite Hc, E. eauto.
Qed.

Lemma canon_word (x c : N) :
  isWordChar x = true -> canonicalize c = canonicalize x -> isWordChar c = true.
Proof.
  unfold canonicalize, isWordChar, between.
  repeat match goal with
  | |- context [(?a <=? ?b)%N] => destruct (N.leb_spec a b)
  | |- context [(?a =? ?b)%N] => destruct (N.eqb_spec a b)
  end; cbn; try reflexivity; try discriminate; intros; lia.
Qed.

Lemma call_match (name w s A : jsstring) pv :
  isWordOpt pv = false ->
  map canonicalize w = map canonicalize name ->
  isWordOpt (head name) = true ->
  forallb isSpace s = true ->
  exists st,
    matchHere true (Seq WordB (Lit name (Seq (Star true isSpace) (Chr (chr "(")))))
      pv (w ++ s ++ 40%N :: A) = Some st.
Proof.
  intros Hpv Hw Hname Hs. unfold matchHere.
  cbn [matcher prev input]. rewrite Hpv.
  assert (Hhead : isWordOpt (head (w ++ s ++ 40%N :: A)) = true).
  { destruct name as [|x name]; [discriminate|].
    destruct w as [|c w]; [discriminate|]. injection Hw as Hc _.
    cbn in *. apply (canon_word x c Hname Hc). }
  rewrite Hhead. cbn [xorb].
  rewrite (lit_match name w (s ++ 40%N :: A) _ _ pv [] 0 Hw).
  cbn [matcher prev input groups consumed].
  apply spaces_then_paren. exact Hs.
Qed.

Lemma firstDangerous_found l s p d :
  In (p, d) l -> test true p s = true ->
  exists msg, firstDangerous l s = Some msg /\ startsWith msg (str "Security: ") = true.
Proof.
  induction l as [|[p' d'] l IH]; intros Hin Ht; [destruct Hin|].
  cbn [firstDangerous]. destruct (test true p' s) eqn:E.
  - eexists. split; reflexivity.
  - destruct Hin as [[= -> ->]|Hin]; [congruence|]. apply IH; assumption.
Qed.

Lemma commented_clean plain t :
  Commented plain noBlockOpening t -> exists t1 t2, Clean plain None t t1 t2.
Proof.
  induction 1 as [|c t Hp Ho Hc (t1 & t2 & IH)|body t Hb Hc (t1 & t2 & IH)
                  |body t Hn Hb Hc (t1 & t2 & IH)].
  - exists [], []. constructor.
  - exists (c :: t1), (c :: t2). constructor; auto.
  - exists (32%N :: t1), (32%N :: t2). constructor; auto.
  - exists (str "--" ++ body ++ 10%N :: t1), (32%N :: 10%N :: t2). constructor; auto.
    apply negb_true_iff. exact Hb.
Qed.

Lemma clean_spaces nxt g g1 g2 :
  Clean isSpace nxt g g1 g2 -> forallb isSpace g2 = true.
Proof.
  induction 1; cbn; auto. apply andb_true_iff. auto.
Qed.

Lemma word_not_opening c nxt : isWordChar c = true -> opens c nxt = false.
Proof.
  intros H. destruct nxt as [d|]; [|reflexivity]. unfold opens. chars.
  destruct (N.eqb_spec c 47) as [->|]; [discriminate|].
  destruct (N.eqb_spec c 45) as [->|]; [discriminate|]. reflexivity.
Qed.

Lemma clean_word nxt w :
  forallb isWordChar w = true -> Clean (fun _ => true) nxt w w w.
Proof.
  induction w as [|c w IH]; intros H; [constructor|].
  cbn in H. apply andb_true_iff in H as [Hc H].
  constructor; auto using word_not_opening.
Qed.

Lemma word_not_space c : isWordChar c = true -> isSpace c = false.
Proof.
  intros H. destruct (isSpace c) eqn:E; [|reflexivity].
  rewrite (space_not_word c E) in H. discriminate.
Qed.

Lemma same_word_chars nm : forall w,
  map canonicalize w = map canonicalize nm ->
  forallb isWordChar nm = true -> forallb isWordChar w = true.
Proof.
  induction nm as [|x nm IH]; intros [|c w] Hw Hall; try discriminate; [reflexivity|].
  injection Hw as Hc Hw. cbn in *. apply andb_true_iff in Hall as [Hx Hall].
  apply andb_true_iff. split; [exact (canon_word x c Hx Hc)|auto].
Qed.

Lemma collapse_plain w : forall R,
  forallb isWordChar w = true ->
  collapse false (w ++ R) = w ++ collapse false R.
Proof.
  induction w as [|c w IH]; intros R H; [reflexivity|].
  cbn in H. apply andb_true_iff in H as [Hc H].
  cbn [app collapse]. rewrite (word_not_space c Hc), IH by exact H. reflexivity.
Qed.

Lemma denyListed_pattern name :
  In name denyListed ->
  (exists d, In (callPattern name, d) dangerous) /\
  forallb isWordChar (str name) = true /\
  isWordOpt (head (str name)) = true.
Proof.
  intros H. cbn in H.
  repeat (destruct H as [<-|H];
          [split; [eexists; unfold dangerous; cbn [In];
                   repeat (first [left; reflexivity|right])
                  |split; reflexivity]|]).
  destruct H.
Qed.

(** Three segments in a row through one pass. *)
Lemma three_segments (pass : option N -> jsstring -> jsstring)
    (T T' w g g' Z : jsstring) :
  (forall pv, exists pv', pass pv (T ++ w ++ g ++ Z) = T' ++ pass pv' (w ++ g ++ Z)) ->
  (forall pv, exists pv', pass pv (w ++ g ++ Z) = w ++ pass pv' (g ++ Z)) ->
  (forall pv, exists pv', pass pv (g ++ Z) = g' ++ pass pv' Z) ->
  forall pv, exists pv', pass pv (T ++ w ++ g ++ Z) = T' ++ w ++ g' ++ pass pv' Z.
Proof.
  intros H1 H2 H3 pv.
  destruct (H1 pv) as [pv1 E1]. destruct (H2 pv1) as [pv2 E2].
  destruct (H3 pv2) as [pv3 E3]. exists pv3. rewrite E1, E2, E3. reflexivity.
Qed.

Lemma head_word w Z c :
  forallb isWordChar w = true -> w <> [] -> head (w ++ Z) = Some c -> isWordChar c = true.
Proof.
  destruct w as [|x w]; [congruence|]. cbn. intros H _ [= <-].
  apply andb_true_iff in H. tauto.
Qed.

(** What the deny-list does stop.  A deny-listed name in any mix of cases,
    at a word boundary, separated from its parenthesis by whitespace, block
    comments and line comments, is flagged whenever the comments of the
    text before the call and of the gap are complete, open nowhere else,
    and no line comment holds the opening of a block comment. *)
Theorem clean_call_flagged (name : string) (T w g after : jsstring) :
  In name denyListed ->
  sameWord (str name) w ->
  atWordStart T ->
  CleanText T ->
  CleanGap g ->
  exists msg,
    containsDangerousPatterns (T ++ w ++ g ++ str "(" ++ after) = Some msg /\
    startsWith msg (str "Security: ") = true.
Proof.
  intros Hname Hsame Hstart HT Hg.
  destruct (denyListed_pattern name Hname) as ((d & Hd) & Hchars & Hhead).
  pose proof (same_word_chars (str name) w Hsame Hchars) as Hw.
  assert (Hne : w <> []).
  { intros ->. destruct (str name); [discriminate|discriminate]. }
  destruct (commented_clean _ T HT) as (T1 & T2 & HcT).
  destruct (commented_clean _ g Hg) as (g1 & g2 & Hcg).
  pose proof (clean_spaces _ _ _ _ Hcg) as Hg2.
  change (str "(" ++ after) with (40%N :: after).
  (* first pass *)
  destruct (three_segments (replaceGo false blockComment [32%N] 0)
              T T1 w g g1 (40%N :: after)) with (pv := @None N) as [pv1 E1].
  { intros pv. apply (pass_block _ _ _ _ _ HcT). intros E.
    pose proof (head_word w _ _ Hw Hne E). discriminate. }
  { intros pv. apply (pass_block _ (head (g ++ 40%N :: after)) _ _ _ (clean_word _ w Hw)).
    auto. }
  { intros pv. apply (pass_block _ _ _ _ _ Hcg). discriminate. }
  rewrite replace_nomatch in E1 by (apply block_no_match; reflexivity).
  set (A1 := replaceGo false blockComment [32%N] 0 (Some 40%N) after) in E1.
  (* second pass *)
  destruct (three_segments (replaceGo false lineComment [32%N] 0)
              T1 T2 w g1 g2 (40%N :: A1)) with (pv := @None N) as [pv2 E2].
  { intros pv. apply (pass_line _ _ _ _ _ HcT). intros E.
    pose proof (head_word w _ _ Hw Hne E). discriminate. }
  { intros pv. apply (pass_line _ (head (g1 ++ 40%N :: A1)) _ _ _ (clean_word _ w Hw)).
    auto. }
  { intros pv. apply (pass_line _ _ _ _ _ Hcg). discriminate. }
  rewrite replace_nomatch in E2 by (apply line_no_match; reflexivity).
  set (A2 := replaceGo false lineComment [32%N] 0 (Some 40%N) A1) in E2.
  (* third pass *)
  assert (E3 : stripComments (T ++ w ++ g ++ 40%N :: after)
               = collapse false T2 ++ w ++ collapse false g2 ++ 40%N :: collapse false A2).
  { unfold stripComments, replaceAll. change (str " ") with [32%N].
    rewrite E1, E2. rewrite (proj1 (ws_replace _ None)).
    destruct w as [|x w']; [congruence|].
    cbn [app]. rewrite collapse_app.
    2: { cbn in Hw. apply andb_true_iff in Hw as [Hx _]. apply word_not_space, Hx. }
    cbn in Hw. apply andb_true_iff in Hw as [Hx Hw'].
    rewrite (collapse_plain w' _ Hw'), collapse_app by reflexivity. reflexivity. }
  destruct (collapse_spaces g2 false Hg2) as (s & Hs & Es).
  (* the call is found *)
  assert (Hprev : isWordOpt (lastOr None (collapse false T2)) = false).
  { rewrite (collapse_lastOr T2 false None None eq_refl) by discriminate.
    rewrite (clean_lastOr _ _ _ _ _ HcT None None eq_refl).
    rewrite lastOr_last. unfold atWordStart in Hstart.
    destruct (last T); [exact Hstart|reflexivity]. }
  destruct (call_match (str name) w s (collapse false A2) _ Hprev Hsame Hhead Hs)
    as [st Hst].
  destruct (search_app true (callPattern name) (collapse false T2) None _ st Hst)
    as [st' Hsearch].
  unfold containsDangerousPatterns. rewrite E3, Es.
  apply (firstDangerous_found _ _ (callPattern name) d Hd).
  unfold test. rewrite Hsearch. reflexivity.
Qed.

End DenyList.


(** The guard of [validateSQL]: a flagged snippet is answered with the
    security message and nothing is asked of the environment, so no file is
    written and no engine is started. *)
Lemma firstDangerous_message l s msg :
  ValidateSql.firstDangerous l s = Some msg ->
  exists d, msg = ValidateSql.securityPrefix ++ d.
Proof.
  induction l as [|[p d] l IH]; simpl; [discriminate|].
  destruct (test true p s).
  - intros [= <-]. eauto.
  - exact IH.
Qed.

Lemma validateSQL_guard {W : Type} (h : handler W) (w : W) BUILD_DIR sql msg :
  ValidateSql.containsDangerousPatterns sql = Some msg ->
  startsWith msg (str "Security: ") = true /\
  run h (ValidateSql.validateSQL BUILD_DIR sql) w = (Returned (Some msg), [], w).
Proof.
  intros H. pose proof H as H'. apply firstDangerous_message in H' as [d ->].
  split; [reflexivity|].
  unfold ValidateSql.validateSQL. rewrite H. reflexivity.
Qed.

(** X1.  The deny-list finds a call whose comments are well formed: a
    deny-listed name in any mix of cases, at a word boundary, followed by
    whitespace, block comments and line comments and then the opening
    parenthesis, when the text before it has complete comments and no line
    comment holds the opening of a block comment.  Such a call never
    reaches the engine: [validateSQL] answers with the security message and
    asks nothing of the environment. *)
Corollary clean_call_rejected {W : Type} (h : handler W) (w0 : W) (BUILD_DIR : jsstring)
    (name : string) (T w g after : jsstring) :
  In name denyListed -> sameWord (str name) w -> atWordStart T ->
  CleanText T -> CleanGap g ->
  exists msg,
    startsWith msg (str "Security: ") = true /\
    run h (ValidateSql.validateSQL BUILD_DIR (T ++ w ++ g ++ str "(" ++ after)) w0
    = (Returned (Some msg), [], w0).
Proof.
  intros Hn Hs Ha HT Hg.
  destruct (clean_call_flagged name T w g after Hn Hs Ha HT Hg) as (msg & Hmsg & _).
  exists msg. apply validateSQL_guard. exact Hmsg.
Qed.

(** An instance: mixed case, a block comment, a line comment and
    newlines between the name and the parenthesis, after a commented
    line. *)
Example clean_call_rejected_instance :
  exists msg,
    startsWith msg (str "Security: ") = true /\
    run scripted
      (ValidateSql.validateSQL (str "build")
         ((str "-- read a file" ++ [10%N] ++ str "SELECT * FROM ") ++ str "FiLe"
          ++ (str " /* x */ -- y" ++ [10%N] ++ str "  ") ++ str "(" ++ str "'/etc/passwd')"))
      []
    = (Returned (Some msg), [], []).
Proof.
  apply (clean_call_rejected scripted [] (str "build") "file").
  - simpl. tauto.
  - reflexivity.
  - reflexivity.
  - apply (Commented_line _ _ (str " read a file")); [reflexivity..|].
    repeat (apply Commented_char; [reflexivity..|]). constructor.
  - apply Commented_char; [reflexivity..|].
    apply (Commented_block _ _ (str " x ")); [reflexivity|].
    apply Commented_char; [reflexivity..|].
    apply (Commented_line _ _ (str " y")); [reflexivity..|].
    repeat (apply Commented_char; [reflexivity..|]). constructor.
Defined.

(** The obfuscations named in the script, and the scenario of the plain
    [file] call. *)
Example obfuscated_calls_flagged :
  ValidateSql.containsDangerousPatterns (str "SELECT * FROM file/**/('/etc/passwd')")
    = Some (str "Security: SQL contains dangerous pattern: file() table function (file system access)")
  /\ ValidateSql.containsDangerousPatterns
       (str "SELECT * FROM FiLe -- x" ++ [10%N] ++ str "  ('/etc/passwd')")
    = Some (str "Security: SQL contains dangerous pattern: file() table function (file system access)")
  /\ ValidateSql.containsDangerousPatterns (str "SELECT THROWIF (1)")
    = Some (str "Security: SQL contains dangerous pattern: throwIf() function (error-based exfiltration)")
  /\ ValidateSql.containsDangerousPatterns (str "SELECT * FROM profile(1)") = None
  /\ run scripted (ValidateSql.validateSQL (str "build") scenarioB) []
     = (Returned (Some (str "Security: SQL contains dangerous pattern: file() table function (file system access)")),
        [], []).
Proof. vm_compute. repeat split. Qed.

Lemma bypass_is_a_call : containsDangerousCall bypass.
Proof.
  exists "file"%string, (str "SELECT * FROM "), (str "file"),
         (str "--" ++ str "/*" ++ [10%N]), (str "'/etc/passwd')--*/").
  split; [simpl; tauto|].
  split; [reflexivity|].
  split; [reflexivity|].
  split; [|reflexivity].
  apply (Commented_line isSpace (fun _ => true) (str "/*") []); [reflexivity..|constructor].
Qed.

Lemma bypass_not_flagged : ValidateSql.containsDangerousPatterns bypass = None.
Proof. vm_compute. reflexivity. Qed.

(** C1.  The deny-list misses a deny-listed call: for the snippet [bypass],
    a [file] call whose name and parenthesis are separated by a line
    comment, [containsDangerousPatterns] finds nothing, and in every
    environment [validateSQL] writes the snippet to the temporary file and,
    unless that write fails, hands the file to the engine. *)
Theorem validateSQL_bypass :
  containsDangerousCall bypass /\
  ValidateSql.containsDangerousPatterns bypass = None /\
  forall (W : Type) (h : handler W) (w : W) (BUILD_DIR : jsstring),
    exists tmpFile,
      In (WriteFile tmpFile bypass)
         (requests (trace_of h (ValidateSql.validateSQL BUILD_DIR bypass) w)) /\
      ((exists e, result_of h (ValidateSql.validateSQL BUILD_DIR bypass) w = Thrown e) \/
       In (ExecAsync (ValidateSql.engineCommand BUILD_DIR tmpFile))
          (requests (trace_of h (ValidateSql.validateSQL BUILD_DIR bypass) w))).
Proof.
  split; [exact bypass_is_a_call|].
  split; [exact bypass_not_flagged|].
  intros W h w BUILD_DIR.
  unfold trace_of, result_of, ValidateSql.validateSQL. rewrite bypass_not_flagged.
  cbn [ValidateSql.truthyOpt run bind tryCatch finally ask settle ValidateSql.cleanup].
  destruct (h Tmpdir w) as [tmp w1]. cbn [fst snd].
  destruct (h DateNow w1) as [now w2]. cbn [fst snd].
  exists (ValidateSql.tmpFileName tmp now).
  destruct (h (WriteFile (ValidateSql.tmpFileName tmp now) bypass) w2) as [[[]|e] w3];
    cbn [fst snd run bind tryCatch finally ask settle ValidateSql.cleanup].
  - split; [cbn; tauto|].
    right. cbn. tauto.
  - split; [cbn; tauto|].
    left. eauto.
Qed.

(** The same happens without any comment near the call, when a string
    literal before it holds the opening of a block comment: in an
    environment where every operation succeeds the snippet is written out,
    run by the engine and reported valid. *)
Example literal_bypass :
  containsDangerousCall bypassLiteral /\
  ValidateSql.containsDangerousPatterns bypassLiteral = None /\
  run scripted (ValidateSql.validateSQL (str "build") bypassLiteral) []
  = (Returned None,
     [ existT Tmpdir (str "/tmp"); existT DateNow 0%Z;
       existT (WriteFile (str "/tmp/clickhouse-validate-0.sql") bypassLiteral) (Resolved tt);
       existT (ExecAsync (ValidateSql.engineCommand (str "build")
                            (str "/tmp/clickhouse-validate-0.sql")))
              (Resolved ([], []));
       existT (ExecAsync (ValidateSql.rmCommand (str "/tmp/clickhouse-validate-0.sql")))
              (Resolved ([], [])) ],
     []).
Proof.
  split; [|split; vm_compute; reflexivity].
  exists "file"%string, (str "SELECT '/*' FROM "), (str "file"), [],
         (str "'/etc/passwd') WHERE x = '*/'").
  split; [simpl; tauto|]. split; [reflexivity|]. split; [reflexivity|].
  split; [constructor|reflexivity].
Qed.

(* ===================================================================== *)
(** ** The engine command                                                 *)
(* ===================================================================== *)

Lemma startsWith_app (p b : jsstring) : startsWith (p ++ b) p = true.
Proof.
  induction p as [|x p IH]; [reflexivity|].
  simpl. rewrite N.eqb_refl. exact IH.
Qed.

Lemma startsWith_app_l (s p b : jsstring) :
  startsWith s p = true -> startsWith (s ++ b) p = true.
Proof.
  revert s. induction p as [|x p IH]; intros s; [reflexivity|].
  destruct s as [|y s]; simpl; [discriminate|].
  destruct (x =? y)%N; simpl; [apply IH|discriminate].
Qed.

Lemma includes_nil (s : jsstring) : includes s [] = true.
Proof. destruct s; reflexivity. Qed.

Lemma includes_app_l (s p b : jsstring) :
  includes s p = true -> includes (s ++ b) p = true.
Proof.
  induction s as [|y s IH]; simpl.
  - rewrite orb_false_r. intros H.
    destruct p; [apply includes_nil|discriminate].
  - intros H. apply orb_true_iff in H as [H|H]; apply orb_true_iff.
    + left. exact (startsWith_app_l (y :: s) p b H).
    + right. exact (IH H).
Qed.

Lemma includes_app_r (a s p : jsstring) :
  includes s p = true -> includes (a ++ s) p = true.
Proof.
  intros H. induction a as [|y a IH]; [exact H|].
  simpl. rewrite IH. apply orb_true_r.
Qed.

Lemma forallb_includes_app (a s b : jsstring) (flags : list jsstring) :
  forallb (includes s) flags = true ->
  forallb (includes (a ++ s ++ b)) flags = true.
Proof.
  intros H. apply forallb_forall. intros p Hp.
  apply includes_app_r, includes_app_l.
  exact (proj1 (forallb_forall _ _) H p Hp).
Qed.

Lemma engineCommand_restricted BUILD_DIR tmpFile :
  fullyRestricted (ValidateSql.engineCommand BUILD_DIR tmpFile) = true.
Proof.
  unfold fullyRestricted, ValidateSql.engineCommand.
  rewrite !(app_assoc _ _ (ValidateSql.restrictedFlags ++ _)).
  apply forallb_includes_app. vm_compute. reflexivity.
Qed.

(** In the script with the deny-list, whatever the environment answers,
    the only subprocesses [validateSQL] starts are the engine, with every
    required flag, and the removal of the temporary file. *)
Lemma validateSQL_engine_restricted {W : Type} (h : handler W) (w : W)
    (BUILD_DIR sql cmd : jsstring) :
  In (ExecAsync cmd) (requests (trace_of h (ValidateSql.validateSQL BUILD_DIR sql) w)) ->
  exists tmpFile,
    (cmd = ValidateSql.engineCommand BUILD_DIR tmpFile /\ fullyRestricted cmd = true)
    \/ cmd = ValidateSql.rmCommand tmpFile.
Proof.
  unfold trace_of, ValidateSql.validateSQL.
  destruct (ValidateSql.truthyOpt (ValidateSql.containsDangerousPatterns sql)).
  { cbn. tauto. }
  cbn [run bind tryCatch finally ask settle ValidateSql.cleanup].
  destruct (h Tmpdir w) as [tmp w1]. cbn [fst snd].
  destruct (h DateNow w1) as [now w2]. cbn [fst snd].
  set (tmpFile := ValidateSql.tmpFileName tmp now).
  destruct (h (WriteFile tmpFile sql) w2) as [[[]|e] w3];
    cbn [fst snd run bind tryCatch finally ask settle ValidateSql.cleanup].
  2: { cbn. intros [H|[H|[H|[]]]]; discriminate. }
  destruct (h (ExecAsync (ValidateSql.engineCommand BUILD_DIR tmpFile)) w3)
    as [[out|e] w4];
    cbn [fst snd run bind tryCatch finally ask settle ValidateSql.cleanup];
    destruct (h (ExecAsync (ValidateSql.rmCommand tmpFile)) w4) as [[out'|e'] w5];
    cbn; intros [H|[H|[H|[H|[H|[]]]]]]; try discriminate;
    injection H as <-; exists tmpFile;
    solve [ left; split; [reflexivity|apply engineCommand_restricted]
          | right; reflexivity ].
Qed.

(** C2.  The copy of the script under [packages/] starts the engine
    without any of the required flags: for the snippet [SELECT 1], in an
    environment where every operation succeeds, the snippet is written out
    and the engine is started with a command that holds none of them. *)
Theorem packaged_engine_unrestricted :
  let cmd := ValidateSqlPackaged.engineCommand (str "build")
               (str "/tmp/clickhouse-validate-0.sql") in
  requests (trace_of scripted
              (ValidateSqlPackaged.validateSQL (str "build") (str "SELECT 1")) [])
  = [ Tmpdir; DateNow;
      WriteFile (str "/tmp/clickhouse-validate-0.sql") (str "SELECT 1");
      ExecAsync cmd;
      ExecAsync (ValidateSql.rmCommand (str "/tmp/clickhouse-validate-0.sql")) ]
  /\ forallb (fun flag => negb (includes cmd flag)) requiredFlags = true
  /\ fullyRestricted
       (ValidateSql.engineCommand (str "build") (str "/tmp/clickhouse-validate-0.sql"))
     = true.
Proof. vm_compute. repeat split. Qed.

(** The same copy has no deny-list either: the plain [file] call of
    [scenarioB] reaches the engine. *)
Example packaged_no_denylist :
  In (ExecAsync (ValidateSqlPackaged.engineCommand (str "build")
                   (str "/tmp/clickhouse-validate-0.sql")))
     (requests (trace_of scripted
                  (ValidateSqlPackaged.validateSQL (str "build") scenarioB) [])).
Proof. vm_compute. tauto. Qed.

(* ===================================================================== *)
(** ** Degraded mode: no engine binary                                    *)
(* ===================================================================== *)


Section Degraded.

Context {W : Type} (h : handler W).
Variables RULES_DIR BUILD_DIR : jsstring.






End Degraded.


(** The same on a supported platform where the download fails, with the
    copy of the script kept under [packages/]. *)
Example skip_when_download_fails :
  result_of (bare (str "linux") false)
    (ValidateSqlPackaged.validateSQLInRules (str "rules") (str "build")) tt = Exited 0.
Proof. vm_compute. reflexivity. Qed.

(* ===================================================================== *)
(** ** Probing an external URL                                            *)
(* ===================================================================== *)

Section Probing.

Import CheckExternalLinks.

Context {W : Type} (h : handler W).
Variables (u : jsstring) (src : Source) (timeout : Z).

Lemma not_ok_not_2xx (r : Response) :
  ok r = false -> ((200 <=? status r) && (status r <? 300))%Z = false.
Proof.
  unfold ok. intros H.
  apply andb_false_iff in H. apply andb_false_iff.
  destruct H as [H|H]; [left; exact H|right].
  apply Z.leb_gt in H. apply Z.ltb_ge. lia.
Qed.

Lemma probe_run (st : locals) (w : W) :
  exists res,
    result_of h (probe u src timeout st) w = Returned res /\
    probeShape u src st (fetches (trace_of h (probe u src timeout st) w)) res /\
    sleeps (trace_of h (probe u src timeout st) w) = [].
Proof.
  unfold result_of, trace_of, probe, tryProbe, fetchWith.
  cbn [run bind tryCatch ask settle].
  destruct (h (Fetch u HEAD timeout) w) as [[r0|e0] w1];
    cbn [run bind tryCatch ask settle fst snd].
  2: { eexists. split; [reflexivity|]. split; [constructor|reflexivity]. }
  destruct (ok r0) eqn:Hok0; cbn [run bind tryCatch ask settle fst snd negb].
  { eexists. split; [reflexivity|]. split; [constructor; exact Hok0|reflexivity]. }
  destruct (h (Fetch u GET timeout) w1) as [[r1|e1] w2];
    cbn [run bind tryCatch ask settle fst snd].
  2: { eexists. split; [reflexivity|]. split; [constructor; exact Hok0|reflexivity]. }
  destruct (ok r1) eqn:Hok1; cbn [run bind tryCatch ask settle fst snd].
  { eexists. split; [reflexivity|].
    split; [constructor; assumption|reflexivity]. }
  rewrite (not_ok_not_2xx r1 Hok1). cbn [run bind tryCatch ask settle fst snd].
  eexists. split; [reflexivity|].
  split; [exact (Shape_get_failed u src st r0 r1 Hok0 Hok1)|reflexivity].
Qed.

(** C7.  Every attempt issues a HEAD request first; it issues a GET
    request only after a HEAD response that is not successful, and nothing
    after the GET; a HEAD response that is not successful is always followed
    by the GET request, and by nothing else, whereas a successful HEAD
    response, or a HEAD request that fails without a response, is the only
    exchange of the attempt; and as soon as the HEAD or the GET is answered
    with a successful (2xx) response, the attempt yields the successful
    result carrying that status code, that response being its last
    exchange. *)
Theorem probe_protocol (st : locals) (w : W) :
  exists res,
    result_of h (probe u src timeout st) w = Returned res /\
    (exists a rest,
       fetches (trace_of h (probe u src timeout st) w) = (HEAD, a) :: rest) /\
    (forall a, In (GET, a) (fetches (trace_of h (probe u src timeout st) w)) ->
       exists r0, ok r0 = false /\
         fetches (trace_of h (probe u src timeout st) w)
           = [(HEAD, Resolved r0); (GET, a)]) /\
    (forall r0 rest,
       fetches (trace_of h (probe u src timeout st) w)
         = (HEAD, Resolved r0) :: rest ->
       (ok r0 = false -> exists a, rest = [(GET, a)]) /\
       (ok r0 = true -> rest = [])) /\
    (forall e rest,
       fetches (trace_of h (probe u src timeout st) w)
         = (HEAD, Rejected e) :: rest ->
       rest = []) /\
    (forall m r,
       In (m, Resolved r) (fetches (trace_of h (probe u src timeout st) w)) ->
       ok r = true ->
       (200 <= status r <= 299)%Z /\
       res = inl (MkResult u true (Some (status r)) None src (used st)) /\
       last (fetches (trace_of h (probe u src timeout st) w)) = Some (m, Resolved r)).
Proof.
  destruct (probe_run st w) as (res & Hres & Hshape & _).
  exists res. split; [exact Hres|].
  assert (Hrange : forall r, ok r = true -> (200 <= status r <= 299)%Z).
  { intros r Hr. unfold ok in Hr. apply andb_true_iff in Hr as [H1 H2].
    apply Z.leb_le in H1, H2. lia. }
  revert Hshape. generalize (fetches (trace_of h (probe u src timeout st) w)).
  intros fs Hshape.
  destruct Hshape as [r Hr|e|r0 r Hr0 Hr|r0 e Hr0|r0 r Hr0 Hr];
    (split; [eauto|split; [|split; [|split]]]).
  - (* HEAD answered with success *)
    intros a [[=]|[]].
  - intros r0 rest [= <- <-]. split; [congruence|reflexivity].
  - intros e rest [=].
  - intros m r' [[= <- <-]|[]] Hok. split; [auto|]. split; reflexivity.
  - (* HEAD fails without a response *)
    intros a [[=]|[]].
  - intros r0 rest [=].
  - intros e' rest [= _ <-]. reflexivity.
  - intros m r' [[=]|[]].
  - (* HEAD not successful, GET answered with success *)
    intros a [[=]|[[= <-]|[]]]. eauto.
  - intros r0' rest [= <- <-]. split; [eauto|congruence].
  - intros e rest [=].
  - intros m r' [[= <- <-]|[[= <- <-]|[]]] Hok; [congruence|].
    split; [auto|]. split; reflexivity.
  - (* HEAD not successful, GET fails without a response *)
    intros a [[=]|[[= <-]|[]]]. eauto.
  - intros r0' rest [= <- <-]. split; [eauto|congruence].
  - intros e' rest [=].
  - intros m r' [[= <- <-]|[[=]|[]]] Hok. congruence.
  - (* HEAD not successful, GET answered without success *)
    intros a [[=]|[[= <-]|[]]]. eauto.
  - intros r0' rest [= <- <-]. split; [eauto|congruence].
  - intros e rest [=].
  - intros m r' [[= <- <-]|[[= <- <-]|[]]] Hok; congruence.
Qed.

End Probing.

Section Retrying.

Import CheckExternalLinks.

Context {W : Type} (h : handler W).
Variables (u : jsstring) (src : Source) (timeout : Z).

Lemma backoff_run (attempt : Z) (st : locals) (w : W) :
  result_of h (backoff attempt st) w =
    Returned (if (0 <? attempt)%Z
              then MkLocals (lastError st) (lastStatusCode st) (used st + 1)
              else st) /\
  sleeps (trace_of h (backoff attempt st) w) =
    (if (0 <? attempt)%Z then [delayFor attempt] else []) /\
  fetches (trace_of h (backoff attempt st) w) = [].
Proof.
  unfold backoff, sleep, result_of, trace_of.
  destruct (0 <? attempt)%Z; cbn; auto.
Qed.

Lemma sleeps_app (a b : list event) : sleeps (a ++ b) = sleeps a ++ sleeps b.
Proof. unfold sleeps. apply omap_app. Qed.

Lemma fetches_app (a b : list event) : fetches (a ++ b) = fetches a ++ fetches b.
Proof. unfold fetches. apply omap_app. Qed.

(** What one iteration of the loop does, from the course of its attempt. *)
Lemma attempts_step (n : nat) (attempt : Z) (st : locals) (w : W) :
  let st1 := if (0 <? attempt)%Z
             then MkLocals (lastError st) (lastStatusCode st) (used st + 1)
             else st in
  let w1 := snd (run h (backoff attempt st) w) in
  let wait := if (0 <? attempt)%Z then [delayFor attempt] else [] in
  exists r,
    probeShape u src st1 (fetches (trace_of h (probe u src timeout st1) w1)) r /\
    match r with
    | inl res =>
        result_of h (attempts u src timeout (S n) attempt st) w = Returned res /\
        sleeps (trace_of h (attempts u src timeout (S n) attempt st) w) = wait /\
        fetches (trace_of h (attempts u src timeout (S n) attempt st) w)
          = fetches (trace_of h (probe u src timeout st1) w1)
    | inr st2 =>
        let w2 := snd (run h (probe u src timeout st1) w1) in
        result_of h (attempts u src timeout (S n) attempt st) w
          = result_of h (attempts u src timeout n (attempt + 1) st2) w2 /\
        sleeps (trace_of h (attempts u src timeout (S n) attempt st) w)
          = wait ++ sleeps (trace_of h (attempts u src timeout n (attempt + 1) st2) w2) /\
        fetches (trace_of h (attempts u src timeout (S n) attempt st) w)
          = fetches (trace_of h (probe u src timeout st1) w1)
            ++ fetches (trace_of h (attempts u src timeout n (attempt + 1) st2) w2)
    end.
Proof.
  intros st1 w1 wait.
  destruct (backoff_run attempt st w) as (Hb & Hbs & Hbf).
  destruct (probe_run h u src timeout st1 w1) as (r & Hp & Hshape & Hps).
  exists r. split; [exact Hshape|].
  cbn [attempts].
  rewrite result_bind, trace_bind, Hb. fold st1 w1.
  rewrite result_bind, trace_bind, Hp.
  rewrite !sleeps_app, !fetches_app, Hbs, Hbf, Hps. fold wait.
  destruct r as [res|st2]; cbn [app].
  - unfold result_of, trace_of. cbn. rewrite !app_nil_r. auto.
  - auto.
Qed.

Lemma ok_range (r : Response) : ok r = true -> (200 <= status r <= 299)%Z.
Proof.
  unfold ok. intros H. apply andb_true_iff in H as [H1 H2].
  apply Z.leb_le in H1, H2. lia.
Qed.

Lemma attempts_wellFormed (n : nat) :
  forall (attempt : Z) (st : locals) (w : W),
    (0 <= attempt)%Z -> used st = Z.max 0 (attempt - 1) ->
    exists res,
      result_of h (attempts u src timeout n attempt st) w = Returned res /\
      wellFormed (Z.max 0 (attempt + Z.of_nat n - 1)) res.
Proof.
  induction n as [|n IH]; intros attempt st w Ha Hused.
  - exists (exhausted u src st). split; [reflexivity|].
    split; [cbn; lia|cbn; discriminate].
  - destruct (attempts_step n attempt st w) as (r & Hshape & Hr).
    set (st1 := if (0 <? attempt)%Z
                then MkLocals (lastError st) (lastStatusCode st) (used st + 1)
                else st) in *.
    assert (Hst1 : used st1 = attempt).
    { unfold st1. destruct (0 <? attempt)%Z eqn:E; cbn.
      - apply Z.ltb_lt in E. lia.
      - apply Z.ltb_ge in E. lia. }
    clearbody st1.
    destruct r as [res|st2].
    + destruct Hr as (Hres & _). exists res. split; [exact Hres|].
      inversion Hshape; subst; (split; [cbn; lia|]); cbn; intros _;
        eexists; (split; [reflexivity|]); auto using ok_range.
    + destruct Hr as (Hres & _). rewrite Hres.
      assert (Hst2 : used st2 = attempt).
      { rewrite <- Hst1. inversion Hshape; reflexivity. }
      destruct (IH (attempt + 1)%Z st2
                  (snd (run h (probe u src timeout st1) (snd (run h (backoff attempt st) w)))))
        as (res & Hres' & Hwf); [lia|lia|].
      exists res. split; [exact Hres'|].
      replace (attempt + Z.of_nat (S n) - 1)%Z with (attempt + 1 + Z.of_nat n - 1)%Z by lia.
      exact Hwf.
Qed.

(** C9.  For a retry count that is not negative, [validateUrl] returns a
    result in every environment, with at most that many retries used; a
    successful result carries a status code between 200 and 299 and no
    error message. *)
Theorem validateUrl_wellFormed (maxRetries : Z) (w : W) :
  (0 <= maxRetries)%Z ->
  exists res,
    result_of h (validateUrl u src timeout maxRetries) w = Returned res /\
    (retriesUsed res <= maxRetries)%Z /\
    (success res = true ->
     exists c, statusCode res = Some c /\ (200 <= c <= 299)%Z /\ error res = None).
Proof.
  intros Hmax. unfold validateUrl.
  destruct (attempts_wellFormed (Z.to_nat (maxRetries + 1)) 0%Z (MkLocals [] None 0) w)
    as (res & Hres & Hle & Hok); [lia|reflexivity|].
  exists res. split; [exact Hres|]. split; [|exact Hok].
  rewrite Z2Nat.id in Hle by lia. lia.
Qed.

End Retrying.

Lemma validateUrl_wellFormed_witness :
  exists res,
    result_of scripted
      (CheckExternalLinks.validateUrl docsUrl skillSource
         CheckExternalLinks.TIMEOUT_MS CheckExternalLinks.MAX_RETRIES)
      [Rejected timeoutError; Resolved (MkResponse 200 (str "OK"))] = Returned res /\
    (CheckExternalLinks.retriesUsed res <= CheckExternalLinks.MAX_RETRIES)%Z /\
    (CheckExternalLinks.success res = true ->
     exists c, CheckExternalLinks.statusCode res = Some c /\ (200 <= c <= 299)%Z /\
               CheckExternalLinks.error res = None).
Proof.
  apply (validateUrl_wellFormed scripted). unfold CheckExternalLinks.MAX_RETRIES. lia.
Defined.

Section Exhausting.

Import CheckExternalLinks.

Context {W : Type} (h : handler W).
Variables (u : jsstring) (src : Source) (timeout : Z).

Lemma attempts_all_fail (n : nat) :
  forall (attempt : Z) (st : locals) (w : W),
    (0 <= attempt)%Z -> used st = Z.max 0 (attempt - 1) ->
    noSuccess (trace_of h (attempts u src timeout n attempt st) w) ->
    exists res,
      result_of h (attempts u src timeout n attempt st) w = Returned res /\
      success res = false /\
      retriesUsed res = Z.max 0 (attempt + Z.of_nat n - 1) /\
      sleeps (trace_of h (attempts u src timeout n attempt st) w) = waits attempt n.
Proof.
  induction n as [|n IH]; intros attempt st w Ha Hused Hno.
  - exists (exhausted u src st). repeat split. cbn. lia.
  - destruct (attempts_step h u src timeout n attempt st w) as (r & Hshape & Hr).
    set (st1 := if (0 <? attempt)%Z
                then MkLocals (lastError st) (lastStatusCode st) (used st + 1)
                else st) in *.
    assert (Hst1 : used st1 = attempt).
    { unfold st1. destruct (0 <? attempt)%Z eqn:E; cbn.
      - apply Z.ltb_lt in E. lia.
      - apply Z.ltb_ge in E. lia. }
    clearbody st1.
    unfold noSuccess in Hno.
    destruct r as [res|st2].
    + (* a successful attempt contradicts the hypothesis *)
      destruct Hr as (_ & _ & Hf). rewrite Hf in Hno.
      exfalso. revert Hshape Hno.
      generalize (fetches (trace_of h (probe u src timeout st1)
                             (snd (run h (backoff attempt st) w)))).
      intros fs Hshape Hno.
      inversion Hshape; subst;
        match goal with
        | Hk : ok ?r = true |- _ =>
            first [ specialize (Hno HEAD r (or_introl eq_refl))
                  | specialize (Hno GET r (or_intror (or_introl eq_refl))) ];
            congruence
        end.
    + destruct Hr as (Hres & Hsl & Hf). rewrite Hres, Hsl.
      assert (Hst2 : used st2 = attempt).
      { rewrite <- Hst1. inversion Hshape; reflexivity. }
      destruct (IH (attempt + 1)%Z st2
                  (snd (run h (probe u src timeout st1) (snd (run h (backoff attempt st) w)))))
        as (res & Hres' & Hfail & Hn & Hsl'); [lia|lia| |].
      { intros m r Hin. apply (Hno m r). rewrite Hf. apply in_or_app. right. exact Hin. }
      exists res. split; [exact Hres'|]. split; [exact Hfail|]. split; [rewrite Hn; lia|].
      rewrite Hsl'. unfold waits. cbn [attemptsFrom List.filter].
      destruct (0 <? attempt)%Z; reflexivity.
Qed.

(** C3, as the script has it.  When every attempt on a URL fails, with the
    default retry count [validateUrl] returns a failure with [retriesUsed]
    equal to [MAX_RETRIES], having waited exactly the first [MAX_RETRIES]
    delays of [RETRY_DELAYS], 100 and 200 milliseconds, 300 in all; the
    third delay is not reached. *)
Theorem validateUrl_exhausted (w : W) :
  noSuccess (trace_of h (validateUrl u src timeout MAX_RETRIES) w) ->
  exists res,
    result_of h (validateUrl u src timeout MAX_RETRIES) w = Returned res /\
    success res = false /\
    retriesUsed res = MAX_RETRIES /\
    sleeps (trace_of h (validateUrl u src timeout MAX_RETRIES) w)
      = firstn (Z.to_nat MAX_RETRIES) RETRY_DELAYS /\
    total (sleeps (trace_of h (validateUrl u src timeout MAX_RETRIES) w)) = 300%Z.
Proof.
  intros Hno. unfold validateUrl in *.
  destruct (attempts_all_fail (Z.to_nat (MAX_RETRIES + 1)) 0%Z (MkLocals [] None 0) w)
    as (res & Hres & Hfail & Hn & Hsl); [lia|reflexivity|exact Hno|].
  exists res. rewrite Hsl. repeat split; assumption.
Qed.

End Exhausting.

Lemma validateUrl_exhausted_witness :
  exists res,
    result_of scripted
      (CheckExternalLinks.validateUrl docsUrl skillSource
         CheckExternalLinks.TIMEOUT_MS CheckExternalLinks.MAX_RETRIES) [] = Returned res /\
    CheckExternalLinks.success res = false /\
    CheckExternalLinks.retriesUsed res = CheckExternalLinks.MAX_RETRIES /\
    sleeps (trace_of scripted
      (CheckExternalLinks.validateUrl docsUrl skillSource
         CheckExternalLinks.TIMEOUT_MS CheckExternalLinks.MAX_RETRIES) [])
      = firstn (Z.to_nat CheckExternalLinks.MAX_RETRIES) CheckExternalLinks.RETRY_DELAYS /\
    total (sleeps (trace_of scripted
      (CheckExternalLinks.validateUrl docsUrl skillSource
         CheckExternalLinks.TIMEOUT_MS CheckExternalLinks.MAX_RETRIES) [])) = 300%Z.
Proof.
  apply (validateUrl_exhausted scripted).
  intros m r. vm_compute. intros [H|[H|[H|[]]]]; discriminate.
Defined.

(** C3, as claimed, fails: for a URL whose every attempt times out, the
    waits add up to 300 milliseconds, less than the sum of the three
    entries of [RETRY_DELAYS]. *)
Lemma validateUrl_waits_less_than_all_delays :
  let tr := trace_of scripted
              (CheckExternalLinks.validateUrl docsUrl skillSource
                 CheckExternalLinks.TIMEOUT_MS CheckExternalLinks.MAX_RETRIES) [] in
  noSuccess tr /\
  fetches tr = [(HEAD, Rejected timeoutError); (HEAD, Rejected timeoutError);
                (HEAD, Rejected timeoutError)] /\
  ~ (total CheckExternalLinks.RETRY_DELAYS <= total (sleeps tr))%Z.
Proof.
  split; [|split].
  - intros m r. vm_compute. intros [H|[H|[H|[]]]]; discriminate.
  - vm_compute. reflexivity.
  - vm_compute. intros H. apply H. reflexivity.
Qed.

Section Recovering.

Import CheckExternalLinks.

Context {W : Type} (h : handler W).
Variables (u : jsstring) (src : Source) (timeout : Z).





End Recovering.


(* ===================================================================== *)
(** ** Internal links                                                     *)
(* ===================================================================== *)

Section InternalLinks.

Import CheckLinks.

Lemma list_eqb_eq (a b : jsstring) : list_eqb a b = true <-> a = b.
Proof.
  revert b. induction a as [|x a IH]; intros [|y b]; simpl; split;
    try discriminate; try reflexivity.
  - intros H. apply andb_true_iff in H as [H1 H2].
    apply N.eqb_eq in H1. apply IH in H2. congruence.
  - intros [= -> ->]. rewrite N.eqb_refl. apply IH. reflexivity.
Qed.

Lemma arrayIncludes_In (l : list jsstring) (x : jsstring) :
  arrayIncludes l x = true <-> In x l.
Proof.
  unfold arrayIncludes. rewrite existsb_exists. split.
  - intros (y & Hy & Heq). apply list_eqb_eq in Heq. subst. exact Hy.
  - intros H. exists x. split; [exact H|]. apply list_eqb_eq. reflexivity.
Qed.

Lemma arrayIncludes_not_In (l : list jsstring) (x : jsstring) :
  arrayIncludes l x = false <-> ~ In x l.
Proof.
  rewrite <- arrayIncludes_In. destruct (arrayIncludes l x); split; intros H;
    try discriminate; try reflexivity; try congruence; try tauto.
Qed.

(** The errors of one link: none, or the error of a missing [.md] file. *)
Lemma checkLink_cases (ruleFiles : list jsstring) (f l : jsstring) :
  (checkLink ruleFiles f l = [] /\
   (isInternalLink l = false \/ endsWith l (str ".md") = false \/
    In (basename l) ruleFiles))
  \/
  (checkLink ruleFiles f l
     = [MkLinkError f l (str "Referenced file does not exist: " ++ basename l)] /\
   isInternalLink l = true /\ endsWith l (str ".md") = true /\
   ~ In (basename l) ruleFiles).
Proof.
  unfold checkLink.
  destruct (isInternalLink l); [|left; auto].
  destruct (endsWith l (str ".md")).
  - destruct (arrayIncludes ruleFiles (basename l)) eqn:E; cbn [negb].
    + left. split; [reflexivity|]. right. right. apply arrayIncludes_In. exact E.
    + right. repeat split. apply arrayIncludes_not_In. exact E.
  - left. split; [|auto].
    destruct (startsWith l (str "#")); [|reflexivity].
    destruct (matchHere false anchorRegex None l); [|reflexivity].
    match goal with |- (if ?c then _ else _) = _ => destruct c; reflexivity end.
Qed.

(** C5, as the script has it.  For an internal link of a rule file that
    ends in [.md], a violation is reported for that link, under the name of
    the file holding it, exactly when the last path component of the link
    is not the name of a [.md] file of the rules directory. *)
Theorem md_link_reported_iff_missing (ruleFiles : list jsstring) (f content l : jsstring) :
  In l (extractLinks content) ->
  isInternalLink l = true ->
  endsWith l (str ".md") = true ->
  ((exists e, In e (scanFile ruleFiles f content) /\ link e = l /\ file e = f)
   <-> ~ In (basename l) ruleFiles).
Proof.
  intros Hin Hint Hmd. unfold scanFile. split.
  - intros (e & He & Hl & _). apply in_flat_map in He as (l' & _ & He).
    destruct (checkLink_cases ruleFiles f l') as [[Hnil _]|(Herr & _ & _ & Hmiss)].
    + rewrite Hnil in He. destruct He.
    + rewrite Herr in He. destruct He as [<-|[]]. cbn in Hl. subst l'. exact Hmiss.
  - intros Hmiss.
    destruct (checkLink_cases ruleFiles f l) as [[_ [H|[H|H]]]|(Herr & _)];
      try congruence; try contradiction.
    eexists. split; [|split].
    + apply in_flat_map. exists l. split; [exact Hin|]. rewrite Herr. left. reflexivity.
    + reflexivity.
    + reflexivity.
Qed.

(** C10, as the script has it.  Every reported violation is for an
    internal link that ends in [.md] and whose last path component is not a
    rule file; an anchor link that does not end in [.md] is never reported,
    whatever the rule files are. *)
Theorem only_md_links_reported (ruleFiles : list jsstring) (f content : jsstring) :
  (forall e, In e (scanFile ruleFiles f content) ->
     isInternalLink (link e) = true /\ endsWith (link e) (str ".md") = true /\
     ~ In (basename (link e)) ruleFiles) /\
  (forall l, startsWith l (str "#") = true -> endsWith l (str ".md") = false ->
     checkLink ruleFiles f l = []).
Proof.
  split.
  - intros e He. unfold scanFile in He. apply in_flat_map in He as (l & _ & He).
    destruct (checkLink_cases ruleFiles f l) as [[Hnil _]|(Herr & H1 & H2 & H3)].
    + rewrite Hnil in He. destruct He.
    + rewrite Herr in He. destruct He as [<-|[]]. cbn. auto.
  - intros l _ Hmd.
    destruct (checkLink_cases ruleFiles f l) as [[Hnil _]|(_ & _ & H & _)];
      [exact Hnil|congruence].
Qed.

End InternalLinks.

Lemma md_link_reported_iff_missing_witness :
  (exists e,
     In e (CheckLinks.scanFile [str "a.md"] (str "a.md") (str "see [b](./b.md)")) /\
     CheckLinks.link e = str "./b.md" /\ CheckLinks.file e = str "a.md")
  <-> ~ In (CheckLinks.basename (str "./b.md")) [str "a.md"].
Proof.
  apply (md_link_reported_iff_missing [str "a.md"] (str "a.md") (str "see [b](./b.md)")
           (str "./b.md")).
  - vm_compute. left. reflexivity.
  - reflexivity.
  - reflexivity.
Defined.

(** C5, as claimed, fails: the internal link [data.csv] ends in a file
    extension and no file of that name is in the rule set, yet no violation
    is reported for it. *)
Lemma csv_link_not_reported :
  let ruleFiles := [str "a.md"] in
  let content := str "see [data](data.csv)" in
  let l := str "data.csv" in
  In l (CheckLinks.extractLinks content) /\
  CheckLinks.isInternalLink l = true /\
  endsInExtension l = true /\
  ~ ((exists e, In e (CheckLinks.scanFile ruleFiles (str "a.md") content)
                /\ CheckLinks.link e = l)
     <-> ~ In l ruleFiles).
Proof.
  split; [vm_compute; left; reflexivity|].
  split; [reflexivity|]. split; [reflexivity|].
  intros [_ H].
  destruct H as (e & He & _).
  - intros [H|[]]. vm_compute in H. discriminate.
  - vm_compute in He. exact He.
Qed.

(** C10, as claimed, fails: the anchor link [#intro.md] begins with [#]
    and a violation is reported for it. *)
Lemma anchor_link_reported :
  let l := str "#intro.md" in
  startsWith l (str "#") = true /\
  CheckLinks.scanFile [str "a.md"] (str "a.md") (str "see [intro](#intro.md)")
  = [CheckLinks.MkLinkError (str "a.md") l
       (str "Referenced file does not exist: #intro.md")].
Proof. vm_compute. split; reflexivity. Qed.

(** The script as a whole, on a directory of one file with a link to a
    file that does not exist, a link to itself and a section anchor: the
    missing file is reported and the process ends with status 1; without
    the broken link the script returns normally. *)
Example checkLinks_run :
  let broken := [(str "a.md", str "see [b](./b.md), [a](a.md) and [s](#1-schema)")] in
  let sound := [(str "a.md", str "see [a](a.md) and [s](#1-schema)")] in
  result_of (disk broken) (CheckLinks.checkLinks (str "rules")) tt = Exited 1 /\
  In (Console ErrorLevel [VStr (str "    Link: ./b.md")])
     (requests (trace_of (disk broken) (CheckLinks.checkLinks (str "rules")) tt)) /\
  In (Console ErrorLevel [VStr (str "    Referenced file does not exist: b.md")])
     (requests (trace_of (disk broken) (CheckLinks.checkLinks (str "rules")) tt)) /\
  result_of (disk sound) (CheckLinks.checkLinks (str "rules")) tt = Returned tt.
Proof. vm_compute. repeat split; tauto. Qed.

(* ===================================================================== *)
(** ** The compiler: two builds of the same inputs                        *)
(* ===================================================================== *)

Section Determinism.

Import Build.

Lemma str_leb_total (a b : jsstring) : str_leb a b = true \/ str_leb b a = true.
Proof.
  revert b. induction a as [|x a IH]; intros [|y b]; simpl; auto.
  destruct (N.ltb_spec x y), (N.ltb_spec y x), (N.eqb_spec x y), (N.eqb_spec y x);
    auto; try lia; try congruence.
Qed.

Lemma str_leb_trans (a b c : jsstring) :
  str_leb a b = true -> str_leb b c = true -> str_leb a c = true.
Proof.
  revert b c. induction a as [|x a IH]; intros [|y b] [|z c]; simpl; auto;
    try discriminate.
  destruct (N.ltb_spec x y), (N.ltb_spec y z), (N.ltb_spec x z),
    (N.eqb_spec x y), (N.eqb_spec y z), (N.eqb_spec x z);
    try discriminate; auto; try lia; eauto.
Qed.

Lemma str_leb_antisym (a b : jsstring) :
  str_leb a b = true -> str_leb b a = true -> a = b.
Proof.
  revert b. induction a as [|x a IH]; intros [|y b]; simpl; auto;
    try discriminate.
  destruct (N.ltb_spec x y), (N.ltb_spec y x), (N.eqb_spec x y), (N.eqb_spec y x);
    try discriminate; try lia; try congruence.
  intros H1 H2. subst. f_equal. auto.
Qed.

#[local] Instance rule_le_total : Total rule_le.
Proof. intros a b. apply str_leb_total. Qed.

#[local] Instance rule_le_trans : Transitive rule_le.
Proof. intros a b c. apply str_leb_trans. Qed.

#[local] Instance section_le_total : Total section_le.
Proof. intros a b. unfold section_le. lia. Qed.

#[local] Instance section_le_trans : Transitive section_le.
Proof. intros a b c. unfold section_le. lia. Qed.

(** Two listings of the same elements sort to the same list, when the
    order tells the listed elements apart. *)
Lemma merge_sort_listing {A : Type} (R : relation A)
    `{!forall x y, Decision (R x y)} `{!Total R} `{!Transitive R} (l1 l2 : list A) :
  (forall x y, In x l1 -> In y l1 -> R x y -> R y x -> x = y) ->
  Permutation l1 l2 ->
  merge_sort R l1 = merge_sort R l2.
Proof.
  intros Hsep Hperm.
  apply (StronglySorted_unique_strong R).
  - intros x y Hx Hy. apply Hsep.
    + apply list_elem_of_In. rewrite <- (merge_sort_Permutation R l1). exact Hx.
    + apply list_elem_of_In. rewrite Hperm, <- (merge_sort_Permutation R l2). exact Hy.
  - apply StronglySorted_merge_sort; assumption.
  - apply StronglySorted_merge_sort; assumption.
  - rewrite !merge_sort_Permutation. exact Hperm.
Qed.

Lemma NoDup_map_eq {A B : Type} (f : A -> B) (l : list A) (x y : A) :
  List.NoDup (map f l) -> In x l -> In y l -> f x = f y -> x = y.
Proof.
  induction l as [|a l IH]; simpl; [tauto|].
  intros Hnd Hx Hy Hf. inversion Hnd as [|? ? Hnotin Hnd']; subst.
  destruct Hx as [<-|Hx], Hy as [<-|Hy]; auto.
  - exfalso. apply Hnotin. rewrite Hf. apply in_map. exact Hy.
  - exfalso. apply Hnotin. rewrite <- Hf. apply in_map. exact Hx.
Qed.

Lemma existsb_listing {A : Type} (p q : A -> bool) (l1 l2 : list A) :
  (forall x, p x = q x) -> Permutation l1 l2 -> existsb p l1 = existsb q l2.
Proof.
  intros Hpq Hperm.
  destruct (existsb q l2) eqn:E.
  - apply existsb_exists in E as (x & Hx & Hq). apply existsb_exists.
    exists x. split; [|rewrite Hpq; exact Hq].
    apply (Permutation_in x (Permutation_sym Hperm) Hx).
  - destruct (existsb p l1) eqn:E'; [|reflexivity].
    apply existsb_exists in E' as (x & Hx & Hp).
    assert (existsb q l2 = true) as E2.
    { apply existsb_exists. exists x. split; [|rewrite <- Hpq; exact Hp].
      apply (Permutation_in x Hperm Hx). }
    congruence.
Qed.

Variable renderHeader : Metadata -> jsstring.
Variable renderSection : Section_ -> jsstring.
Variable renderTocEntry : jsstring -> Rule -> jsstring.
Variable renderRule : jsstring -> Rule -> jsstring.

Lemma compile_listing (ss ss' : list Section_) (rs rs' : list Rule) (m : Metadata) :
  List.NoDup (map id rs) -> List.NoDup (map rank ss) ->
  Permutation rs rs' -> Permutation ss ss' ->
  compile renderHeader renderSection renderTocEntry renderRule ss rs m
  = compile renderHeader renderSection renderTocEntry renderRule ss' rs' m.
Proof.
  intros Hids Hranks Hrs Hss. unfold compile.
  assert (Horphan : existsb (isOrphan ss) rs = existsb (isOrphan ss') rs').
  { apply existsb_listing; [|exact Hrs].
    intros r. unfold isOrphan. f_equal. apply existsb_listing; [reflexivity|exact Hss]. }
  rewrite Horphan.
  assert (Hsortr : merge_sort rule_le rs = merge_sort rule_le rs').
  { apply (merge_sort_listing rule_le rs rs'); [|exact Hrs].
    intros x y Hx Hy Hxy Hyx. apply (NoDup_map_eq id rs); auto.
    apply str_leb_antisym; assumption. }
  assert (Hsorts : merge_sort section_le ss = merge_sort section_le ss').
  { apply (merge_sort_listing section_le ss ss'); [|exact Hss].
    intros x y Hx Hy Hxy Hyx. apply (NoDup_map_eq rank ss); auto.
    unfold section_le in *. lia. }
  rewrite Hsortr, Hsorts. reflexivity.
Qed.

(** C8.  A build without the upgrade mode leaves the store as it found it,
    and a second build from that store, in whatever order the directory
    and the metadata file list the same rules and sections, produces the
    same document (or the same orphan-rule error). *)
Theorem build_twice_identical (st relisted : Store) :
  List.NoDup (map id (rules st)) ->
  List.NoDup (map rank (sections st)) ->
  Permutation (rules (snd (build renderHeader renderSection renderTocEntry renderRule
                             false st))) (rules relisted) ->
  Permutation (sections (snd (build renderHeader renderSection renderTocEntry renderRule
                                false st))) (sections relisted) ->
  metadata relisted
    = metadata (snd (build renderHeader renderSection renderTocEntry renderRule false st)) ->
  snd (build renderHeader renderSection renderTocEntry renderRule false st) = st /\
  fst (build renderHeader renderSection renderTocEntry renderRule false relisted)
  = fst (build renderHeader renderSection renderTocEntry renderRule false st).
Proof.
  intros Hids Hranks Hrs Hss Hm.
  split; [destruct st; reflexivity|].
  cbn [build fst snd rules sections metadata] in *.
  rewrite Hm. symmetry. apply compile_listing; assumption.
Qed.

(** Only the upgrade mode writes: it raises the patch number by one. *)
Lemma build_upgrade_bumps (st : Store) :
  version (metadata (snd (build renderHeader renderSection renderTocEntry renderRule
                            true st)))
  = MkVersion (major (version (metadata st))) (minor (version (metadata st)))
              (patch (version (metadata st)) + 1).
Proof. reflexivity. Qed.

End Determinism.

Example sample_document :
  fst (Sample.build false Sample.store)
  = Some (str "v0.2.0;(1.1 schema-json-when)(1.2 schema-pk-plan)(2.1 query-join-filter)[1 Schema]<1.1 JSON><1.2 Plan>[2 Query]<2.1 Filter>").
Proof. vm_compute. reflexivity. Qed.

Example sample_orphan :
  Build.compile Sample.header Sample.sectionHeading Sample.tocEntry Sample.ruleBody
    (Build.sections Sample.store) [Sample.rule "insert-batch-size" "Batch"]
    (Build.metadata Sample.store)
  = None.
Proof. vm_compute. reflexivity. Qed.

Lemma build_twice_identical_witness :
  snd (Sample.build false Sample.store) = Sample.store /\
  fst (Sample.build false Sample.relisted) = fst (Sample.build false Sample.store).
Proof.
  apply (build_twice_identical Sample.header Sample.sectionHeading Sample.tocEntry
           Sample.ruleBody Sample.store Sample.relisted).
  - repeat constructor; simpl; intuition discriminate.
  - repeat constructor; simpl; intuition discriminate.
  - apply Permutation_rev.
  - apply Permutation_rev.
  - reflexivity.
Defined.

(* ===================================================================== *)
(** * Further properties of the scripts                                  *)
(* ===================================================================== *)

(* ===================================================================== *)
(** ** What the scripts may do                                            *)
(* ===================================================================== *)

Section ConfinedLemmas.

Variables (P : request -> Prop) (Q : Z -> Prop).

Lemma Confined_mono {A : Type} (P' : request -> Prop) (Q' : Z -> Prop)
    (T T' : JsError -> Prop) (R R' : A -> Prop) (m : io A) :
  (forall r, P' r -> P r) -> (forall c, Q' c -> Q c) ->
  (forall e, T e -> T' e) -> (forall a, R a -> R' a) ->
  Confined P' Q' T R m -> Confined P Q T' R' m.
Proof.
  intros HP HQ HT HR H. induction H; constructor; auto.
Qed.

Lemma Confined_bind {A B : Type} (T : JsError -> Prop) (R : A -> Prop) (R' : B -> Prop)
    (m : io A) (f : A -> io B) :
  Confined P Q T R m -> (forall a, R a -> Confined P Q T R' (f a)) ->
  Confined P Q T R' (bind m f).
Proof.
  intros H Hf. induction H; cbn [bind]; try constructor; auto.
Qed.

Lemma Confined_tryCatch {A : Type} (T0 T : JsError -> Prop) (R : A -> Prop)
    (m : io A) (f : JsError -> io A) :
  Confined P Q T0 R m -> (forall e, T0 e -> Confined P Q T R (f e)) ->
  Confined P Q T R (tryCatch m f).
Proof.
  intros H Hf. induction H; cbn [tryCatch]; try constructor; auto.
Qed.

Lemma Confined_finally {A : Type} (T : JsError -> Prop) (R : A -> Prop)
    (m : io A) (f : io unit) :
  Confined P Q T R m -> Confined P Q T anyValue f ->
  Confined P Q T R (finally m f).
Proof.
  intros H Hf. induction H; cbn [finally].
  - apply (Confined_bind T anyValue R f); [exact Hf|]. intros _ _. constructor. assumption.
  - apply (Confined_bind T anyValue R f); [exact Hf|]. intros _ _. constructor. assumption.
  - constructor. assumption.
  - constructor; auto.
Qed.

Lemma Confined_ask (T : JsError -> Prop) (r : request) :
  P r -> Confined P Q T anyValue (ask r).
Proof. intros H. constructor; [exact H|]. intros x. constructor. exact I. Qed.

(** [await] of a request that may be refused. *)
Lemma Confined_await {A : Type} (r : request) (f : answer r -> settled A) :
  P r -> Confined P Q anyError anyValue (bind (ask r) (fun x => settle (f x))).
Proof.
  intros H. cbn [ask bind]. constructor; [exact H|]. intros x.
  destruct (f x); constructor; exact I.
Qed.

Lemma Confined_console (T : JsError -> Prop) (l : level) (args : list jsval) :
  P (Console l args) -> Confined P Q T anyValue (console l args).
Proof. apply Confined_ask. Qed.

(** What a confined script does in an environment. *)
Lemma Confined_run {A W : Type} (T : JsError -> Prop) (R : A -> Prop)
    (m : io A) (h : handler W) (w : W) :
  Confined P Q T R m ->
  Forall P (requests (trace_of h m w)) /\
  match result_of h m w with
  | Returned a => R a
  | Thrown e => T e
  | Exited c => Q c
  end.
Proof.
  intros H. revert w. unfold trace_of, result_of.
  induction H as [a Ha|e He|c Hc|r k Hr Hk IH]; intros w; cbn [run fst snd].
  - split; [constructor|exact Ha].
  - split; [constructor|exact He].
  - split; [constructor|exact Hc].
  - destruct (IH (fst (h r w)) (snd (h r w))) as [H1 H2].
    split; [|exact H2].
    cbn [requests map requestOf projT1]. apply List.Forall_cons; assumption.
Qed.

End ConfinedLemmas.

(* ===================================================================== *)
(** ** The SQL validator as a whole                                       *)
(* ===================================================================== *)

Section ValidatorConfined.

Variables RULES_DIR BUILD_DIR : jsstring.

Import ValidateSql.

Lemma pinned_macos : In (releaseUrl ++ str "/clickhouse-macos") pinnedUrls.
Proof. left. reflexivity. Qed.

Lemma pinned_linux : In (releaseUrl ++ str "/clickhouse") pinnedUrls.
Proof. right. left. reflexivity. Qed.

Lemma skeleton_validator (r : request) :
  skeletonRequest RULES_DIR BUILD_DIR r -> validatorRequest RULES_DIR BUILD_DIR r.
Proof. destruct r; cbn; try tauto. intros H. left. exact H. Qed.

(** One snippet, in the script with the deny-list: only the write of the
    temporary file can fail the call. *)
Lemma validateSQL_confined (sql : jsstring) :
  Confined (validatorRequest RULES_DIR BUILD_DIR) noExit anyError anyValue
    (validateSQL BUILD_DIR sql).
Proof.
  unfold validateSQL.
  destruct (truthyOpt (containsDangerousPatterns sql)); [constructor; exact I|].
  cbn [ask bind]. constructor; [exact I|]. intros tmp.
  constructor; [exact I|]. intros now.
  constructor; [cbn; eauto|]. intros [[]|e]; cbn [settle bind]; [|constructor; exact I].
  apply Confined_finally.
  - apply (Confined_tryCatch _ noExit anyError).
    + constructor.
      { right. left. eexists. split; [reflexivity|]. apply engineCommand_restricted. }
      intros [out|e]; cbn [settle bind]; constructor; exact I.
    + intros e _. constructor. exact I.
  - unfold cleanup. apply (Confined_tryCatch _ noExit anyError).
    + cbn [ask bind]. constructor; [right; right; eauto|].
      intros [out|e]; cbn [settle bind]; constructor; exact I.
    + intros e _. constructor. exact I.
Qed.

(** The rest of the script, for requests [P] that include its own and
    those of [validate]. *)
Section Skeleton.

Variable P : request -> Prop.
Hypothesis skeleton_allowed : forall r, skeletonRequest RULES_DIR BUILD_DIR r -> P r.

Variable validate : jsstring -> io (option jsstring).
Hypothesis validate_confined :
  forall sql, Confined P noExit anyError anyValue (validate sql).

Lemma download_confined (u : jsstring) :
  In u pinnedUrls ->
  Confined P noExit noError anyValue (download BUILD_DIR u).
Proof using skeleton_allowed.
  intros Hu. unfold download.
  apply (Confined_tryCatch P noExit anyError).
  - apply (Confined_bind P noExit anyError anyValue).
    { apply (Confined_await P noExit (Mkdir _) (fun x => x)).
      apply skeleton_allowed. reflexivity. }
    intros _ _.
    apply (Confined_bind P noExit anyError anyValue).
    { apply (Confined_await P noExit (ExecAsync _) (fun x => x)).
      apply skeleton_allowed. exists u. auto. }
    intros _ _.
    apply (Confined_bind P noExit anyError anyValue).
    { apply (Confined_await P noExit (Chmod _ _) (fun x => x)).
      apply skeleton_allowed. reflexivity. }
    intros _ _.
    apply (Confined_bind P noExit anyError anyValue).
    { apply Confined_console. apply skeleton_allowed. exact I. }
    intros _ _. constructor. exact I.
  - intros e _.
    apply (Confined_bind P noExit noError anyValue).
    { apply Confined_console. apply skeleton_allowed. exact I. }
    intros _ _. constructor. exact I.
Qed.

Lemma ensureClickHouse_confined :
  Confined P noExit noError anyValue (ensureClickHouse BUILD_DIR).
Proof using skeleton_allowed.
  unfold ensureClickHouse. cbn [ask bind].
  constructor; [apply skeleton_allowed; reflexivity|].
  intros [[]|e].
  - apply (Confined_bind P noExit noError anyValue).
    { apply Confined_console. apply skeleton_allowed. exact I. }
    intros _ _. constructor. exact I.
  - apply (Confined_bind P noExit noError anyValue).
    { apply Confined_console. apply skeleton_allowed. exact I. }
    intros _ _.
    unfold getDownloadUrl, getPlatform. cbn [ask bind].
    constructor; [apply skeleton_allowed; exact I|]. intros p.
    destruct (list_eqb p (str "darwin")); [|destruct (list_eqb p (str "linux"))];
      cbn [bind].
    + apply download_confined, pinned_macos.
    + apply download_confined, pinned_linux.
    + apply (Confined_bind P noExit noError anyValue).
      { apply Confined_console. apply skeleton_allowed. exact I. }
      intros _ _. constructor. exact I.
Qed.

Lemma forExamples_confined (f ttl : jsstring) (exs : list Example) (a : counters) :
  Confined P noExit noError anyValue (forExamples validate f ttl exs a).
Proof using validate_confined.
  revert a. induction exs as [|ex rest IH]; intros a; cbn [forExamples].
  - constructor. exact I.
  - destruct (isSqlExample ex); [|apply IH].
    apply (Confined_bind P noExit noError anyValue).
    + unfold attempt. apply (Confined_tryCatch P noExit anyError).
      * apply (Confined_bind P noExit anyError anyValue); [apply validate_confined|].
        intros r _. constructor. exact I.
      * intros e _. constructor. exact I.
    + intros [err|e] _; [apply IH|constructor; exact I].
Qed.

Lemma forFiles_confined (ruleFiles : list jsstring) (a : counters) :
  Forall (fun f => isRuleFile f = true) ruleFiles ->
  Confined P noExit noError anyValue (forFiles RULES_DIR validate ruleFiles a).
Proof using validate_confined skeleton_allowed.
  intros Hall. revert a.
  induction Hall as [|f rest Hf Hrest IH]; intros a; cbn [forFiles].
  - constructor. exact I.
  - cbn [ask bind]. constructor; [apply skeleton_allowed; exists f; auto|].
    intros [rule|e].
    + apply (Confined_bind P noExit noError anyValue); [apply forExamples_confined|].
      intros [a' oe] _. cbn [fst snd]. destruct oe as [e|]; [|apply IH].
      apply (Confined_bind P noExit noError anyValue); [|intros; apply IH].
      apply Confined_console. apply skeleton_allowed. exact I.
    + apply (Confined_bind P noExit noError anyValue); [|intros; apply IH].
      apply Confined_console. apply skeleton_allowed. exact I.
Qed.

Lemma reportErrors_confined (Q : Z -> Prop) (errs : list SQLValidationError) :
  Confined P Q anyError anyValue (reportErrors errs).
Proof using skeleton_allowed.
  induction errs as [|e rest IH]; cbn [reportErrors]; [constructor; exact I|].
  repeat (apply (Confined_bind P Q anyError anyValue);
          [apply Confined_console; apply skeleton_allowed; exact I|intros _ _]).
  exact IH.
Qed.

Lemma validateSQLInRulesWith_confined :
  Confined P zeroOrOne noError anyValue
    (validateSQLInRulesWith RULES_DIR BUILD_DIR validate).
Proof using validate_confined skeleton_allowed.
  assert (Hc : forall l args, P (Console l args))
    by (intros; apply skeleton_allowed; exact I).
  unfold validateSQLInRulesWith.
  apply (Confined_tryCatch P zeroOrOne anyError).
  - apply (Confined_bind P zeroOrOne anyError anyValue);
      [apply Confined_console; apply Hc|intros _ _].
    apply (Confined_bind P zeroOrOne anyError anyValue);
      [apply Confined_console; apply Hc|intros _ _].
    apply (Confined_bind P zeroOrOne anyError anyValue).
    { apply (Confined_mono P zeroOrOne P noExit noError anyError anyValue anyValue);
        auto; [intros c []|intros e []|apply ensureClickHouse_confined]. }
    intros hasClickHouse _.
    apply (Confined_bind P zeroOrOne anyError anyValue).
    { destruct hasClickHouse; cbn [negb]; [constructor; exact I|].
      apply (Confined_bind P zeroOrOne anyError anyValue);
        [apply Confined_console; apply Hc|intros _ _].
      constructor. left. reflexivity. }
    intros _ _.
    apply (Confined_bind P zeroOrOne anyError anyValue).
    { apply (Confined_await P zeroOrOne (Readdir _) (fun x => x)).
      apply skeleton_allowed. reflexivity. }
    intros files _.
    apply (Confined_bind P zeroOrOne anyError anyValue).
    { apply (Confined_mono P zeroOrOne P noExit noError anyError anyValue anyValue);
        auto; [intros c []|intros e []|].
      apply forFiles_confined. apply List.Forall_forall. intros f Hf.
      apply filter_In in Hf. tauto. }
    intros a _.
    destruct (0 <? length (allErrors a))%nat.
    + apply (Confined_bind P zeroOrOne anyError anyValue);
        [apply Confined_console; apply Hc|intros _ _].
      apply (Confined_bind P zeroOrOne anyError anyValue);
        [apply reportErrors_confined|intros _ _].
      constructor. right. reflexivity.
    + apply Confined_console. apply Hc.
  - intros e _.
    apply (Confined_bind P zeroOrOne noError anyValue);
      [apply Confined_console; apply Hc|intros _ _].
    constructor. right. reflexivity.
Qed.

End Skeleton.

End ValidatorConfined.

(* ===================================================================== *)
(** ** Repetitions and captures                                           *)
(* ===================================================================== *)

Section Repetitions.

(** What a repetition consumed, when the whole match succeeded. *)
Lemma rep_inv greedy p (k : cont) : forall s pv g n res,
  rep greedy p k pv g n s = Some res ->
  exists m rest pv',
    s = m ++ rest /\ forallb p m = true /\
    k (MState pv' rest g (n + length m)) = Some res.
Proof.
  induction s as [|c t IH]; intros pv g n res H.
  - exists [], [], pv. cbn in *. rewrite Nat.add_0_r. auto.
  - cbn [rep] in H. destruct (p c) eqn:Hc.
    + assert (Hrec : rep greedy p k (Some c) g (S n) t = Some res \/
                     k (MState pv (c :: t) g n) = Some res).
      { destruct greedy.
        - destruct (rep true p k (Some c) g (S n) t); [left; exact H|right; exact H].
        - destruct (k (MState pv (c :: t) g n)); [right; exact H|left; exact H]. }
      destruct Hrec as [Hrec|Hk].
      * destruct (IH _ _ _ _ Hrec) as (m & rest & pv' & -> & Hm & Hk).
        exists (c :: m), rest, pv'. cbn. rewrite Hc, Hm.
        replace (n + S (length m))%nat with (S n + length m)%nat by lia. auto.
      * exists [], (c :: t), pv. cbn. rewrite Nat.add_0_r. auto.
    + exists [], (c :: t), pv. cbn. rewrite Nat.add_0_r. auto.
Qed.

(** A greedy repetition takes the whole run when the rest of the pattern
    matches after it. *)
Lemma rep_longest p (k : cont) res : forall m rest pv g n,
  forallb p m = true ->
  (forall d, head rest = Some d -> p d = false) ->
  k (MState (lastOr pv m) rest g (n + length m)) = Some res ->
  rep true p k pv g n (m ++ rest) = Some res.
Proof.
  induction m as [|c m IH]; intros rest pv g n Hm Hrest Hk.
  - cbn in *. rewrite Nat.add_0_r in Hk.
    destruct rest as [|d rest]; cbn [rep]; [exact Hk|].
    rewrite (Hrest d eq_refl). exact Hk.
  - cbn in Hm. apply andb_true_iff in Hm as [Hc Hm].
    cbn [app rep]. rewrite Hc.
    rewrite (IH rest (Some c) g (S n) Hm Hrest); [reflexivity|].
    change (lastOr pv (c :: m)) with (lastOr (Some c) m) in Hk.
    replace (S n + length m)%nat with (n + length (c :: m))%nat by (cbn; lia).
    exact Hk.
Qed.

Lemma firstn_app_exact {A : Type} (a b : list A) (n : nat) :
  n = length a -> firstn n (a ++ b) = a.
Proof. intros ->. rewrite firstn_app, Nat.sub_diag, firstn_all. cbn. apply app_nil_r. Qed.

Lemma capture_groups (st0 : mstate) pv rest g n (a : jsstring) :
  input st0 = a ++ rest -> n = (consumed st0 + length a)%nat ->
  capture st0 (MState pv rest g n) = MState pv rest (g ++ [a]) n.
Proof.
  intros Hi ->. unfold capture. cbn [prev input groups consumed]. rewrite Hi.
  replace (consumed st0 + length a - consumed st0)%nat with (length a) by lia.
  rewrite firstn_app_exact by reflexivity. reflexivity.
Qed.

End Repetitions.

(** X6.  Whatever the environment answers, the SQL validator with the
    deny-list asks only for what [validatorRequest] allows: its
    subprocesses are the download of the engine from one of the two pinned
    release files, the engine on a temporary file with every required
    flag, and the removal of a temporary file; it parses only rule files of
    the rules directory ([.md], not starting with an underscore, not
    [README.md]), writes only its temporary files, and neither reads a file
    nor uses the network. *)
Theorem validateSQLInRules_requests {W : Type} (h : handler W) (w : W)
    (RULES_DIR BUILD_DIR : jsstring) :
  Forall (validatorRequest RULES_DIR BUILD_DIR)
    (requests (trace_of h (ValidateSql.validateSQLInRules RULES_DIR BUILD_DIR) w)).
Proof.
  apply (Confined_run _ zeroOrOne noError anyValue).
  apply validateSQLInRulesWith_confined;
    [apply skeleton_validator|apply validateSQL_confined].
Qed.

Lemma anything_confined {A : Type} (Q : Z -> Prop) (T : JsError -> Prop) (m : io A) :
  (forall c, Q c) -> (forall e, T e) ->
  Confined (fun _ => True) Q T anyValue m.
Proof. intros HQ HT. induction m; constructor; auto. exact I. Qed.

Lemma validateSQL_no_exit (BUILD_DIR sql : jsstring) :
  Confined (fun _ => True) noExit anyError anyValue (ValidateSql.validateSQL BUILD_DIR sql).
Proof.
  apply (Confined_mono _ _ (validatorRequest [] BUILD_DIR) noExit anyError anyError
           anyValue anyValue); auto.
  apply validateSQL_confined.
Qed.

Lemma packaged_validateSQL_no_exit (BUILD_DIR sql : jsstring) :
  Confined (fun _ => True) noExit anyError anyValue
    (ValidateSqlPackaged.validateSQL BUILD_DIR sql).
Proof.
  unfold ValidateSqlPackaged.validateSQL.
  cbn [ask bind]. constructor; [exact I|]. intros tmp.
  constructor; [exact I|]. intros now.
  constructor; [exact I|]. intros [[]|e]; cbn [settle bind]; [|constructor; exact I].
  apply Confined_finally.
  - apply (Confined_tryCatch _ noExit anyError).
    + constructor; [exact I|].
      intros [out|e]; cbn [settle bind]; constructor; exact I.
    + intros e _. constructor. exact I.
  - unfold ValidateSql.cleanup. apply (Confined_tryCatch _ noExit anyError).
    + cbn [ask bind]. constructor; [exact I|].
      intros [out|e]; cbn [settle bind]; constructor; exact I.
    + intros e _. constructor. exact I.
Qed.

Lemma outcome_of_confined {W : Type} (h : handler W) (w : W) (P : request -> Prop)
    (m : io unit) :
  Confined P zeroOrOne noError anyValue m ->
  result_of h m w = Returned tt \/ result_of h m w = Exited 0 \/ result_of h m w = Exited 1.
Proof.
  intros Hm. destruct (Confined_run P zeroOrOne noError anyValue m h w Hm) as [_ H].
  destruct (result_of h m w) as [[]|e|c].
  - left. reflexivity.
  - destruct H.
  - destruct H as [->| ->]; auto.
Qed.

(** X7.  The SQL validator never ends with an exception: with either copy
    of [validateSQL] and whatever the environment answers, it returns, or
    ends the process with status 0 or 1. *)
Theorem validateSQLInRules_outcome {W : Type} (h : handler W) (w : W)
    (RULES_DIR BUILD_DIR : jsstring) :
  (result_of h (ValidateSql.validateSQLInRules RULES_DIR BUILD_DIR) w = Returned tt \/
   result_of h (ValidateSql.validateSQLInRules RULES_DIR BUILD_DIR) w = Exited 0 \/
   result_of h (ValidateSql.validateSQLInRules RULES_DIR BUILD_DIR) w = Exited 1) /\
  (result_of h (ValidateSqlPackaged.validateSQLInRules RULES_DIR BUILD_DIR) w = Returned tt \/
   result_of h (ValidateSqlPackaged.validateSQLInRules RULES_DIR BUILD_DIR) w = Exited 0 \/
   result_of h (ValidateSqlPackaged.validateSQLInRules RULES_DIR BUILD_DIR) w = Exited 1).
Proof.
  split; apply (outcome_of_confined h w (fun _ => True));
    apply validateSQLInRulesWith_confined; auto using validateSQL_no_exit,
      packaged_validateSQL_no_exit.
Qed.

(* ===================================================================== *)
(** ** One snippet: the temporary file                                    *)
(* ===================================================================== *)



(** X4.  The copy kept under [packages/] has the same courses, without the
    first: every snippet is written out, and a snippet whose write
    succeeded is run by the engine and its file removed afterwards. *)
Theorem packaged_validateSQL_courses {W : Type} (h : handler W) (w : W)
    (BUILD_DIR sql : jsstring) :
  (exists tmp now e w',
     run h (ValidateSqlPackaged.validateSQL BUILD_DIR sql) w
     = (Thrown e,
        [ existT Tmpdir tmp; existT DateNow now;
          existT (WriteFile (ValidateSql.tmpFileName tmp now) sql) (Rejected e) ],
        w'))
  \/
  (exists tmp now out gone w',
     run h (ValidateSqlPackaged.validateSQL BUILD_DIR sql) w
     = (Returned match out with
                 | Resolved o => ValidateSql.readStderr o
                 | Rejected e => Some (ValidateSql.errorText e)
                 end,
        [ existT Tmpdir tmp; existT DateNow now;
          existT (WriteFile (ValidateSql.tmpFileName tmp now) sql) (Resolved tt);
          existT (ExecAsync (ValidateSqlPackaged.engineCommand BUILD_DIR
                               (ValidateSql.tmpFileName tmp now))) out;
          existT (ExecAsync (ValidateSql.rmCommand (ValidateSql.tmpFileName tmp now)))
                 gone ],
        w')).
Proof.
  unfold ValidateSqlPackaged.validateSQL.
  cbn [run bind tryCatch finally ask settle ValidateSql.cleanup].
  destruct (h Tmpdir w) as [tmp w1]. cbn [fst snd].
  destruct (h DateNow w1) as [now w2]. cbn [fst snd].
  destruct (h (WriteFile (ValidateSql.tmpFileName tmp now) sql) w2) as [[[]|e] w3];
    cbn [fst snd run bind tryCatch finally ask settle ValidateSql.cleanup].
  2: { left. exists tmp, now, e, w3. reflexivity. }
  right. exists tmp, now.
  destruct (h (ExecAsync (ValidateSqlPackaged.engineCommand BUILD_DIR
                            (ValidateSql.tmpFileName tmp now))) w3) as [out w4].
  exists out.
  destruct out as [o|e];
    cbn [fst snd run bind tryCatch finally ask settle ValidateSql.cleanup];
    destruct (h (ExecAsync (ValidateSql.rmCommand (ValidateSql.tmpFileName tmp now))) w4)
      as [gone w5];
    exists gone, w5; destruct gone; reflexivity.
Qed.

(* ===================================================================== *)
(** ** The loop over the rule files                                       *)
(* ===================================================================== *)

Lemma parses_app (a b : list event) : parses (a ++ b) = parses a ++ parses b.
Proof. unfold parses. apply omap_app. Qed.

Lemma parses_notParse (tr : list event) :
  Forall notParse (requests tr) -> parses tr = [].
Proof.
  induction tr as [|[r a] tr IH]; [reflexivity|].
  cbn [requests map]. intros H. inversion H as [|? ? Hr Htr]; subst.
  unfold parses in *. cbn [omap list_omap parseView requestOf projT1] in *.
  destruct r; try (apply IH; exact Htr).
  exfalso. exact (Hr _ eq_refl).
Qed.

Lemma snippetOf_length (c : jsstring) : (length (ValidateSql.snippetOf c) <= 103)%nat.
Proof.
  unfold ValidateSql.snippetOf. rewrite length_app, length_firstn.
  destruct (100 <? length c)%nat; cbn [length str]; change (length (str "...")) with 3%nat;
    lia.
Qed.

Lemma validateSQL_notParse (BUILD_DIR sql : jsstring) :
  Confined notParse noExit anyError anyValue (ValidateSql.validateSQL BUILD_DIR sql).
Proof.
  unfold ValidateSql.validateSQL.
  destruct (ValidateSql.truthyOpt _); [constructor; exact I|].
  cbn [ask bind]. constructor; [discriminate|]. intros tmp.
  constructor; [discriminate|]. intros now.
  constructor; [discriminate|]. intros [[]|e]; cbn [settle bind]; [|constructor; exact I].
  apply Confined_finally.
  - apply (Confined_tryCatch notParse noExit anyError).
    + constructor; [discriminate|].
      intros [out|e]; cbn [settle bind]; constructor; exact I.
    + intros e _. constructor. exact I.
  - unfold ValidateSql.cleanup.
    apply (Confined_tryCatch notParse noExit anyError).
    + cbn [ask bind]. constructor; [discriminate|].
      intros [out|e]; cbn [settle bind]; constructor; exact I.
    + intros e _. constructor. exact I.
Qed.

Section Batch.

Import ValidateSql.

Context {W : Type} (h : handler W).
Variables RULES_DIR : jsstring.
Variable validate : jsstring -> io (option jsstring).
Hypothesis validate_quiet :
  forall sql, Confined notParse noExit anyError anyValue (validate sql).

Lemma attempt_run (c : jsstring) (w : W) :
  exists r,
    result_of h (attempt (validate c)) w = Returned r /\
    parses (trace_of h (attempt (validate c)) w) = [].
Proof using validate_quiet.
  destruct (Confined_run notParse noExit noError anyValue (attempt (validate c)) h w)
    as [Htr Hres].
  { unfold attempt. apply (Confined_tryCatch notParse noExit anyError).
    - apply (Confined_bind notParse noExit anyError anyValue); [apply validate_quiet|].
      intros r _. constructor. exact I.
    - intros e _. constructor. exact I. }
  destruct (result_of h (attempt (validate c)) w) as [r|e|x]; try contradiction.
  exists r. split; [reflexivity|]. apply parses_notParse. exact Htr.
Qed.

Lemma added_refl files a : added files a a.
Proof. exists []. rewrite app_nil_r. cbn. repeat split; [lia|constructor]. Qed.

Lemma added_trans files a b c : added files a b -> added files b c -> added files a c.
Proof.
  intros (n1 & E1 & L1 & F1) (n2 & E2 & L2 & F2).
  exists (n1 ++ n2). rewrite E2, E1, <- app_assoc, length_app.
  repeat split; [lia|]. apply Forall_app. auto.
Qed.

Lemma added_weaken f files a b : added files a b -> added (f :: files) a b.
Proof.
  intros (n & E & L & F). exists n. repeat split; auto.
  eapply List.Forall_impl; [|exact F]. cbn. intros e (H1 & H2 & H3). auto.
Qed.

Lemma forExamples_run (f ttl : jsstring) (exs : list Example) :
  forall (a : counters) (w : W),
  exists a' oe,
    result_of h (forExamples validate f ttl exs a) w = Returned (a', oe) /\
    parses (trace_of h (forExamples validate f ttl exs a) w) = [] /\
    added [f] a a'.
Proof using validate_quiet.
  induction exs as [|ex rest IH]; intros a w; cbn [forExamples].
  - exists a, None. split; [reflexivity|]. split; [reflexivity|]. apply added_refl.
  - destruct (isSqlExample ex) eqn:Hsql; [|apply IH].
    rewrite result_bind, trace_bind, parses_app.
    destruct (attempt_run (code ex) w) as (r & Hr & Hp). rewrite Hr, Hp.
    set (a1 := MkCounters (allErrors a) (S (totalSQLExamples a))).
    assert (H1 : added [f] a a1).
    { exists []. rewrite app_nil_r. cbn. repeat split; [lia|constructor]. }
    destruct r as [err|e].
    + match goal with |- context [forExamples validate f ttl rest ?a2] =>
        destruct (IH a2 (snd (run h (attempt (validate (code ex))) w)))
          as (a' & oe & Hres & Hpar & Hadd);
        assert (H2 : added [f] a a2)
      end.
      { destruct err as [msg|]; [|exact H1].
        destruct (truthy msg) eqn:Hmsg; [|exact H1].
        exists [MkSQLError f ttl (label ex) msg (snippetOf (code ex))].
        split; [reflexivity|]. cbn [length totalSQLExamples a1]. split; [lia|].
        constructor; [|constructor]. cbn. split; [auto|]. split; [apply snippetOf_length|].
        destruct msg; discriminate. }
      exists a', oe. split; [exact Hres|]. split; [exact Hpar|].
      eapply added_trans; [exact H2|exact Hadd].
    + exists a1, (Some e). split; [reflexivity|]. split; [reflexivity|]. exact H1.
Qed.

Lemma result_ask_bind {A : Type} (r : request) (f : answer r -> io A) (w : W) :
  result_of h (bind (ask r) f) w = result_of h (f (fst (h r w))) (snd (h r w)).
Proof. reflexivity. Qed.

Lemma trace_ask_bind {A : Type} (r : request) (f : answer r -> io A) (w : W) :
  trace_of h (bind (ask r) f) w
  = existT r (fst (h r w)) :: trace_of h (f (fst (h r w))) (snd (h r w)).
Proof. reflexivity. Qed.

Lemma added_one f rest a b c :
  added [f] a b -> added rest b c -> added (f :: rest) a c.
Proof.
  intros Hab Hbc. eapply added_trans; [|apply added_weaken; exact Hbc].
  destruct Hab as (n & E & L & F). exists n. repeat split; auto.
  eapply List.Forall_impl; [|exact F]. cbn. intros x ([H|[]] & H2 & H3). auto.
Qed.

Lemma forFiles_run (files : list jsstring) :
  forall (a : counters) (w : W),
  exists a',
    result_of h (forFiles RULES_DIR validate files a) w = Returned a' /\
    parses (trace_of h (forFiles RULES_DIR validate files a) w)
      = map (join RULES_DIR) files /\
    added files a a'.
Proof using validate_quiet.
  induction files as [|f rest IH]; intros a w; cbn [forFiles].
  - exists a. split; [reflexivity|]. split; [reflexivity|]. apply added_refl.
  - rewrite result_ask_bind, trace_ask_bind.
    change (parses (?e :: ?t)) with (parses [e] ++ parses t).
    change (parses [existT (ParseRuleFile (join RULES_DIR f)) _])
      with [join RULES_DIR f].
    destruct (h (ParseRuleFile (join RULES_DIR f)) w) as [[rule|e] w1];
      cbn [fst snd map app].
    + rewrite result_bind, trace_bind, parses_app.
      destruct (forExamples_run f (title rule) (examples rule) a w1)
        as (a1 & oe & Hres & Hpar & Hadd).
      rewrite Hres, Hpar. cbn [fst snd app].
      set (w2 := snd (run h (forExamples validate f (title rule) (examples rule) a) w1)).
      destruct oe as [e|].
      * unfold processingError, console.
        rewrite (result_ask_bind (Console _ _)), (trace_ask_bind (Console _ _)).
        change (parses (?e :: ?t)) with (parses t).
        match goal with |- context [snd (h ?r w2)] =>
          destruct (IH a1 (snd (h r w2))) as (a' & Hres' & Hpar' & Hadd')
        end.
        exists a'. split; [exact Hres'|]. split; [rewrite Hpar'; reflexivity|].
        exact (added_one _ _ _ _ _ Hadd Hadd').
      * destruct (IH a1 w2) as (a' & Hres' & Hpar' & Hadd').
        exists a'. split; [exact Hres'|]. split; [rewrite Hpar'; reflexivity|].
        exact (added_one _ _ _ _ _ Hadd Hadd').
    + unfold processingError, console.
      rewrite (result_ask_bind (Console _ _)), (trace_ask_bind (Console _ _)).
      change (parses (?e :: ?t)) with (parses t).
      match goal with |- context [snd (h ?r w1)] =>
        destruct (IH a (snd (h r w1))) as (a' & Hres' & Hpar' & Hadd')
      end.
      exists a'. split; [exact Hres'|]. split; [rewrite Hpar'; reflexivity|].
      apply added_weaken. exact Hadd'.
Qed.

End Batch.

(** X5.  The loop over the rule files, with the [validateSQL] of the script
    that has the deny-list, always runs to its end: whatever the
    environment answers, every rule file is handed to the parser, in the
    order of the listing, also after a file that could not be parsed or a
    snippet whose validation threw; the errors recorded before are kept,
    the new ones come after them, each naming one of the files, with a
    message that is not empty and a snippet of at most 103 code units, and
    there are no more new errors than examples counted. *)
Theorem forFiles_batch {W : Type} (h : handler W) (w : W)
    (RULES_DIR BUILD_DIR : jsstring) (files : list jsstring) (a : ValidateSql.counters) :
  exists a',
    result_of h (ValidateSql.forFiles RULES_DIR (ValidateSql.validateSQL BUILD_DIR) files a) w
      = Returned a' /\
    parses (trace_of h
              (ValidateSql.forFiles RULES_DIR (ValidateSql.validateSQL BUILD_DIR) files a) w)
      = map (join RULES_DIR) files /\
    added files a a'.
Proof.
  apply forFiles_run. intros sql. apply validateSQL_notParse.
Qed.

Section Unparsable.

Import ValidateSql.

Context {W : Type} (h : handler W).
Variables RULES_DIR BUILD_DIR : jsstring.
Variable validate : jsstring -> io (option jsstring).

Lemma forFiles_unparsable (files : list jsstring) (a : counters) (w : W) :
  (forall p w, exists e, fst (h (ParseRuleFile p) w) = Rejected e) ->
  result_of h (forFiles RULES_DIR validate files a) w = Returned a.
Proof.
  intros Hp. revert w. induction files as [|f rest IH]; intros w; [reflexivity|].
  cbn [forFiles]. rewrite (result_ask_bind h).
  destruct (Hp (join RULES_DIR f) w) as [e ->].
  unfold processingError, console. rewrite (result_ask_bind h (Console _ _)).
  apply IH.
Qed.

Lemma ensureClickHouse_found (w : W) :
  (forall p w, exists x, fst (h (Stat p) w) = Resolved x) ->
  result_of h (ensureClickHouse BUILD_DIR) w = Returned true.
Proof.
  intros Hs. unfold ensureClickHouse. rewrite (result_ask_bind h).
  destruct (Hs (CLICKHOUSE_BINARY BUILD_DIR) w) as [x ->].
  unfold console. rewrite (result_ask_bind h (Console _ _)). reflexivity.
Qed.

Lemma last_trace_bind {A B : Type} (m : io A) (f : A -> io B) (w : W) (a : A) (r : request) :
  result_of h m w = Returned a ->
  last (requests (trace_of h (f a) (snd (run h m w)))) = Some r ->
  last (requests (trace_of h (bind m f) w)) = Some r.
Proof.
  intros Hm Hl. rewrite trace_bind, Hm. unfold requests in *. rewrite map_app.
  destruct (map requestOf (trace_of h (f a) (snd (run h m w)))) as [|x l] eqn:E;
    [discriminate|].
  rewrite last_app, Hl. reflexivity.
Qed.

(** X10.  Rule files that cannot be parsed do not fail the validation: when
    the engine binary is there and the rules directory can be listed, but
    the parser rejects every rule file, the run, with either copy of
    [validateSQL], returns normally and its last message is that all 0 SQL
    examples are valid. *)
Theorem unparsable_rules_pass (w : W) :
  (forall p w, exists x, fst (h (Stat p) w) = Resolved x) ->
  (forall p w, exists l, fst (h (Readdir p) w) = Resolved l) ->
  (forall p w, exists e, fst (h (ParseRuleFile p) w) = Rejected e) ->
  result_of h (validateSQLInRulesWith RULES_DIR BUILD_DIR validate) w = Returned tt /\
  last (requests (trace_of h (validateSQLInRulesWith RULES_DIR BUILD_DIR validate) w))
    = Some (Console LogLevel [VStr (checkMark ++ str " All 0 SQL examples are valid")]).
Proof.
  intros Hs Hd Hp.
  set (body :=
    console LogLevel [VStr (str "Validating SQL syntax in rule files...")] >>
    console LogLevel [VStr (str "Rules directory: " ++ RULES_DIR)] >>
    let* hasClickHouse := ensureClickHouse BUILD_DIR in
    (if negb hasClickHouse
     then console WarnLevel [VStr skipWarning] >> Exit 0
     else Ret tt) >>
    let* files := bind (ask (Readdir RULES_DIR)) settle in
    let ruleFiles := List.filter isRuleFile files in
    let* a := forFiles RULES_DIR validate ruleFiles (MkCounters [] 0) in
    if (0 <? length (allErrors a))%nat
    then
      console ErrorLevel
        [VStr ([10%N] ++ crossMark ++ str " SQL validation failed:" ++ [10%N])] >>
      reportErrors (allErrors a) >>
      Exit 1
    else
      console LogLevel
        [VStr (checkMark ++ str " All " ++ ofZ (Z.of_nat (totalSQLExamples a))
               ++ str " SQL examples are valid")]).
  assert (Hbody :
    result_of h body w = Returned tt /\
    last (requests (trace_of h body w))
      = Some (Console LogLevel [VStr (checkMark ++ str " All 0 SQL examples are valid")])).
  { unfold body, console.
    split.
    - rewrite !(result_ask_bind h (Console _ _)).
      rewrite result_bind, ensureClickHouse_found by exact Hs.
      cbn [negb]. rewrite result_bind. cbn [result_of run fst snd].
      rewrite result_bind, (result_ask_bind h).
      match goal with |- context [h (Readdir RULES_DIR) ?w0] =>
        destruct (Hd RULES_DIR w0) as [l Hl]; rewrite Hl
      end.
      cbn [settle result_of run fst snd].
      rewrite result_bind, forFiles_unparsable by exact Hp.
      cbn [allErrors totalSQLExamples length]. change (0 <? 0)%nat with false. cbv iota.
      unfold result_of. cbn [run ask fst snd].
      match goal with |- Returned ?u = _ => destruct u end. reflexivity.
    - rewrite !(trace_ask_bind h (Console _ _)).
      cbn [requests map requestOf projT1].
      rewrite !last_cons.
      match goal with |- match ?x with Some y => _ | None => _ end = _ =>
        assert (Hx : x = Some (Console LogLevel
                   [VStr (checkMark ++ str " All 0 SQL examples are valid")]));
        [|rewrite Hx; reflexivity]
      end.
      match goal with |- match ?x with Some y => _ | None => _ end = _ =>
        assert (Hx : x = Some (Console LogLevel
                   [VStr (checkMark ++ str " All 0 SQL examples are valid")]));
        [|rewrite Hx; reflexivity]
      end.
      apply (last_trace_bind _ _ _ true); [apply ensureClickHouse_found; exact Hs|].
      cbn [negb].
      apply (last_trace_bind _ _ _ tt); [reflexivity|].
      cbn [run snd].
      match goal with |- context [trace_of h _ ?w0] =>
        destruct (Hd RULES_DIR w0) as [l Hl]
      end.
      apply (last_trace_bind _ _ _ l).
      { rewrite (result_ask_bind h), Hl. reflexivity. }
      apply (last_trace_bind _ _ _ (MkCounters [] 0));
        [apply forFiles_unparsable; exact Hp|].
      reflexivity. }
  destruct Hbody as [Hres Hlast].
  unfold validateSQLInRulesWith. fold body.
  unfold result_of, trace_of in *. rewrite run_tryCatch. unfold orElse.
  destruct (run h body w) as [[o tr] w']. cbn [fst snd] in *. subst o.
  split; [reflexivity|exact Hlast].
Qed.

End Unparsable.

Lemma unparsable_rules_pass_witness :
  result_of (unparsable [str "query-join.md"])
    (ValidateSql.validateSQLInRules (str "rules") (str "build")) tt = Returned tt /\
  last (requests (trace_of (unparsable [str "query-join.md"])
                    (ValidateSql.validateSQLInRules (str "rules") (str "build")) tt))
    = Some (Console LogLevel
              [VStr (ValidateSql.checkMark ++ str " All 0 SQL examples are valid")]).
Proof.
  apply (unparsable_rules_pass (unparsable [str "query-join.md"]) (str "rules") (str "build")
           (ValidateSql.validateSQL (str "build")) tt).
  - intros p w. exists tt. reflexivity.
  - intros p w. eexists. reflexivity.
  - intros p w. eexists. reflexivity.
Defined.

(* ===================================================================== *)
(** ** The deny-list in a whole run, and what it leaves alone            *)
(* ===================================================================== *)

Lemma flagged_truthy (sql msg : jsstring) :
  ValidateSql.containsDangerousPatterns sql = Some msg ->
  ValidateSql.truthyOpt (ValidateSql.containsDangerousPatterns sql) = true.
Proof.
  intros H. rewrite H. apply firstDangerous_message in H as [d ->]. reflexivity.
Qed.

Lemma validateSQL_never_writes (BUILD_DIR flagged s : jsstring) :
  ValidateSql.truthyOpt (ValidateSql.containsDangerousPatterns flagged) = true ->
  Confined (fun r => forall p, r <> WriteFile p flagged) noExit anyError anyValue
    (ValidateSql.validateSQL BUILD_DIR s).
Proof.
  intros Hflag. unfold ValidateSql.validateSQL.
  destruct (ValidateSql.truthyOpt (ValidateSql.containsDangerousPatterns s)) eqn:E;
    [constructor; exact I|].
  cbn [ask bind]. constructor; [discriminate|]. intros tmp.
  constructor; [discriminate|]. intros now.
  constructor; [intros p [= _ ->]; congruence|].
  intros [[]|e]; cbn [settle bind]; [|constructor; exact I].
  apply Confined_finally.
  - apply (Confined_tryCatch _ noExit anyError).
    + constructor; [discriminate|].
      intros [out|e]; cbn [settle bind]; constructor; exact I.
    + intros e _. constructor. exact I.
  - unfold ValidateSql.cleanup. apply (Confined_tryCatch _ noExit anyError).
    + cbn [ask bind]. constructor; [discriminate|].
      intros [out|e]; cbn [settle bind]; constructor; exact I.
    + intros e _. constructor. exact I.
Qed.

(** X8.  A snippet that the deny-list flags is never written out: in a
    whole validation run of the script with the deny-list, whatever the
    rule files hold and whatever the environment answers, no temporary
    file is written with that snippet as its content, so that the engine,
    which is only ever started on a temporary file, is never handed it. *)
Theorem flagged_snippet_never_written {W : Type} (h : handler W) (w : W)
    (RULES_DIR BUILD_DIR sql msg : jsstring) :
  ValidateSql.containsDangerousPatterns sql = Some msg ->
  Forall (fun r => forall p, r <> WriteFile p sql)
    (requests (trace_of h (ValidateSql.validateSQLInRules RULES_DIR BUILD_DIR) w)).
Proof.
  intros Hflag.
  apply (Confined_run _ zeroOrOne noError anyValue).
  apply (validateSQLInRulesWith_confined RULES_DIR BUILD_DIR).
  - intros r Hr p ->. exact Hr.
  - intros s. apply validateSQL_never_writes. exact (flagged_truthy _ _ Hflag).
Qed.

Lemma flagged_snippet_never_written_witness :
  Forall (fun r => forall p, r <> WriteFile p scenarioB)
    (requests (trace_of scripted
                 (ValidateSql.validateSQLInRules (str "rules") (str "build")) [])).
Proof.
  apply (flagged_snippet_never_written scripted [] (str "rules") (str "build") scenarioB
           (str "Security: SQL contains dangerous pattern: file() table function (file system access)")).
  vm_compute. reflexivity.
Defined.

Section NoCall.

Import ValidateSql.

Lemma replaceGo_chars icase r by_ (c : N) : forall s skip pv,
  In c (replaceGo icase r by_ skip pv s) -> In c by_ \/ In c s.
Proof.
  induction s as [|x t IH]; intros skip pv H.
  - destruct skip; cbn [replaceGo] in H; [|destruct H].
    destruct (matchHere icase r pv []); [|destruct H].
    rewrite app_nil_r in H. left. exact H.
  - assert (Hrec : forall m pv', In c (replaceGo icase r by_ m pv' t) ->
                                 In c by_ \/ In c (x :: t)).
    { intros m pv' H'. destruct (IH _ _ H'); [left|right; right]; assumption. }
    destruct skip as [|m]; cbn [replaceGo] in H; [|exact (Hrec _ _ H)].
    destruct (matchHere icase r pv (x :: t)) as [st|].
    + apply in_app_or in H as [H|H]; [left; exact H|].
      destruct (consumed st); [|exact (Hrec _ _ H)].
      destruct H as [<-|H]; [right; left; reflexivity|exact (Hrec _ _ H)].
    + destruct H as [<-|H]; [right; left; reflexivity|exact (Hrec _ _ H)].
Qed.

Lemma stripComments_paren (sql : jsstring) :
  In 40%N (stripComments sql) -> In 40%N sql.
Proof.
  unfold stripComments, replaceAll. intros H.
  repeat (apply replaceGo_chars in H as [[[=]|[]]|H]). exact H.
Qed.

Lemma canonicalize_paren (x : N) : canonicalize 40 = canonicalize x -> x = 40%N.
Proof.
  unfold canonicalize, between. cbn.
  destruct (N.leb_spec 97 x), (N.leb_spec x 122); cbn; lia.
Qed.

Lemma lit_inv (nm : jsstring) (R : regex) (k : cont) : forall st res,
  matcher true (Lit nm R) k st = Some res ->
  exists w rest pv' n',
    input st = w ++ rest /\
    matcher true R k (MState pv' rest (groups st) n') = Some res.
Proof.
  induction nm as [|c nm IH]; intros st res H.
  - exists [], (input st), (prev st), (consumed st). split; [reflexivity|].
    destruct st. exact H.
  - cbn [Lit matcher] in H. destruct (input st) as [|x t] eqn:Hin; [discriminate|].
    destruct (chr_eq true c x); [|discriminate].
    apply IH in H as (w & rest & pv' & n' & Hw & H). cbn [input step groups] in *.
    exists (x :: w), rest, pv', n'. rewrite Hw. split; [reflexivity|exact H].
Qed.

Lemma callPattern_paren (name : string) pv s st :
  matchHere true (callPattern name) pv s = Some st -> In 40%N s.
Proof.
  unfold matchHere, callPattern. cbn [matcher].
  destruct (xorb _ _); [|discriminate].
  intros H. apply lit_inv in H as (w & rest & pv' & n' & Hw & H).
  cbn [input groups matcher] in *.
  apply rep_inv in H as (m & rest' & pv2 & -> & _ & H).
  cbn [matcher input] in H. destruct rest' as [|x t]; [discriminate|].
  change (chr "(") with 40%N in H. unfold chr_eq in H.
  destruct (N.eqb_spec (canonicalize 40) (canonicalize x)) as [E|]; [|discriminate].
  apply canonicalize_paren in E. subst x s.
  apply in_or_app. right. apply in_or_app. right. left. reflexivity.
Qed.

Lemma search_paren (name : string) : forall s pv st,
  search true (callPattern name) pv s = Some st -> In 40%N s.
Proof.
  induction s as [|c t IH]; intros pv st H; cbn [search] in H.
  - destruct (matchHere true (callPattern name) pv []) eqn:E; [|discriminate].
    exact (callPattern_paren _ _ _ _ E).
  - destruct (matchHere true (callPattern name) pv (c :: t)) eqn:E.
    + exact (callPattern_paren _ _ _ _ E).
    + right. exact (IH _ _ H).
Qed.

Lemma dangerous_calls :
  Forall (fun pd => exists name, fst pd = callPattern name) dangerous.
Proof. unfold dangerous. repeat constructor; eexists; reflexivity. Qed.

Lemma firstDangerous_paren (l : list (regex * jsstring)) (s msg : jsstring) :
  Forall (fun pd => exists name, fst pd = callPattern name) l ->
  firstDangerous l s = Some msg -> In 40%N s.
Proof.
  induction 1 as [|[p d] l [name Hp] Hl IH]; [discriminate|].
  cbn [fst] in Hp. subst p. cbn [firstDangerous]. unfold test.
  destruct (search true (callPattern name) None s) eqn:E; [|exact IH].
  intros _. exact (search_paren _ _ _ _ E).
Qed.

(** X2.  The deny-list is about calls: a snippet that holds no opening
    parenthesis is never flagged, whatever names it mentions, so that
    [validateSQL] goes on to write it out and validate it. *)
Theorem no_parenthesis_not_flagged (sql : jsstring) :
  ~ In (chr "(") sql -> containsDangerousPatterns sql = None.
Proof.
  intros Hno. unfold containsDangerousPatterns.
  destruct (firstDangerous dangerous (stripComments sql)) as [msg|] eqn:E; [|reflexivity].
  exfalso. apply Hno. apply stripComments_paren.
  exact (firstDangerous_paren _ _ _ dangerous_calls E).
Qed.

End NoCall.

Lemma no_parenthesis_not_flagged_witness :
  ValidateSql.containsDangerousPatterns (str "SELECT url, file FROM remote_logs") = None.
Proof.
  apply no_parenthesis_not_flagged. vm_compute.
  intros H. repeat (destruct H as [H|H]; [discriminate|]). exact H.
Defined.

(* ===================================================================== *)
(** ** A flagged example fails the run                                    *)
(* ===================================================================== *)

Section Failing.

Import ValidateSql.

Context {W : Type} (h : handler W).
Variables RULES_DIR BUILD_DIR : jsstring.

Hypothesis writes_succeed :
  forall p d w, exists x, fst (h (WriteFile p d) w) = Resolved x.

(** When the temporary files can be written, [validateSQL] returns. *)
Lemma validateSQL_returns (sql : jsstring) (w : W) :
  exists r, result_of h (validateSQL BUILD_DIR sql) w = Returned r.
Proof using writes_succeed.
  unfold result_of, validateSQL.
  destruct (truthyOpt (containsDangerousPatterns sql)); [eexists; reflexivity|].
  cbn [run bind tryCatch finally ask settle cleanup].
  destruct (h Tmpdir w) as [tmp w1]. cbn [fst snd].
  destruct (h DateNow w1) as [now w2]. cbn [fst snd].
  destruct (writes_succeed (tmpFileName tmp now) sql w2) as [[] Hx].
  destruct (h (WriteFile (tmpFileName tmp now) sql) w2) as [a w3].
  cbn [fst snd] in *. subst a.
  cbn [fst snd run bind tryCatch finally ask settle cleanup].
  destruct (h (ExecAsync (engineCommand BUILD_DIR (tmpFileName tmp now))) w3)
    as [[o|e] w4];
    cbn [fst snd run bind tryCatch finally ask settle cleanup];
    destruct (h (ExecAsync (rmCommand (tmpFileName tmp now))) w4) as [[g|e'] w5];
    eexists; reflexivity.
Qed.

Lemma attempt_returns (sql : jsstring) (w : W) :
  exists r, result_of h (attempt (validateSQL BUILD_DIR sql)) w = Returned (Resolved r).
Proof using writes_succeed.
  destruct (validateSQL_returns sql w) as [r Hr].
  exists r. unfold attempt, result_of in *. rewrite run_tryCatch, run_bind.
  unfold orElse, andThen.
  destruct (run h (validateSQL BUILD_DIR sql) w) as [[o tr] w']. cbn [fst snd] in *.
  subst o. reflexivity.
Qed.

Lemma attempt_flagged (sql msg : jsstring) (w : W) :
  containsDangerousPatterns sql = Some msg ->
  result_of h (attempt (validateSQL BUILD_DIR sql)) w = Returned (Resolved (Some msg)) /\
  truthy msg = true.
Proof.
  intros Hflag. destruct (validateSQL_guard h w BUILD_DIR sql msg Hflag) as [Hs Hrun].
  split.
  - unfold attempt, result_of. rewrite run_tryCatch, run_bind, Hrun. reflexivity.
  - destruct msg; [discriminate|reflexivity].
Qed.

Variables (flagged msg : jsstring).
Hypothesis is_flagged : containsDangerousPatterns flagged = Some msg.

(** The report holds an error with the message of the deny-list. *)
#[local] Abbreviation reported :=
  (fun a : counters => exists e, In e (allErrors a) /\ error e = msg).

Lemma added_reported files a a' : added files a a' -> reported a -> reported a'.
Proof.
  intros (new & E & _) (e & He & Hm). exists e. rewrite E.
  split; [apply in_or_app; left; exact He|exact Hm].
Qed.

Lemma forExamples_after (f ttl : jsstring) (exs : list Example) (a : counters) (w : W) :
  reported a ->
  exists r, result_of h (forExamples (validateSQL BUILD_DIR) f ttl exs a) w = Returned r /\
            reported (fst r).
Proof.
  intros Ha.
  destruct (forExamples_run h (validateSQL BUILD_DIR) (validateSQL_notParse BUILD_DIR)
              f ttl exs a w) as (a' & oe & Hres & _ & Hadd).
  exists (a', oe). split; [exact Hres|exact (added_reported _ _ _ Hadd Ha)].
Qed.

Lemma forExamples_flagged (f ttl : jsstring) (exs : list Example) :
  forall (a : counters) (w : W) (ex : Example),
    In ex exs -> isSqlExample ex = true -> code ex = flagged ->
    exists r, result_of h (forExamples (validateSQL BUILD_DIR) f ttl exs a) w = Returned r /\
              reported (fst r).
Proof using writes_succeed is_flagged.
  induction exs as [|ex0 rest IH]; intros a w ex Hin Hsql Hcode; [destruct Hin|].
  cbn [forExamples].
  destruct (isSqlExample ex0) eqn:Hsql0.
  - rewrite result_bind.
    destruct Hin as [->|Hin].
    + rewrite Hcode.
      destruct (attempt_flagged flagged msg w is_flagged) as [-> Hm]. rewrite Hm.
      apply forExamples_after. eexists.
      split; [cbn [allErrors]; apply in_or_app; right; left; reflexivity|reflexivity].
    + destruct (attempt_returns (code ex0) w) as [r ->].
      exact (IH _ _ ex Hin Hsql Hcode).
  - destruct Hin as [->|Hin]; [congruence|].
    exact (IH _ _ ex Hin Hsql Hcode).
Qed.

Lemma forFiles_after (files : list jsstring) (a : counters) (w : W) :
  reported a ->
  exists a', result_of h (forFiles RULES_DIR (validateSQL BUILD_DIR) files a) w = Returned a' /\
             reported a'.
Proof.
  intros Ha.
  destruct (forFiles_run h RULES_DIR (validateSQL BUILD_DIR) (validateSQL_notParse BUILD_DIR)
              files a w) as (a' & Hres & _ & Hadd).
  exists a'. split; [exact Hres|exact (added_reported _ _ _ Hadd Ha)].
Qed.

Variables (f : jsstring) (rule : Rule) (ex : Example).
Hypothesis rule_parsed :
  forall w, fst (h (ParseRuleFile (join RULES_DIR f)) w) = Resolved rule.
Hypothesis example_there : In ex (examples rule).
Hypothesis example_sql : isSqlExample ex = true.
Hypothesis example_flagged : code ex = flagged.

Lemma forFiles_flagged (files : list jsstring) :
  forall (a : counters) (w : W),
    In f files ->
    exists a', result_of h (forFiles RULES_DIR (validateSQL BUILD_DIR) files a) w = Returned a' /\
               reported a'.
Proof using writes_succeed is_flagged rule_parsed example_there example_sql example_flagged.
  induction files as [|f0 rest IH]; intros a w Hin; [destruct Hin|].
  cbn [forFiles]. rewrite (result_ask_bind h).
  destruct Hin as [->|Hin].
  - rewrite rule_parsed. rewrite result_bind.
    destruct (forExamples_flagged f (title rule) (examples rule) a
                (snd (h (ParseRuleFile (join RULES_DIR f)) w)) ex
                example_there example_sql example_flagged) as ([a1 oe] & -> & Ha1).
    cbn [fst snd] in *.
    destruct oe as [e|]; [|apply forFiles_after; exact Ha1].
    unfold processingError, console. rewrite (result_ask_bind h (Console _ _)).
    apply forFiles_after. exact Ha1.
  - destruct (fst (h (ParseRuleFile (join RULES_DIR f0)) w)) as [rule0|e].
    + rewrite result_bind.
      destruct (forExamples_run h (validateSQL BUILD_DIR) (validateSQL_notParse BUILD_DIR)
                  f0 (title rule0) (examples rule0) a
                  (snd (h (ParseRuleFile (join RULES_DIR f0)) w)))
        as (a1 & oe & -> & _ & _).
      cbn [fst snd].
      destruct oe as [e|]; [|apply IH; exact Hin].
      unfold processingError, console. rewrite (result_ask_bind h (Console _ _)).
      apply IH. exact Hin.
    + unfold processingError, console. rewrite (result_ask_bind h (Console _ _)).
      apply IH. exact Hin.
Qed.

Lemma reportErrors_returns (errs : list SQLValidationError) (w : W) :
  result_of h (reportErrors errs) w = Returned tt.
Proof.
  revert w. induction errs as [|e rest IH]; intros w; [reflexivity|].
  cbn [reportErrors]. unfold console.
  rewrite !(result_ask_bind h (Console _ _)). apply IH.
Qed.

Hypothesis binary_there : forall p w, exists x, fst (h (Stat p) w) = Resolved x.
Hypothesis is_rule_file : isRuleFile f = true.
Hypothesis rule_listed :
  forall w, exists files, fst (h (Readdir RULES_DIR) w) = Resolved files /\ In f files.

(** X9.  A flagged example fails the run.  When the engine binary is
    there, the rules directory can be listed and temporary files can be
    written, and a rule file of the listing is parsed to a rule one of
    whose SQL examples is flagged by the deny-list, the validation run
    ends the process with status 1, whatever else the environment
    answers. *)
Theorem flagged_example_fails (w : W) :
  result_of h (validateSQLInRules RULES_DIR BUILD_DIR) w = Exited 1.
Proof using All.
  unfold validateSQLInRules, validateSQLInRulesWith, result_of.
  rewrite run_tryCatch.
  match goal with |- fst (fst (orElse h _ (run h ?b w))) = _ =>
    assert (Hbody : result_of h b w = Exited 1)
  end.
  { unfold console.
    rewrite !(result_ask_bind h (Console _ _)).
    rewrite result_bind, (ensureClickHouse_found h) by exact binary_there.
    cbn [negb]. rewrite result_bind. cbn [result_of run fst snd].
    rewrite result_bind, (result_ask_bind h).
    match goal with |- context [h (Readdir RULES_DIR) ?w0] =>
      destruct (rule_listed w0) as (files & Hl & Hin); rewrite Hl
    end.
    cbn [settle result_of run fst snd].
    rewrite result_bind.
    match goal with |- context [forFiles RULES_DIR _ ?fs _] =>
      match goal with |- context [result_of h (forFiles RULES_DIR _ fs ?a0) ?w0] =>
        destruct (forFiles_flagged fs a0 w0) as (a' & -> & e & He & _)
      end
    end.
    { apply filter_In. split; [exact Hin|exact is_rule_file]. }
    destruct (allErrors a') as [|e0 errs] eqn:Ea; [destruct He|].
    cbn [length Nat.ltb Nat.leb].
    rewrite (result_ask_bind h (Console _ _)).
    rewrite result_bind, reportErrors_returns. reflexivity. }
  unfold result_of in Hbody. unfold orElse.
  destruct (run h _ w) as [[o tr] w']. cbn [fst snd] in *. subst o. reflexivity.
Qed.

End Failing.

Lemma flagged_example_fails_witness :
  result_of (parsed [str "README.md"; str "query-files.md"] fileRule)
    (ValidateSql.validateSQLInRules (str "rules") (str "build")) tt = Exited 1.
Proof.
  apply (flagged_example_fails (parsed [str "README.md"; str "query-files.md"] fileRule)
           (str "rules") (str "build")
           (fun p d w => ex_intro _ tt eq_refl)
           scenarioB
           (str "Security: SQL contains dangerous pattern: file() table function (file system access)")
           eq_refl
           (str "query-files.md") fileRule
           (IO.MkExample (str "Incorrect") (Some (str "sql")) scenarioB)).
  - intros w. reflexivity.
  - left. reflexivity.
  - reflexivity.
  - reflexivity.
  - intros p w. exists tt. reflexivity.
  - reflexivity.
  - intros w. eexists. split; [reflexivity|]. right. left. reflexivity.
Defined.

(* ===================================================================== *)
(** ** Extracting the links of a markdown text                            *)
(* ===================================================================== *)

Section Links.

Import CheckLinks.

(** A match of the link pattern: the text it matched and its two
    groups. *)
Lemma link_match_inv pv s st :
  matchHere false linkRegex pv s = Some st ->
  exists t l rest,
    s = mdLink t l ++ rest /\
    t <> [] /\ forallb notCloseBracket t = true /\
    l <> [] /\ forallb notCloseParen l = true /\
    groups st = [t; l] /\ consumed st = S (length t + length l + 3).
Proof.
  unfold matchHere, linkRegex, Plus, mdLink.
  change (chr "[") with 91%N. change (chr "]") with 93%N.
  change (chr "(") with 40%N. change (chr ")") with 41%N.
  change (str "[") with [91%N]. change (str "](") with [93%N; 40%N].
  change (str ")") with [41%N].
  cbn [matcher input chr_eq step groups consumed prev].
  destruct s as [|x s]; [discriminate|].
  destruct (N.eqb_spec 91 x) as [<-|]; [|discriminate].
  destruct s as [|y s]; [discriminate|].
  destruct (notCloseBracket y) eqn:Hy; [|discriminate].
  intros H. apply rep_inv in H as (m & rest & pv1 & -> & Hm & H).
  rewrite (capture_groups _ _ _ _ _ (y :: m)) in H by (cbn; first [reflexivity|lia]).
  cbn [matcher input chr_eq step groups consumed prev app] in H.
  destruct rest as [|z rest]; [discriminate|].
  destruct (N.eqb_spec 93 z) as [<-|]; [|discriminate].
  destruct rest as [|z rest]; [discriminate|].
  destruct (N.eqb_spec 40 z) as [<-|]; [|discriminate].
  destruct rest as [|z rest]; [discriminate|].
  destruct (notCloseParen z) eqn:Hz; [|discriminate].
  apply rep_inv in H as (m2 & rest2 & pv2 & -> & Hm2 & H).
  rewrite (capture_groups _ _ _ _ _ (z :: m2)) in H by (cbn; first [reflexivity|lia]).
  cbn [matcher input chr_eq step groups consumed prev app] in H.
  destruct rest2 as [|c rest2]; [discriminate|].
  destruct (N.eqb_spec 41 c) as [<-|]; [|discriminate].
  injection H as <-. cbn [groups consumed step].
  exists (y :: m), (z :: m2), rest2.
  split; [cbn [app]; repeat (rewrite <- app_assoc; cbn [app]); reflexivity|].
  split; [discriminate|]. split; [cbn; rewrite Hy; exact Hm|].
  split; [discriminate|]. split; [cbn; rewrite Hz; exact Hm2|].
  split; [reflexivity|cbn; lia].
Qed.

(** The pattern starts with a literal character: what comes before the
    position tried does not matter. *)
Lemma link_match_prev pv pv' s :
  matchHere false linkRegex pv s = matchHere false linkRegex pv' s.
Proof.
  unfold matchHere, linkRegex. cbn [matcher input].
  destruct s as [|x s]; reflexivity.
Qed.

Lemma execLoop_prev s : forall skip pv pv',
  execLoop false linkRegex skip pv s = execLoop false linkRegex skip pv' s.
Proof.
  destruct s as [|c t]; intros skip pv pv'; destruct skip as [|m]; cbn [execLoop];
    rewrite ?(link_match_prev pv None), ?(link_match_prev pv' None); reflexivity.
Qed.

Lemma link_no_match pv c s :
  notOpenBracket c = true -> matchHere false linkRegex pv (c :: s) = None.
Proof.
  unfold matchHere, linkRegex, notOpenBracket. cbn [matcher input chr_eq].
  rewrite N.eqb_sym. intros H. apply negb_true_iff in H. rewrite H. reflexivity.
Qed.

(** A link is matched where it stands. *)
Lemma link_match pv t l rest :
  t <> [] -> forallb notCloseBracket t = true ->
  l <> [] -> forallb notCloseParen l = true ->
  exists pv',
    matchHere false linkRegex pv (mdLink t l ++ rest)
    = Some (MState pv' rest [t; l] (S (length t + length l + 3))).
Proof.
  intros Ht Hta Hl Hla.
  destruct t as [|y m]; [congruence|]. destruct l as [|z m2]; [congruence|].
  cbn in Hta, Hla. apply andb_true_iff in Hta as [Hy Hm], Hla as [Hz Hm2].
  unfold matchHere, linkRegex, Plus, mdLink.
  change (chr "[") with 91%N. change (chr "]") with 93%N.
  change (chr "(") with 40%N. change (chr ")") with 41%N.
  change (str "[") with [91%N]. change (str "](") with [93%N; 40%N].
  change (str ")") with [41%N].
  cbn [app]. repeat (rewrite <- app_assoc; cbn [app]).
  cbn [matcher input chr_eq step groups consumed prev N.eqb Pos.eqb].
  rewrite Hy.
  eexists.
  apply rep_longest; [exact Hm|intros d [= <-]; reflexivity|].
  rewrite (capture_groups _ _ _ _ _ (y :: m)) by (cbn; first [reflexivity|lia]).
  cbn [matcher input chr_eq step groups consumed prev app N.eqb Pos.eqb].
  rewrite Hz.
  apply rep_longest; [exact Hm2|intros d [= <-]; reflexivity|].
  rewrite (capture_groups _ _ _ _ _ (z :: m2)) by (cbn; first [reflexivity|lia]).
  cbn [matcher input chr_eq step groups consumed prev app N.eqb Pos.eqb].
  unfold step. cbn [groups consumed prev input]. apply f_equal.
  apply (f_equal2 (fun p n => MState p rest [y :: m; z :: m2] n)); [reflexivity|cbn; lia].
Qed.

Lemma execLoop_skip X : forall pv Y,
  execLoop false linkRegex (length X) pv (X ++ Y) = execLoop false linkRegex 0 None Y.
Proof.
  induction X as [|c X IH]; intros pv Y.
  - apply execLoop_prev.
  - cbn [length app execLoop]. apply IH.
Qed.

Lemma execLoop_plain pre : forall pv Y,
  forallb notOpenBracket pre = true ->
  execLoop false linkRegex 0 pv (pre ++ Y) = execLoop false linkRegex 0 None Y.
Proof.
  induction pre as [|c pre IH]; intros pv Y Hpre.
  - apply execLoop_prev.
  - cbn in Hpre. apply andb_true_iff in Hpre as [Hc Hpre].
    cbn [app execLoop]. rewrite (link_no_match pv c _ Hc). apply IH. exact Hpre.
Qed.

Lemma execLoop_sound s : forall skip pv gs,
  In gs (execLoop false linkRegex skip pv s) ->
  exists pre t l post,
    s = pre ++ mdLink t l ++ post /\ gs = [t; l] /\
    t <> [] /\ forallb notCloseBracket t = true /\
    l <> [] /\ forallb notCloseParen l = true.
Proof.
  induction s as [|c s IH]; intros skip pv gs Hin.
  - destruct skip; cbn [execLoop] in Hin; [|destruct Hin].
    destruct (matchHere false linkRegex pv []); destruct Hin.
  - assert (Hrec : forall m pv', In gs (execLoop false linkRegex m pv' s) ->
              exists pre t l post,
                c :: s = pre ++ mdLink t l ++ post /\ gs = [t; l] /\
                t <> [] /\ forallb notCloseBracket t = true /\
                l <> [] /\ forallb notCloseParen l = true).
    { intros m pv' H. destruct (IH _ _ _ H) as (pre & t & l & post & -> & Hgs).
      exists (c :: pre), t, l, post. split; [reflexivity|exact Hgs]. }
    destruct skip as [|m]; cbn [execLoop] in Hin; [|exact (Hrec _ _ Hin)].
    destruct (matchHere false linkRegex pv (c :: s)) as [st|] eqn:Hm;
      [|exact (Hrec _ _ Hin)].
    destruct (link_match_inv _ _ _ Hm) as (t & l & rest & Hs & Ht & Hta & Hl & Hla & Hg & Hc).
    rewrite Hc in Hin. destruct Hin as [<-|Hin]; [|exact (Hrec _ _ Hin)].
    exists [], t, l, rest. cbn [app]. auto 10.
Qed.

(** X11.  Every link the scripts extract from a text stands in the text as
    the target of a markdown link: after a bracketed label that is not
    empty and holds no closing bracket, between [](] and [)]; the target
    is not empty and holds no closing parenthesis.  The internal and the
    external link checker extract the same links. *)
Theorem extractLinks_sound (content : jsstring) :
  CollectLinks.extractMarkdownLinks content = extractLinks content /\
  Forall (fun l =>
            exists pre label post,
              content = pre ++ mdLink label l ++ post /\
              label <> [] /\ forallb notCloseBracket label = true /\
              l <> [] /\ forallb notCloseParen l = true)
         (extractLinks content).
Proof.
  split; [reflexivity|].
  apply List.Forall_forall. intros l Hin.
  unfold extractLinks in Hin. apply in_map_iff in Hin as (gs & <- & Hgs).
  destruct (execLoop_sound _ _ _ _ Hgs) as (pre & t & l & post & -> & -> & Hrest).
  exists pre, t, post. split; [reflexivity|exact Hrest].
Qed.

(** X12.  A markdown link is extracted where it stands: when the text before
    it holds no opening bracket, its label is not empty and holds no
    closing bracket, and its target is not empty and holds no closing
    parenthesis, the links of the text are that target followed by the
    links of the text after the link. *)
Theorem extractLinks_first (pre label l post : jsstring) :
  forallb notOpenBracket pre = true ->
  label <> [] -> forallb notCloseBracket label = true ->
  l <> [] -> forallb notCloseParen l = true ->
  extractLinks (pre ++ mdLink label l ++ post) = l :: extractLinks post.
Proof.
  intros Hpre Ht Hta Hl Hla. unfold extractLinks.
  rewrite (execLoop_plain pre None _ Hpre).
  destruct (link_match None label l post Ht Hta Hl Hla) as [pv' Hm].
  assert (Hlen : length (mdLink label l) = S (length label + length l + 3)).
  { unfold mdLink. rewrite !length_app. cbn. lia. }
  destruct (mdLink label l) as [|c X] eqn:E; [discriminate|].
  cbn [app execLoop]. cbn [app] in Hm. rewrite Hm. cbn [consumed groups].
  injection Hlen as Hlen. rewrite <- Hlen, execLoop_skip. reflexivity.
Qed.

End Links.

Lemma extractLinks_first_witness :
  CheckLinks.extractLinks
    (str "see " ++ mdLink (str "the docs") (str "https://clickhouse.com/docs")
     ++ str " and [b](./b.md)")
  = str "https://clickhouse.com/docs" :: CheckLinks.extractLinks (str " and [b](./b.md)").
Proof.
  apply (extractLinks_first (str "see ") (str "the docs") (str "https://clickhouse.com/docs")
           (str " and [b](./b.md)")).
  - reflexivity.
  - discriminate.
  - reflexivity.
  - discriminate.
  - reflexivity.
Defined.

(* ===================================================================== *)
(** ** The internal link checker as a whole                               *)
(* ===================================================================== *)

Section LinkChecker.

Import CheckLinks.

Variable RULES_DIR : jsstring.

#[local] Abbreviation P := (linkCheckerRequest RULES_DIR).

Lemma linkFiles_confined (ruleFiles todo : list jsstring) (acc : list LinkError) :
  Forall (fun f => endsWith f (str ".md") = true) todo ->
  Confined P isOne anyError anyValue (forFiles RULES_DIR ruleFiles todo acc).
Proof.
  intros Hall. revert acc.
  induction Hall as [|f rest Hf Hrest IH]; intros acc; cbn [forFiles].
  - constructor. exact I.
  - cbn [ask bind]. constructor; [exists f; auto|].
    intros [content|e]; cbn [settle bind]; [apply IH|constructor; exact I].
Qed.

Lemma linkReport_confined (errs : list LinkError) :
  Confined P isOne anyError anyValue (reportErrors errs).
Proof.
  induction errs as [|e rest IH]; cbn [reportErrors]; [constructor; exact I|].
  repeat (apply (Confined_bind P isOne anyError anyValue);
          [apply Confined_console; exact I|intros _ _]).
  exact IH.
Qed.

Lemma checkLinks_confined :
  Confined P isOne noError anyValue (checkLinks RULES_DIR).
Proof.
  unfold checkLinks.
  apply (Confined_tryCatch P isOne anyError).
  - apply (Confined_bind P isOne anyError anyValue);
      [apply Confined_console; exact I|intros _ _].
    apply (Confined_bind P isOne anyError anyValue);
      [apply Confined_console; exact I|intros _ _].
    apply (Confined_bind P isOne anyError anyValue).
    { apply (Confined_await P isOne (Readdir _) (fun x => x)). reflexivity. }
    intros files _.
    apply (Confined_bind P isOne anyError anyValue).
    { apply linkFiles_confined. apply List.Forall_forall. intros f Hf.
      apply filter_In in Hf. tauto. }
    intros allErrors _.
    destruct (0 <? length allErrors)%nat.
    + apply (Confined_bind P isOne anyError anyValue);
        [apply Confined_console; exact I|intros _ _].
      apply (Confined_bind P isOne anyError anyValue);
        [apply linkReport_confined|intros _ _].
      constructor. reflexivity.
    + apply Confined_console. exact I.
  - intros e _.
    apply (Confined_bind P isOne noError anyValue);
      [apply Confined_console; exact I|intros _ _].
    constructor. reflexivity.
Qed.

End LinkChecker.

(** X13.  The internal link checker only reads: whatever the environment
    answers, it asks for the listing of the rules directory, for the
    content of files of that directory whose name ends in [.md], and for
    the console, and for nothing else (no write, no subprocess, no
    network); it never ends with an exception: it returns, or ends the
    process with status 1. *)
Theorem checkLinks_requests {W : Type} (h : handler W) (w : W) (RULES_DIR : jsstring) :
  Forall (linkCheckerRequest RULES_DIR)
    (requests (trace_of h (CheckLinks.checkLinks RULES_DIR) w)) /\
  (result_of h (CheckLinks.checkLinks RULES_DIR) w = Returned tt \/
   result_of h (CheckLinks.checkLinks RULES_DIR) w = Exited 1).
Proof.
  destruct (Confined_run (linkCheckerRequest RULES_DIR) isOne noError anyValue
              (CheckLinks.checkLinks RULES_DIR) h w (checkLinks_confined RULES_DIR))
    as [Htr Hres].
  split; [exact Htr|].
  destruct (result_of h (CheckLinks.checkLinks RULES_DIR) w) as [[]|e|c].
  - left. reflexivity.
  - destruct Hres.
  - right. rewrite Hres. reflexivity.
Qed.

(* --------------------------------------------------------------------- *)
(** *** On a directory                                                    *)

Section OnDisk.

Import CheckLinks.

Variable RULES_DIR : jsstring.
Variable files : list (jsstring * jsstring).

Hypothesis names_distinct : List.NoDup (map fst files).
Hypothesis names_plain : Forall (fun f => isFileName (fst f) = true) files.

Lemma untilSlash_app (a b : jsstring) :
  forallb (fun c => negb (isSlash c)) a = true ->
  untilSlash (a ++ chr "/" :: b) = a.
Proof.
  induction a as [|c a IH]; intros H.
  - reflexivity.
  - cbn in H. apply andb_true_iff in H as [Hc Ha]. apply negb_true_iff in Hc.
    cbn [app untilSlash]. rewrite Hc, (IH Ha). reflexivity.
Qed.

Lemma forallb_rev {A : Type} (p : A -> bool) (l : list A) :
  forallb p (rev l) = forallb p l.
Proof.
  induction l as [|x l IH]; [reflexivity|].
  cbn [rev forallb]. rewrite forallb_app, IH. cbn. rewrite andb_true_r. apply andb_comm.
Qed.

Lemma basename_join (d f : jsstring) :
  isFileName f = true -> basename (join d f) = f.
Proof.
  unfold isFileName, basename, join. intros H. apply andb_true_iff in H as [Hne Hf].
  change (str "/") with [chr "/"].
  rewrite !rev_app_distr. cbn [rev app]. rewrite <- app_assoc. cbn [app].
  assert (Hr : forallb (fun c => negb (isSlash c)) (rev f) = true)
    by (rewrite forallb_rev; exact Hf).
  destruct (rev f) as [|x r] eqn:E.
  { destruct f; [discriminate|]. cbn in E. destruct (rev f); discriminate. }
  cbn [app dropSlashes]. cbn in Hr. apply andb_true_iff in Hr as [Hx Hr'].
  apply negb_true_iff in Hx. rewrite Hx.
  change (x :: r ++ chr "/" :: rev d) with ((x :: r) ++ chr "/" :: rev d).
  rewrite untilSlash_app by (cbn; rewrite Hx, Hr'; reflexivity).
  rewrite <- E. apply rev_involutive.
Qed.

Lemma find_unique (f c : jsstring) (l : list (jsstring * jsstring)) :
  List.NoDup (map fst l) -> In (f, c) l ->
  List.find (fun e => list_eqb (fst e) f) l = Some (f, c).
Proof.
  induction l as [|[f' c'] l IH]; intros Hnd Hin; [destruct Hin|].
  cbn [map fst] in Hnd. apply List.NoDup_cons_iff in Hnd as [Hnot Hnd].
  cbn [List.find fst]. destruct (list_eqb f' f) eqn:E.
  - apply list_eqb_eq in E. subst f'.
    destruct Hin as [[= ->]|Hin]; [reflexivity|].
    exfalso. apply Hnot. apply in_map_iff. exists (f, c). auto.
  - destruct Hin as [[= -> ->]|Hin].
    + rewrite (proj2 (list_eqb_eq f f) eq_refl) in E. discriminate.
    + apply IH; assumption.
Qed.

Lemma contentOf_file (f c : jsstring) :
  In (f, c) files -> contentOf files (join RULES_DIR f) = Resolved c.
Proof using names_distinct names_plain.
  intros Hin. unfold contentOf.
  rewrite basename_join.
  - rewrite (find_unique f c files names_distinct Hin). reflexivity.
  - exact (proj1 (List.Forall_forall _ _) names_plain (f, c) Hin).
Qed.

Lemma forFiles_disk (ruleFiles : list jsstring) (ps : list (jsstring * jsstring)) :
  (forall p, In p ps -> In p files) ->
  forall acc,
    result_of (disk files) (forFiles RULES_DIR ruleFiles (map fst ps) acc) tt
    = Returned (acc ++ flat_map (fun p => scanFile ruleFiles (fst p) (snd p)) ps).
Proof using names_distinct names_plain.
  induction ps as [|[f c] ps IH]; intros Hsub acc.
  - cbn. rewrite app_nil_r. reflexivity.
  - cbn [map fst forFiles]. unfold result_of. cbn [bind ask run fst snd disk].
    rewrite (contentOf_file f c) by (apply Hsub; left; reflexivity).
    cbn [settle bind]. fold (result_of (disk files)
      (forFiles RULES_DIR ruleFiles (map fst ps) (acc ++ scanFile ruleFiles f c)) tt).
    rewrite IH by (intros p Hp; apply Hsub; right; exact Hp).
    cbn [flat_map fst snd]. rewrite app_assoc. reflexivity.
Qed.

Lemma filter_map_fst (p : jsstring -> bool) (l : list (jsstring * jsstring)) :
  List.filter p (map fst l) = map fst (List.filter (fun e => p (fst e)) l).
Proof.
  induction l as [|e l IH]; [reflexivity|].
  cbn [map List.filter]. destruct (p (fst e)); cbn [map]; rewrite IH; reflexivity.
Qed.

Lemma reportErrors_result (errs : list LinkError) :
  result_of (disk files) (reportErrors errs) tt = Returned tt.
Proof.
  induction errs as [|e rest IH]; [reflexivity|].
  unfold result_of in *. cbn [reportErrors console bind ask run fst snd disk].
  exact IH.
Qed.

#[local] Abbreviation violations := (violationsOf files).

Lemma checkLinks_disk :
  result_of (disk files) (checkLinks RULES_DIR) tt
  = if (0 <? length violations)%nat then Exited 1 else Returned tt.
Proof using names_distinct names_plain.
  unfold checkLinks, result_of. rewrite run_tryCatch.
  cbn [console bind ask run fst snd disk settle].
  fold isMd. rewrite (filter_map_fst isMd files).
  rewrite run_bind.
  pose proof (forFiles_disk (map fst (List.filter (fun e => isMd (fst e)) files))
                (List.filter (fun e => isMd (fst e)) files)) as Hf.
  unfold result_of in Hf.
  specialize (Hf (fun p Hp => proj1 (proj1 (filter_In _ _ _) Hp)) []).
  destruct (run (disk files) (forFiles RULES_DIR _ _ []) tt) as [[o tr] []].
  cbn [fst snd] in Hf. subst o. unfold andThen. cbn [fst snd app].
  rewrite <- (filter_map_fst isMd files). fold (violationsOf files).
  destruct (0 <? length violations)%nat.
  - cbn [console bind ask run fst snd disk]. rewrite run_bind.
    pose proof (reportErrors_result violations) as Hr. unfold result_of in Hr.
    destruct (run (disk files) (reportErrors violations) tt) as [[o2 tr2] []].
    cbn [fst snd] in Hr. subst o2. reflexivity.
  - reflexivity.
Qed.

Lemma violations_broken : violations <> [] <-> brokenLink files.
Proof.
  unfold violationsOf, brokenLink. fold isMd.
  set (ruleFiles := List.filter isMd (map fst files)).
  split.
  - intros Hne.
    destruct (flat_map _ _) as [|e l] eqn:E; [congruence|].
    assert (Hin : In e (flat_map (fun p => scanFile ruleFiles (fst p) (snd p))
                          (List.filter (fun e => isMd (fst e)) files)))
      by (rewrite E; left; reflexivity).
    apply in_flat_map in Hin as ([f c] & Hp & He).
    apply filter_In in Hp as [Hp Hmd]. cbn [fst snd] in *.
    unfold scanFile in He. apply in_flat_map in He as (l' & Hl' & He).
    destruct (checkLink_cases ruleFiles f l') as [[Hnil _]|(Herr & H1 & H2 & H3)].
    + rewrite Hnil in He. destruct He.
    + exists f, c, l'. auto 10.
  - intros (f & c & l & Hin & Hmd & Hl & H1 & H2 & H3) E.
    assert (Hv : In (MkLinkError f l (str "Referenced file does not exist: " ++ basename l))
                   (flat_map (fun p => scanFile ruleFiles (fst p) (snd p))
                      (List.filter (fun e => isMd (fst e)) files))).
    { apply in_flat_map. exists (f, c). split.
      - apply filter_In. split; [exact Hin|exact Hmd].
      - cbn [fst snd]. unfold scanFile. apply in_flat_map. exists l. split; [exact Hl|].
        destruct (checkLink_cases ruleFiles f l) as [[_ [H|[H|H]]]|(Herr & _)];
          try congruence; try contradiction.
        rewrite Herr. left. reflexivity. }
    rewrite E in Hv. destruct Hv.
Qed.

(** X14.  The exit status of the internal link checker says whether a link
    is broken.  On a rules directory that can be read, whose files have
    distinct plain names, the run ends the process with status 1 exactly
    when some file whose name ends in [.md] holds an internal link that
    ends in [.md] and whose last component is not the name of such a file,
    and returns normally exactly when there is no such link. *)
Theorem checkLinks_exit_status :
  (result_of (disk files) (checkLinks RULES_DIR) tt = Exited 1 <-> brokenLink files) /\
  (result_of (disk files) (checkLinks RULES_DIR) tt = Returned tt <-> ~ brokenLink files).
Proof using names_distinct names_plain.
  rewrite checkLinks_disk, <- violations_broken.
  destruct violations as [|e l]; cbn [length Nat.ltb Nat.leb].
  - split; split; try discriminate; try congruence; auto.
  - split; split; try discriminate; try congruence; auto.
    intros H. exfalso. apply H. discriminate.
Qed.

End OnDisk.

Lemma checkLinks_exit_status_witness :
  let files := [ (str "a.md", str "see [b](./b.md) and [a](a.md)");
                 (str "notes.txt", str "[c](c.md)") ] in
  (result_of (disk files) (CheckLinks.checkLinks (str "rules")) tt = Exited 1
   <-> brokenLink files) /\
  (result_of (disk files) (CheckLinks.checkLinks (str "rules")) tt = Returned tt
   <-> ~ brokenLink files).
Proof.
  apply (checkLinks_exit_status (str "rules")).
  - repeat constructor; cbn; intros H; repeat (destruct H as [H|H]; try discriminate);
      exact H.
  - repeat constructor.
Defined.

(* ===================================================================== *)
(** ** One URL: what is asked, what is counted, what a failure reports   *)
(* ===================================================================== *)

Lemma delayFor_in (a : Z) :
  (0 < a)%Z -> In (CheckExternalLinks.delayFor a) CheckExternalLinks.RETRY_DELAYS.
Proof.
  intros Ha. unfold CheckExternalLinks.delayFor, CheckExternalLinks.RETRY_DELAYS.
  change (Z.of_nat (length [100; 200; 400]%Z) - 1)%Z with 2%Z.
  destruct (Z.eq_dec a 1%Z) as [->|H1]; [left; reflexivity|].
  destruct (Z.eq_dec a 2%Z) as [->|H2]; [right; left; reflexivity|].
  replace (Z.min (a - 1) 2) with 2%Z by lia. right; right; left; reflexivity.
Qed.

Section Attempts.

Import CheckExternalLinks.

Variables (u : jsstring) (src : Source) (timeout : Z).

#[local] Abbreviation ofUrl := (resultFor u src).

Lemma probe_confined (st : locals) :
  Confined (probeRequest u timeout) noExit noError
    (fun r => match r with inl res => ofUrl res | inr _ => True end)
    (probe u src timeout st).
Proof.
  unfold probe, tryProbe, fetchWith.
  apply (Confined_tryCatch (probeRequest u timeout) noExit anyError).
  - cbn [ask bind]. constructor; [split; reflexivity|].
    intros [r0|e0]; cbn [settle bind]; [|constructor; exact I].
    destruct (ok r0); cbn [negb bind]; [constructor; split; reflexivity|].
    constructor; [split; reflexivity|].
    intros [r1|e1]; cbn [settle bind]; [|constructor; exact I].
    destruct (ok r1); cbn [bind]; [constructor; split; reflexivity|].
    destruct ((200 <=? status r1) && (status r1 <? 300))%Z; constructor;
      [split; reflexivity|exact I].
  - intros e _. constructor. exact I.
Qed.

Lemma attempts_confined (n : nat) :
  forall (attempt : Z) (st : locals),
    Confined (probeRequest u timeout) noExit noError ofUrl
      (attempts u src timeout n attempt st).
Proof.
  induction n as [|n IH]; intros attempt st; cbn [attempts].
  - constructor. split; reflexivity.
  - apply (Confined_bind _ _ noError anyValue).
    + unfold backoff, sleep. destruct (0 <? attempt)%Z eqn:E; [|constructor; exact I].
      cbn [ask bind]. constructor; [|intros; constructor; exact I].
      apply delayFor_in. apply Z.ltb_lt. exact E.
    + intros st1 _.
      apply (Confined_bind _ _ noError
               (fun r => match r with inl res => ofUrl res | inr _ => True end));
        [apply probe_confined|].
      intros [res|st2] Hres; [constructor; exact Hres|apply IH].
Qed.

End Attempts.

(** X15.  The check of one URL touches nothing but that URL: whatever the
    environment answers and whatever the retry count, every request of
    [validateUrl] is a HEAD or GET request to the URL it was given, with
    the timeout it was given, or a wait of one of the configured delays;
    the call never throws and never ends the process, and the result it
    returns carries that URL and its source. *)
Theorem validateUrl_requests {W : Type} (h : handler W) (w : W)
    (u : jsstring) (src : CheckExternalLinks.Source) (timeout maxRetries : Z) :
  Forall (probeRequest u timeout)
    (requests (trace_of h (CheckExternalLinks.validateUrl u src timeout maxRetries) w)) /\
  exists res,
    result_of h (CheckExternalLinks.validateUrl u src timeout maxRetries) w = Returned res /\
    CheckExternalLinks.url res = u /\ CheckExternalLinks.source res = src.
Proof.
  destruct (Confined_run (probeRequest u timeout) noExit noError (resultFor u src)
              (CheckExternalLinks.validateUrl u src timeout maxRetries) h w) as [Htr Hres].
  { apply attempts_confined. }
  split; [exact Htr|].
  destruct (result_of h (CheckExternalLinks.validateUrl u src timeout maxRetries) w)
    as [res|e|c]; try contradiction.
  exists res. split; [reflexivity|exact Hres].
Qed.

Section Accounting.

Import CheckExternalLinks.

Context {W : Type} (h : handler W).
Variables (u : jsstring) (src : Source) (timeout : Z).

Lemma heads_app (a b : list (method * settled Response)) :
  heads (a ++ b) = (heads a + heads b)%nat.
Proof. unfold heads. rewrite List.filter_app, length_app. reflexivity. Qed.

Lemma probeShape_heads st fs r :
  probeShape u src st fs r -> heads fs = 1%nat /\ (length fs <= 2)%nat.
Proof. intros H. destruct H; cbn; lia. Qed.

Lemma probeShape_success st fs res :
  probeShape u src st fs (inl res) -> success res = true /\ retriesUsed res = used st.
Proof. intros H. inversion H; subst; split; reflexivity. Qed.

Lemma probeShape_used st fs st2 :
  probeShape u src st fs (inr st2) -> used st2 = used st.
Proof. intros H. inversion H; subst; reflexivity. Qed.

Lemma attempts_account (n : nat) :
  forall (attempt : Z) (st : locals) (w : W),
    (0 <= attempt)%Z -> used st = Z.max 0 (attempt - 1) ->
    exists res m,
      result_of h (attempts u src timeout n attempt st) w = Returned res /\
      (m <= n)%nat /\
      (success res = true -> (1 <= m)%nat) /\
      (success res = false -> m = n) /\
      retriesUsed res = Z.max 0 (attempt + Z.of_nat m - 1) /\
      sleeps (trace_of h (attempts u src timeout n attempt st) w) = waits attempt m /\
      heads (fetches (trace_of h (attempts u src timeout n attempt st) w)) = m /\
      (length (fetches (trace_of h (attempts u src timeout n attempt st) w)) <= 2 * m)%nat.
Proof.
  induction n as [|n IH]; intros attempt st w Ha Hused.
  - exists (exhausted u src st), 0%nat. cbn.
    split; [reflexivity|]. split; [lia|]. split; [discriminate|]. split; [reflexivity|].
    split; [lia|]. repeat split. lia.
  - destruct (attempts_step h u src timeout n attempt st w) as (r & Hshape & Hr).
    set (st1 := if (0 <? attempt)%Z
                then MkLocals (lastError st) (lastStatusCode st) (used st + 1)
                else st) in *.
    assert (Hst1 : used st1 = attempt).
    { unfold st1. destruct (0 <? attempt)%Z eqn:E; cbn.
      - apply Z.ltb_lt in E. lia.
      - apply Z.ltb_ge in E. lia. }
    clearbody st1.
    destruct (probeShape_heads _ _ _ Hshape) as [Hh Hl].
    destruct r as [res|st2].
    + destruct Hr as (Hres & Hsl & Hf).
      destruct (probeShape_success _ _ _ Hshape) as [Hok Hn].
      exists res, 1%nat. rewrite Hres, Hsl, Hf, Hh.
      split; [reflexivity|]. split; [lia|]. split; [lia|].
      split; [congruence|]. split; [lia|].
      split; [|split; [reflexivity|lia]].
      unfold waits. cbn [attemptsFrom List.filter].
      destruct (0 <? attempt)%Z; reflexivity.
    + destruct Hr as (Hres & Hsl & Hf).
      pose proof (probeShape_used _ _ _ Hshape) as Hst2.
      destruct (IH (attempt + 1)%Z st2
                  (snd (run h (probe u src timeout st1) (snd (run h (backoff attempt st) w)))))
        as (res & m & Hres' & Hm & Hs1 & Hs2 & Hn & Hsl' & Hh' & Hl'); [lia|lia|].
      exists res, (S m). rewrite Hres, Hsl, Hf, heads_app, length_app, Hh, Hsl', Hh'.
      split; [exact Hres'|]. split; [lia|]. split; [lia|].
      split; [intros E; rewrite (Hs2 E); reflexivity|].
      split; [rewrite Hn; lia|].
      split; [|split; [reflexivity|lia]].
      unfold waits. cbn [attemptsFrom List.filter].
      destruct (0 <? attempt)%Z; reflexivity.
Qed.

Lemma filter_positive (a : Z) (k : nat) :
  (0 < a)%Z -> List.filter (fun i => (0 <? i)%Z) (attemptsFrom a k) = attemptsFrom a k.
Proof.
  revert a. induction k as [|k IH]; intros a Ha; [reflexivity|].
  cbn [attemptsFrom List.filter].
  destruct (0 <? a)%Z eqn:E; [|apply Z.ltb_ge in E; lia].
  rewrite IH by lia. reflexivity.
Qed.

(** X16.  [retriesUsed] counts what was done: for a retry count that is not
    negative and in every environment, the waits of [validateUrl] are the
    delays of the retries 1 to [retriesUsed], in that order, the number of
    HEAD requests is [retriesUsed + 1], one for each attempt, and there is
    at most one other exchange (the GET request) for each HEAD request. *)
Theorem validateUrl_accounting (maxRetries : Z) (w : W) :
  (0 <= maxRetries)%Z ->
  exists res,
    result_of h (validateUrl u src timeout maxRetries) w = Returned res /\
    sleeps (trace_of h (validateUrl u src timeout maxRetries) w)
      = map delayFor (attemptsFrom 1 (Z.to_nat (retriesUsed res))) /\
    Z.of_nat (heads (fetches (trace_of h (validateUrl u src timeout maxRetries) w)))
      = (retriesUsed res + 1)%Z /\
    (length (fetches (trace_of h (validateUrl u src timeout maxRetries) w))
     <= 2 * heads (fetches (trace_of h (validateUrl u src timeout maxRetries) w)))%nat.
Proof.
  intros Hmax. unfold validateUrl.
  destruct (attempts_account (Z.to_nat (maxRetries + 1)) 0%Z (MkLocals [] None 0) w)
    as (res & m & Hres & Hm & Hs1 & Hs2 & Hn & Hsl & Hh & Hl); [lia|reflexivity|].
  assert (Hpos : (1 <= m)%nat).
  { destruct (success res); [auto|]. rewrite Hs2 by reflexivity. lia. }
  exists res. rewrite Hsl, Hh. split; [exact Hres|].
  destruct m as [|k]; [lia|].
  replace (retriesUsed res) with (Z.of_nat k) by lia.
  rewrite Nat2Z.id. split; [|split; [lia|exact Hl]].
  unfold waits. cbn [attemptsFrom List.filter Z.ltb Z.compare Z.add].
  rewrite filter_positive by lia. reflexivity.
Qed.

Lemma lastGetStatus_app init (a b : list (method * settled Response)) :
  lastGetStatus init (a ++ b) = lastGetStatus (lastGetStatus init a) b.
Proof. unfold lastGetStatus. apply fold_left_app. Qed.

(** What a failed attempt leaves behind, from its exchanges. *)
Lemma probeShape_failed st fs st2 :
  probeShape u src st fs (inr st2) ->
  exists x, last fs = Some x /\
    lastError st2 = failureText x /\
    lastStatusCode st2 = lastGetStatus (lastStatusCode st) fs.
Proof.
  intros H. inversion H; subst; eexists; (split; [reflexivity|]); split; reflexivity.
Qed.

Lemma attempts_failure (n : nat) :
  forall (attempt : Z) (st : locals) (w : W),
    exists res,
      result_of h (attempts u src timeout n attempt st) w = Returned res /\
      (success res = false ->
       statusCode res
         = lastGetStatus (lastStatusCode st)
             (fetches (trace_of h (attempts u src timeout n attempt st) w)) /\
       error res
         = Some match last (fetches (trace_of h (attempts u src timeout n attempt st) w)) with
                | Some x => failureText x
                | None => lastError st
                end /\
       ((1 <= n)%nat ->
        fetches (trace_of h (attempts u src timeout n attempt st) w) <> [])).
Proof.
  induction n as [|n IH]; intros attempt st w.
  - exists (exhausted u src st). split; [reflexivity|]. intros _. cbn.
    repeat split. lia.
  - destruct (attempts_step h u src timeout n attempt st w) as (r & Hshape & Hr).
    set (st1 := if (0 <? attempt)%Z
                then MkLocals (lastError st) (lastStatusCode st) (used st + 1)
                else st) in *.
    assert (Hst1 : lastStatusCode st1 = lastStatusCode st /\ lastError st1 = lastError st).
    { unfold st1. destruct (0 <? attempt)%Z; split; reflexivity. }
    clearbody st1. destruct Hst1 as [Hcode Herr].
    destruct r as [res|st2].
    + destruct Hr as (Hres & _).
      destruct (probeShape_success _ _ _ Hshape) as [Hok _].
      exists res. split; [exact Hres|]. congruence.
    + destruct Hr as (Hres & _ & Hf).
      destruct (probeShape_failed _ _ _ Hshape) as (x & Hx & Hxe & Hxc).
      destruct (IH (attempt + 1)%Z st2
                  (snd (run h (probe u src timeout st1) (snd (run h (backoff attempt st) w)))))
        as (res & Hres' & Hfail).
      exists res. rewrite Hres, Hf. split; [exact Hres'|].
      intros Hno. destruct (Hfail Hno) as (Hc & He & _).
      rewrite lastGetStatus_app, <- Hcode, <- Hxc.
      split; [exact Hc|]. split.
      * rewrite He. f_equal.
        destruct (fetches (trace_of h (attempts u src timeout n (attempt + 1) st2) _))
          as [|y l] eqn:E.
        { rewrite app_nil_r, Hx. cbn. exact Hxe. }
        rewrite last_app. destruct (last (y :: l)) eqn:El; [reflexivity|].
        apply last_None in El. discriminate.
      * intros _ E. apply app_eq_nil in E as [E _]. rewrite E in Hx. discriminate.
Qed.

(** X17.  What a failure reports.  For a retry count that is not negative,
    when [validateUrl] returns a failure, its [error] is the text of the
    last exchange (the class of the exception that ended it, or the status
    and status text of the last GET response), while its [statusCode] is
    the status of the last GET response of the whole run, which may come
    from an earlier attempt than the error, and is undefined when no GET
    request was answered; the status of a HEAD response is never
    reported. *)
Theorem validateUrl_failure_report (maxRetries : Z) (w : W) :
  (0 <= maxRetries)%Z ->
  exists res,
    result_of h (validateUrl u src timeout maxRetries) w = Returned res /\
    (success res = false ->
     exists x,
       last (fetches (trace_of h (validateUrl u src timeout maxRetries) w)) = Some x /\
       error res = Some (failureText x) /\
       statusCode res
         = lastGetStatus None (fetches (trace_of h (validateUrl u src timeout maxRetries) w))).
Proof.
  intros Hmax. unfold validateUrl.
  destruct (attempts_failure (Z.to_nat (maxRetries + 1)) 0%Z (MkLocals [] None 0) w)
    as (res & Hres & Hfail).
  exists res. split; [exact Hres|]. intros Hno.
  destruct (Hfail Hno) as (Hc & He & Hne).
  destruct (last (fetches (trace_of h (attempts u src timeout (Z.to_nat (maxRetries + 1)) 0
                                         (MkLocals [] None 0)) w))) as [x|] eqn:El.
  - exists x. auto.
  - exfalso. apply Hne; [lia|]. apply last_None. exact El.
Qed.

End Accounting.

Lemma validateUrl_accounting_witness :
  exists res,
    result_of scripted
      (CheckExternalLinks.validateUrl docsUrl skillSource
         CheckExternalLinks.TIMEOUT_MS CheckExternalLinks.MAX_RETRIES)
      [Rejected timeoutError; Resolved (MkResponse 503 (str "Service Unavailable"));
       Resolved (MkResponse 200 (str "OK"))] = Returned res /\
    sleeps (trace_of scripted
      (CheckExternalLinks.validateUrl docsUrl skillSource
         CheckExternalLinks.TIMEOUT_MS CheckExternalLinks.MAX_RETRIES)
      [Rejected timeoutError; Resolved (MkResponse 503 (str "Service Unavailable"));
       Resolved (MkResponse 200 (str "OK"))])
      = map CheckExternalLinks.delayFor
          (attemptsFrom 1 (Z.to_nat (CheckExternalLinks.retriesUsed res))) /\
    Z.of_nat (heads (fetches (trace_of scripted
      (CheckExternalLinks.validateUrl docsUrl skillSource
         CheckExternalLinks.TIMEOUT_MS CheckExternalLinks.MAX_RETRIES)
      [Rejected timeoutError; Resolved (MkResponse 503 (str "Service Unavailable"));
       Resolved (MkResponse 200 (str "OK"))])))
      = (CheckExternalLinks.retriesUsed res + 1)%Z /\
    (length (fetches (trace_of scripted
      (CheckExternalLinks.validateUrl docsUrl skillSource
         CheckExternalLinks.TIMEOUT_MS CheckExternalLinks.MAX_RETRIES)
      [Rejected timeoutError; Resolved (MkResponse 503 (str "Service Unavailable"));
       Resolved (MkResponse 200 (str "OK"))]))
     <= 2 * heads (fetches (trace_of scripted
      (CheckExternalLinks.validateUrl docsUrl skillSource
         CheckExternalLinks.TIMEOUT_MS CheckExternalLinks.MAX_RETRIES)
      [Rejected timeoutError; Resolved (MkResponse 503 (str "Service Unavailable"));
       Resolved (MkResponse 200 (str "OK"))])))%nat.
Proof.
  apply (validateUrl_accounting scripted). unfold CheckExternalLinks.MAX_RETRIES. lia.
Defined.

(** A page answered 404 and then unreachable: the failure carries the
    status of the first attempt and the error of the last. *)
Lemma validateUrl_failure_report_witness :
  exists res,
    result_of scripted
      (CheckExternalLinks.validateUrl docsUrl skillSource
         CheckExternalLinks.TIMEOUT_MS CheckExternalLinks.MAX_RETRIES)
      [Resolved (MkResponse 404 (str "Not Found"));
       Resolved (MkResponse 404 (str "Not Found"))] = Returned res /\
    (CheckExternalLinks.success res = false ->
     exists x,
       last (fetches (trace_of scripted
         (CheckExternalLinks.validateUrl docsUrl skillSource
            CheckExternalLinks.TIMEOUT_MS CheckExternalLinks.MAX_RETRIES)
         [Resolved (MkResponse 404 (str "Not Found"));
          Resolved (MkResponse 404 (str "Not Found"))])) = Some x /\
       CheckExternalLinks.error res = Some (failureText x) /\
       CheckExternalLinks.statusCode res
         = lastGetStatus None (fetches (trace_of scripted
         (CheckExternalLinks.validateUrl docsUrl skillSource
            CheckExternalLinks.TIMEOUT_MS CheckExternalLinks.MAX_RETRIES)
         [Resolved (MkResponse 404 (str "Not Found"));
          Resolved (MkResponse 404 (str "Not Found"))]))).
Proof.
  apply (validateUrl_failure_report scripted). unfold CheckExternalLinks.MAX_RETRIES. lia.
Defined.

Example stale_status_reported :
  result_of scripted
    (CheckExternalLinks.validateUrl docsUrl skillSource
       CheckExternalLinks.TIMEOUT_MS CheckExternalLinks.MAX_RETRIES)
    [Resolved (MkResponse 404 (str "Not Found"));
     Resolved (MkResponse 404 (str "Not Found"))]
  = Returned (CheckExternalLinks.MkResult docsUrl false (Some 404%Z)
                (Some (str "Request timeout")) skillSource 2).
Proof. vm_compute. reflexivity. Qed.

(* ===================================================================== *)
(** ** The URLs of a JSON file                                            *)
(* ===================================================================== *)

Section Json.

Import CollectLinks.


Lemma extractJsonUrls_strings_acc (obj : json) :
  forall urls,
    extractJsonUrls obj urls = urls ++ List.filter isExternalUrl (strings obj).
Proof.
  induction obj as [| | |s|items IH|fields IH] using json_induction; intros urls;
    cbn [extractJsonUrls strings List.filter]; try (rewrite app_nil_r; reflexivity).
  - unfold isExternalUrl.
    destruct (startsWith s (str "http://") || startsWith s (str "https://"));
      [reflexivity|rewrite app_nil_r; reflexivity].
  - revert urls. induction IH as [|item rest Hitem Hrest IHrest]; intros urls.
    + cbn. rewrite app_nil_r. reflexivity.
    + cbn [flat_map]. rewrite IHrest, Hitem, List.filter_app, app_assoc. reflexivity.
  - revert urls. induction IH as [|[k value] rest Hitem Hrest IHrest]; intros urls.
    + cbn. rewrite app_nil_r. reflexivity.
    + cbn [flat_map snd] in *.
      rewrite IHrest, Hitem, List.filter_app, app_assoc. reflexivity.
Qed.

Lemma filter_idem {A : Type} (p : A -> bool) (l : list A) :
  List.filter p (List.filter p l) = List.filter p l.
Proof.
  induction l as [|x l IH]; [reflexivity|].
  cbn [List.filter]. destruct (p x) eqn:E; cbn [List.filter]; rewrite ?E, IH; reflexivity.
Qed.

(** X18.  [extractJsonUrls] returns the array it was given followed by the
    strings of the JSON value that start with [http://] or [https://], in
    document order, whatever the nesting of arrays and objects; the keys
    of objects are not looked at.  On the empty array it returns external
    URLs only, so that the filter [checkExternalLinks] applies to its
    result keeps all of it. *)
Theorem extractJsonUrls_strings (obj : json) (urls : list jsstring) :
  extractJsonUrls obj urls = urls ++ List.filter isExternalUrl (strings obj) /\
  List.filter isExternalUrl (extractJsonUrls obj []) = extractJsonUrls obj [].
Proof.
  split; [apply extractJsonUrls_strings_acc|].
  rewrite extractJsonUrls_strings_acc. cbn [app]. apply filter_idem.
Qed.

End Json.

(* ===================================================================== *)
(** ** Finding the files to scan                                          *)
(* ===================================================================== *)

Section FindFiles.

Import CollectLinks.


Variable extensions : list jsstring.

(** [visit] on a directory is [walk] on its listing. *)
Lemma visit_dir dir n sub files :
  visit extensions dir (DirEntry n (Some sub)) files
  = walk extensions (join dir n) sub files.
Proof.
  cbn [visit name]. revert files.
  induction sub as [|e rest IH]; intros files; [reflexivity|].
  cbn [walk]. destruct (visit extensions (join dir n) e files); [apply IH|reflexivity].
Qed.

#[local] Abbreviation visitSpec :=
  (fun e : dirent =>
     forall dir files,
       if readable e
       then exists out,
              visit extensions dir e files = Some (files ++ out) /\
              forall p, In p out <-> Found extensions dir [e] p
       else visit extensions dir e files = None).

Lemma Found_cons dir e rest p :
  Found extensions dir (e :: rest) p <->
  Found extensions dir [e] p \/ Found extensions dir rest p.
Proof.
  split.
  - intros H. inversion H as [d es n Hin H1 H2|d es n sub q Hin Hq]; subst.
    + destruct Hin as [E|Hin].
      * left. apply Found_here; [left; exact E|assumption..].
      * right. apply Found_here; assumption.
    + destruct Hin as [E|Hin].
      * left. eapply Found_below; [left; exact E|exact Hq].
      * right. eapply Found_below; [exact Hin|exact Hq].
  - intros [H|H].
    + inversion H as [d es n Hin H1 H2|d es n sub q Hin Hq]; subst.
      * destruct Hin as [E|[]]. apply Found_here; [left; exact E|assumption..].
      * destruct Hin as [E|[]]. eapply Found_below; [left; exact E|exact Hq].
    + inversion H as [d es n Hin H1 H2|d es n sub q Hin Hq]; subst.
      * apply Found_here; [right; exact Hin|assumption..].
      * eapply Found_below; [right; exact Hin|exact Hq].
Qed.

Lemma Found_nil dir p : ~ Found extensions dir [] p.
Proof. intros H. inversion H; subst; contradiction. Qed.

Lemma walk_spec (entries : list dirent) :
  Forall visitSpec entries ->
  forall dir files,
    if forallb readable entries
    then exists out,
           walk extensions dir entries files = Some (files ++ out) /\
           forall p, In p out <-> Found extensions dir entries p
    else walk extensions dir entries files = None.
Proof.
  induction 1 as [|e rest He Hrest IH]; intros dir files.
  - cbn. exists []. rewrite app_nil_r. split; [reflexivity|].
    intros p. split; [intros []|apply Found_nil].
  - cbn [forallb walk]. specialize (He dir files).
    destruct (readable e); cbn [andb].
    + destruct He as (out1 & -> & H1). specialize (IH dir (files ++ out1)).
      destruct (forallb readable rest).
      * destruct IH as (out2 & -> & H2). exists (out1 ++ out2).
        rewrite app_assoc. split; [reflexivity|].
        intros p. rewrite in_app_iff, Found_cons, H1, H2. reflexivity.
      * rewrite IH. reflexivity.
    + rewrite He. reflexivity.
Qed.

Lemma visit_spec (e : dirent) : visitSpec e.
Proof.
  induction e as [n|n|n|n sub IH] using dirent_induction; intros dir files.
  - cbn [readable visit name].
    destruct (startsWith n (str "_")) eqn:Hu.
    { exists []. rewrite app_nil_r. split; [reflexivity|].
      intros p. split; [intros []|].
      intros H. inversion H as [d es m Hin H1 H2|d es m sub q Hin Hq]; subst.
      - destruct Hin as [[= <-]|[]]. congruence.
      - destruct Hin as [[=]|[]]. }
    destruct (existsb (endsWith n) extensions) eqn:Hx.
    + exists [join dir n]. split; [reflexivity|].
      intros p. split.
      * intros [<-|[]]. apply Found_here; [left; reflexivity|assumption..].
      * intros H. inversion H as [d es m Hin H1 H2|d es m sub q Hin Hq]; subst.
        -- destruct Hin as [[= <-]|[]]. left. reflexivity.
        -- destruct Hin as [[=]|[]].
    + exists []. rewrite app_nil_r. split; [reflexivity|].
      intros p. split; [intros []|].
      intros H. inversion H as [d es m Hin H1 H2|d es m sub q Hin Hq]; subst.
      * destruct Hin as [[= <-]|[]]. congruence.
      * destruct Hin as [[=]|[]].
  - cbn [readable visit]. exists []. rewrite app_nil_r. split; [reflexivity|].
    intros p. split; [intros []|].
    intros H. inversion H as [d es m Hin H1 H2|d es m sub q Hin Hq]; subst;
      destruct Hin as [[=]|[]].
  - reflexivity.
  - rewrite visit_dir. cbn [readable].
    pose proof (walk_spec sub IH (join dir n) files) as Hw.
    destruct (forallb readable sub); [|exact Hw].
    destruct Hw as (out & -> & Hout). exists out. split; [reflexivity|].
    intros p. rewrite Hout. split.
    + intros H. eapply Found_below; [left; reflexivity|exact H].
    + intros H. inversion H as [d es m Hin H1 H2|d es m sub' q Hin Hq]; subst.
      * destruct Hin as [[=]|[]].
      * destruct Hin as [[= <- <-]|[]]. exact Hq.
Qed.

(** X20.  What [findFiles] finds.  When every directory below [dir] can be
    listed, the paths returned are exactly the files, in [dir] or in any
    directory below it, whose name does not start with an underscore and
    ends in one of the extensions; directories are entered whatever their
    name, and entries that are neither files nor directories are passed
    over.  When the listing of [dir] or of some directory below it is
    refused, the search as a whole fails. *)
Theorem findFiles_found (dir : jsstring) (entries : list dirent) :
  match findFiles dir extensions (Some entries) with
  | Some out =>
      forallb readable entries = true /\
      forall p, In p out <-> Found extensions dir entries p
  | None => forallb readable entries = false
  end /\
  findFiles dir extensions None = None.
Proof.
  pose proof (walk_spec entries
                (proj2 (List.Forall_forall _ _) (fun e _ => visit_spec e)) dir []) as H.
  cbn [findFiles]. split; [|reflexivity].
  destruct (forallb readable entries).
  - destruct H as (out & -> & Hout). split; [reflexivity|exact Hout].
  - rewrite H. reflexivity.
Qed.

End FindFiles.

Example findFiles_sample :
  CollectLinks.findFiles (str "skills") [str ".md"; str ".json"]
    (Some [ CollectLinks.FileEntry (str "SKILL.md");
            CollectLinks.FileEntry (str "_template.md");
            CollectLinks.DirEntry (str "_drafts")
              (Some [CollectLinks.FileEntry (str "metadata.json");
                     CollectLinks.FileEntry (str "notes.txt")]);
            CollectLinks.OtherEntry (str "link.md") ])
  = Some [str "skills/SKILL.md"; str "skills/_drafts/metadata.json"].
Proof. vm_compute. reflexivity. Qed.

(* ===================================================================== *)
(** ** Collecting the links: one entry for each URL                       *)
(* ===================================================================== *)

Section Collecting.

Import CollectLinks.

Lemma has_In (m : linkMap) (k : jsstring) : has m k = true <-> In k (map fst m).
Proof.
  unfold has. rewrite existsb_exists, in_map_iff. split.
  - intros (e & He & Heq). apply list_eqb_eq in Heq. eauto.
  - intros (e & Heq & He). exists e. split; [exact He|]. apply list_eqb_eq. exact Heq.
Qed.

Lemma has_app (a b : linkMap) (k : jsstring) : has (a ++ b) k = has a k || has b k.
Proof. unfold has. apply existsb_app. Qed.

Lemma set_fresh (m : linkMap) (k : jsstring) (v : LinkInfo) :
  has m k = false -> set m k v = m ++ [(k, v)].
Proof.
  induction m as [|[k' v'] m IH]; intros H; [reflexivity|].
  cbn in H. apply orb_false_iff in H as [H1 H2].
  cbn [set app]. rewrite H1, (IH H2). reflexivity.
Qed.

Lemma addUrls_spec (p : jsstring) (urls : list jsstring) :
  forall m, exists new,
    addUrls p urls m = m ++ new /\
    List.NoDup (map fst new) /\
    Forall (fun e => has m (fst e) = false /\ In (fst e) urls /\
                     snd e = MkLinkInfo (fst e)
                               (CheckExternalLinks.MkSource
                                  (str "clickhouse-best-practices") p)) new /\
    (forall u, In u urls -> In u (map fst (m ++ new))).
Proof.
  induction urls as [|u rest IH]; intros m.
  - exists []. rewrite app_nil_r. repeat split; [constructor|constructor|intros u []].
  - cbn [addUrls]. destruct (has m u) eqn:Hu; cbn [negb].
    + destruct (IH m) as (new & E & Hnd & Hall & Hin).
      exists new. split; [exact E|]. split; [exact Hnd|]. split.
      * eapply List.Forall_impl; [|exact Hall]. cbn. intros e (H1 & H2 & H3). auto.
      * intros x [<-|Hx]; [|exact (Hin x Hx)].
        rewrite map_app. apply in_or_app. left. apply has_In. exact Hu.
    + rewrite (set_fresh _ _ _ Hu).
      set (v := MkLinkInfo u _).
      destruct (IH (m ++ [(u, v)])) as (new & E & Hnd & Hall & Hin).
      exists ((u, v) :: new). rewrite E, <- app_assoc. split; [reflexivity|].
      split; [|split].
      * cbn [map fst]. constructor; [|exact Hnd].
        intros Hu'. apply in_map_iff in Hu' as (e & He & Hin').
        apply (proj1 (List.Forall_forall _ _) Hall) in Hin' as (Hhas & _).
        rewrite has_app, He in Hhas. cbn in Hhas.
        rewrite (proj2 (list_eqb_eq u u) eq_refl) in Hhas.
        rewrite orb_true_r in Hhas. discriminate.
      * constructor; [cbn; auto|].
        eapply List.Forall_impl; [|exact Hall]. cbn. intros e (H1 & H2 & H3).
        rewrite has_app in H1. apply orb_false_iff in H1 as [H1 _]. auto.
      * intros x Hx. rewrite <- app_assoc in Hin. cbn [app] in Hin.
        destruct Hx as [<-|Hx]; [|exact (Hin x Hx)].
        rewrite map_app. apply in_or_app. right. left. reflexivity.
Qed.

Lemma filter_external (l : list jsstring) (u : jsstring) :
  In u (List.filter isExternalUrl l) -> isExternalUrl u = true.
Proof. intros H. apply filter_In in H. destruct H as [_ H]. exact H. Qed.

Context {W : Type} (h : handler W).
Variable SKILL_DIR : jsstring.
Variable relative : jsstring -> jsstring -> jsstring.
Variable parseJson : jsstring -> option json.

(** What [addUrls] adds for one file, in the terms of the loop. *)
Lemma addUrls_file (f : jsstring) (urls : list jsstring) (m : linkMap) :
  exists new,
    addUrls (relative SKILL_DIR f) (List.filter isExternalUrl urls) m = m ++ new /\
    List.NoDup (map fst new) /\
    Forall (fun e => has m (fst e) = false /\ recordedFrom SKILL_DIR relative [f] e) new /\
    (forall u, In u urls -> isExternalUrl u = true -> In u (map fst (m ++ new))).
Proof.
  destruct (addUrls_spec (relative SKILL_DIR f) (List.filter isExternalUrl urls) m)
    as (new & E & Hnd & Hall & Hin).
  exists new. split; [exact E|]. split; [exact Hnd|]. split.
  - eapply List.Forall_impl; [|exact Hall]. cbn. intros [k v] (H1 & H2 & H3).
    cbn [fst snd] in *. split; [exact H1|]. subst v. split; [reflexivity|].
    split; [exact (filter_external _ _ H2)|]. exists f. split; [left|]; reflexivity.
  - intros u Hu Hext. apply Hin. apply filter_In. auto.
Qed.

(** What the loop does with one file that could be read. *)
Lemma collect_cons (f content : jsstring) (rest : list jsstring) (m : linkMap) (w w1 : W) :
  h (ReadFile f) w = (Resolved content, w1) ->
  exists new1 w2,
    result_of h (collect SKILL_DIR relative parseJson (f :: rest) m) w
      = result_of h (collect SKILL_DIR relative parseJson rest (m ++ new1)) w2 /\
    reads (trace_of h (collect SKILL_DIR relative parseJson (f :: rest) m) w)
      = (f, Resolved content)
        :: reads (trace_of h (collect SKILL_DIR relative parseJson rest (m ++ new1)) w2) /\
    List.NoDup (map fst new1) /\
    Forall (fun e => has m (fst e) = false /\ recordedFrom SKILL_DIR relative [f] e) new1 /\
    (endsWith f (str ".md") = true ->
     forall u, In u (extractMarkdownLinks content) -> isExternalUrl u = true ->
               In u (map fst (m ++ new1))).
Proof.
  intros Hh. cbn [collect]. unfold result_of, trace_of.
  cbn [bind ask run fst snd]. rewrite Hh. cbn [fst snd settle bind].
  destruct (endsWith f (str ".md")) eqn:Hmd.
  - destruct (addUrls_file f (extractMarkdownLinks content) m)
      as (new1 & -> & Hnd & Hall & Hin).
    exists new1, w1. repeat split; auto.
  - destruct (endsWith f (str ".json")).
    + destruct (parseJson content) as [jsonData|].
      * destruct (addUrls_file f (extractJsonUrls jsonData []) m)
          as (new1 & -> & Hnd & Hall & Hin).
        exists new1, w1. repeat split; auto. discriminate.
      * exists [], (snd (h (Console WarnLevel
                              [VStr (str "Warning: Could not parse JSON file "
                                     ++ relative SKILL_DIR f)]) w1)).
        rewrite app_nil_r. cbn [console bind ask run fst snd].
        repeat split; [constructor|constructor|discriminate].
    + exists [], w1. rewrite app_nil_r. cbn [addUrls].
      repeat split; [constructor|constructor|discriminate].
Qed.

Lemma recordedFrom_cons f files e :
  recordedFrom SKILL_DIR relative files e -> recordedFrom SKILL_DIR relative (f :: files) e.
Proof.
  intros (H1 & H2 & g & Hg & H3). split; [exact H1|]. split; [exact H2|].
  exists g. split; [right; exact Hg|exact H3].
Qed.

Lemma recordedFrom_head f files e :
  recordedFrom SKILL_DIR relative [f] e -> recordedFrom SKILL_DIR relative (f :: files) e.
Proof.
  intros (H1 & H2 & g & Hg & H3). split; [exact H1|]. split; [exact H2|].
  exists g. split; [|exact H3]. destruct Hg as [<-|[]]. left. reflexivity.
Qed.

(** X19.  The link map holds one entry for each URL.  When the loop of
    [checkExternalLinks] over the files ends, the entries the map had are
    still there, unchanged and in the same order, and the new entries come
    after them: their URLs are distinct and were not in the map, each is
    external and is attributed to one of the files scanned; and every
    external link of a markdown file that was read is the key of an entry
    of the map. *)
Theorem collect_unique (files : list jsstring) :
  forall (m m' : linkMap) (w : W),
    result_of h (collect SKILL_DIR relative parseJson files m) w = Returned m' ->
    exists new,
      m' = m ++ new /\
      List.NoDup (map fst new) /\
      Forall (fun e => has m (fst e) = false /\ recordedFrom SKILL_DIR relative files e) new /\
      (forall p c u,
         In (p, Resolved c)
            (reads (trace_of h (collect SKILL_DIR relative parseJson files m) w)) ->
         endsWith p (str ".md") = true ->
         In u (extractMarkdownLinks c) -> isExternalUrl u = true ->
         In u (map fst m')).
Proof.
  induction files as [|f rest IH]; intros m m' w Hres.
  - cbn in Hres. injection Hres as <-. exists []. rewrite app_nil_r.
    split; [reflexivity|]. split; [constructor|]. split; [constructor|].
    intros p c u [].
  - destruct (h (ReadFile f) w) as [[content|e] w1] eqn:Hh.
    2: { unfold result_of in Hres. cbn [collect bind ask run fst snd] in Hres.
         rewrite Hh in Hres. discriminate. }
    destruct (collect_cons f content rest m w w1 Hh)
      as (new1 & w2 & Hr & Ht & Hnd1 & Hall1 & Hmd).
    rewrite Hr in Hres. rewrite Ht.
    destruct (IH _ _ _ Hres) as (new2 & -> & Hnd2 & Hall2 & Hin2).
    exists (new1 ++ new2). rewrite app_assoc. split; [reflexivity|].
    split; [|split].
    + rewrite map_app. apply List.NoDup_app; [exact Hnd1|exact Hnd2|].
      intros k Hk1 Hk2.
      apply in_map_iff in Hk2 as (e & <- & He).
      apply (proj1 (List.Forall_forall _ _) Hall2) in He as (Hhas & _).
      rewrite has_app in Hhas. apply orb_false_iff in Hhas as [_ Hhas].
      apply has_In in Hk1. congruence.
    + apply Forall_app. split.
      * eapply List.Forall_impl; [|exact Hall1]. cbn. intros e [H1 H2].
        split; [exact H1|apply recordedFrom_head; exact H2].
      * eapply List.Forall_impl; [|exact Hall2]. cbn. intros e [H1 H2].
        rewrite has_app in H1. apply orb_false_iff in H1 as [H1 _].
        split; [exact H1|apply recordedFrom_cons; exact H2].
    + intros p c u [[= <- <-]|Hin] Hp Hu Hext.
      * rewrite map_app. apply in_or_app. left. apply Hmd; assumption.
      * exact (Hin2 p c u Hin Hp Hu Hext).
Qed.

End Collecting.

Lemma collect_unique_witness :
  let files := [ (str "SKILL.md",
                  str "[docs](https://clickhouse.com/docs) [again](https://clickhouse.com/docs)");
                 (str "metadata.json", str "{}") ] in
  exists new,
    [ (str "https://clickhouse.com/docs",
       CollectLinks.MkLinkInfo (str "https://clickhouse.com/docs")
         (CheckExternalLinks.MkSource (str "clickhouse-best-practices") (str "SKILL.md"))) ]
    = [] ++ new /\
    List.NoDup (map fst new) /\
    Forall (fun e => CollectLinks.has [] (fst e) = false /\
                     recordedFrom (str "skills") (fun _ p => p)
                       [str "SKILL.md"; str "metadata.json"] e) new /\
    (forall p c u,
       In (p, Resolved c)
          (reads (trace_of (disk files)
                    (CollectLinks.collect (str "skills") (fun _ p => p)
                       (fun _ => Some (CollectLinks.JObject []))
                       [str "SKILL.md"; str "metadata.json"] []) tt)) ->
       endsWith p (str ".md") = true ->
       In u (CollectLinks.extractMarkdownLinks c) -> CollectLinks.isExternalUrl u = true ->
       In u (map fst
               [ (str "https://clickhouse.com/docs",
                  CollectLinks.MkLinkInfo (str "https://clickhouse.com/docs")
                    (CheckExternalLinks.MkSource (str "clickhouse-best-practices")
                       (str "SKILL.md"))) ])).
Proof.
  apply (collect_unique (disk _) (str "skills") (fun _ p => p)
           (fun _ => Some (CollectLinks.JObject []))
           [str "SKILL.md"; str "metadata.json"] [] _ tt).
  vm_compute. reflexivity.
Defined.

(* ===================================================================== *)
(** ** The summary table                                                  *)
(* ===================================================================== *)

Section Table.

Import CollectLinks.

Lemma padEnd_length (s : jsstring) (n : nat) : length (padEnd s n) = Nat.max n (length s).
Proof. unfold padEnd. rewrite length_app, repeat_length. lia. Qed.

Lemma truncatedUrl_length (r : CheckExternalLinks.LinkCheckResult) :
  (length (truncatedUrl r) <= 56)%nat.
Proof.
  unfold truncatedUrl. destruct (Nat.ltb_spec 56 (length (CheckExternalLinks.url r))).
  - rewrite length_app, length_firstn. change (length (str "...")) with 3%nat. lia.
  - lia.
Qed.

Lemma sourceFile_length (r : CheckExternalLinks.LinkCheckResult) :
  length (sourceFile r)
  = Nat.min 12 (length (CheckExternalLinks.file (CheckExternalLinks.source r))).
Proof.
  unfold sourceFile.
  destruct (Nat.ltb_spec 12 (length (CheckExternalLinks.file (CheckExternalLinks.source r)))).
  - rewrite length_app, length_skipn. change (length (str "...")) with 3%nat. lia.
  - lia.
Qed.

(** X21.  The rows of the summary table.  The URL cell of a row is always
    exactly 56 code units wide.  The row is as wide as the header and the
    frame of the table exactly when the status cell takes at most 6 code
    units and the path of the source file at most 7: a longer path is cut
    to 12 code units, not to the 7 of its column, and pushes the right
    border out. *)
Theorem row_width (r : CheckExternalLinks.LinkCheckResult) :
  length (padEnd (truncatedUrl r) 56) = 56%nat /\
  (length (row r) = length headerRow <->
   (length (statusText r) <= 6)%nat /\
   (length (CheckExternalLinks.file (CheckExternalLinks.source r)) <= 7)%nat).
Proof.
  pose proof (truncatedUrl_length r) as Hu.
  pose proof (sourceFile_length r) as Hs.
  split; [rewrite padEnd_length; lia|].
  unfold row, bar. rewrite !length_app, !padEnd_length.
  change (length headerRow) with 79%nat.
  change (length [9474%N]) with 1%nat. change (length (str " ")) with 1%nat.
  lia.
Qed.

End Table.

Example row_overflows :
  let r := CheckExternalLinks.MkResult docsUrl true (Some 200%Z) None skillSource 0 in
  length (CollectLinks.row r) = 80%nat /\ length CollectLinks.headerRow = 79%nat.
Proof. vm_compute. split; reflexivity. Qed.
